(** * Angular8CubicBezierSpline: the interactive spline demo, verified

    A shallow embedding of the TypeScript sources

    - [src/app/marker/Marker.ts]       (module [Marker])
      and the listeners of a marker's shape (module [Listeners])
    - [src/app/app.component.ts]       (module [App])

    together with a model of the Typescript Math Toolkit spline
    ([src/app/libs/CubicBezierSpline.ts], [src/app/libs/CubicBezier.ts]),
    which the application imports (module [Spline]).

    JavaScript's [number] is IEEE 754 binary64; it is modelled by Rocq's
    primitive floats, whose operations are specified by [FloatAxioms].
    Exceptions are modelled by an outcome type, and methods that mutate
    [this] by explicit state passing: a method returns its outcome and the
    state it leaves behind, also when it throws. *)

From Stdlib Require Import ZArith List Bool String DecimalString Lia Floats.
Import ListNotations.

Set Implicit Arguments.

(** ** JavaScript numbers *)

Module Num.

Definition number := float.

Bind Scope float_scope with number.

(** The global [isNaN], at type [number]. *)
Definition isNaN (v : number) : bool := PrimFloat.is_nan v.

(** Strict equality [===] of two numbers. *)
Definition same (a b : number) : bool := PrimFloat.eqb a b.



(** Conversion of a loop counter. *)
Definition of_nat (n : nat) : number :=
  PrimFloat.of_uint63 (Uint63.of_Z (Z.of_nat n)).

End Num.

Export Num.

(** ** Exceptions and state *)

Inductive exn : Type :=
| TypeError        (* a property of [null] or [undefined] was read *)
| ValidationError. (* malformed input at a mutation boundary *)

Inductive outcome (A : Type) : Type :=
| Returned (a : A)
| Thrown (e : exn).

Arguments Thrown {A} e.

(** A method on a receiver of type [S]: the receiver is passed in and handed
    back, mutated up to the point where the method returned or threw. *)
Definition M (S A : Type) : Type := S -> outcome A * S.

Definition ret {S A} (a : A) : M S A := fun s => (Returned a, s).

Definition throw {S A} (e : exn) : M S A := fun s => (Thrown e, s).

Definition bind {S A B} (m : M S A) (k : A -> M S B) : M S B :=
  fun s =>
    match m s with
    | (Returned a, s') => k a s'
    | (Thrown e, s') => (Thrown e, s')
    end.

Definition get {S} : M S S := fun s => (Returned s, s).

Definition modify {S} (f : S -> S) : M S unit := fun s => (Returned tt, f s).

Declare Scope js_scope.
Delimit Scope js_scope with js.
Notation "x <- m ;; k" := (bind m (fun x => k))
  (at level 61, m at next level, right associativity) : js_scope.
Notation "m ;;; k" := (bind m (fun _ => k))
  (at level 61, right associativity) : js_scope.

(** [for (i = 0; i < xs.length; ++i) body(xs[i])]. *)
Fixpoint forEach {S A} (xs : list A) (body : A -> M S unit) : M S unit :=
  match xs with
  | [] => ret tt
  | x :: rest => bind (body x) (fun _ => forEach rest body)
  end.

(** Reading a property of a reference that may be [null] or [undefined]. *)
Definition deref {S A} (r : option A) : M S A :=
  match r with
  | Some a => ret a
  | None => throw TypeError
  end.

(** ** PixiJS display objects

    Only what the sources read or write is kept: position, the ad hoc
    [dragging] flag, the line style and the path of a [PIXI.Graphics]; the
    listeners and the children of a [PIXI.Container].  Fill colours, cursors,
    pivots, hit areas and a container's [interactive] flag are never read
    back and are left out. *)

Module PIXI.

Inductive DrawCommand : Type :=
| drawCircle (x y radius : number)
| moveTo (x y : number)
| bezierCurveTo (cpX cpY cpX2 cpY2 toX toY : number).

Record Graphics : Type := {
  x : number;
  y : number;
  interactive : bool;
  dragging : bool;
  lineStyle : option (number * Z * number);   (* width, colour, alpha *)
  path : list DrawCommand
}.

(** [new PIXI.Graphics()]: at the origin, nothing drawn. *)
Definition new_Graphics : Graphics :=
  {| x := 0%float; y := 0%float; interactive := false; dragging := false;
     lineStyle := None; path := [] |}.

(** [g.clear()] forgets what was drawn and the line style. *)
Definition clear (g : Graphics) : Graphics :=
  {| x := x g; y := y g; interactive := interactive g; dragging := dragging g;
     lineStyle := None; path := [] |}.

Definition setLineStyle (w : number) (colour : Z) (alpha : number)
    (g : Graphics) : Graphics :=
  {| x := x g; y := y g; interactive := interactive g; dragging := dragging g;
     lineStyle := Some (w, colour, alpha); path := path g |}.

Definition draw (c : DrawCommand) (g : Graphics) : Graphics :=
  {| x := x g; y := y g; interactive := interactive g; dragging := dragging g;
     lineStyle := lineStyle g; path := path g ++ [c] |}.

(** [g.x = v].  The position of a display object is an observable point,
    whose setter reads [if (this._x !== value) { this._x = value; ... }]: a
    value that [===] the coordinate held is not stored, so a zero written
    over the zero of the other sign changes nothing, and a NaN is stored
    even over a NaN. *)
Definition set_x (v : number) (g : Graphics) : Graphics :=
  {| x := if negb (same (x g) v) then v else x g;
     y := y g; interactive := interactive g; dragging := dragging g;
     lineStyle := lineStyle g; path := path g |}.

(** [g.y = v], likewise. *)
Definition set_y (v : number) (g : Graphics) : Graphics :=
  {| x := x g;
     y := if negb (same (y g) v) then v else y g;
     interactive := interactive g; dragging := dragging g;
     lineStyle := lineStyle g; path := path g |}.

Definition set_interactive (b : bool) (g : Graphics) : Graphics :=
  {| x := x g; y := y g; interactive := b; dragging := dragging g;
     lineStyle := lineStyle g; path := path g |}.

Definition set_dragging (b : bool) (g : Graphics) : Graphics :=
  {| x := x g; y := y g; interactive := interactive g; dragging := b;
     lineStyle := lineStyle g; path := path g |}.

(** A container: [Child] names the display objects put on it, [Handler] the
    functions registered on it. *)
Record Container (Child Handler : Type) : Type := {
  children : list Child;
  listeners : list (string * Handler)
}.

Arguments Build_Container {Child Handler} _ _.

Definition new_Container {Child Handler} : Container Child Handler :=
  {| children := []; listeners := [] |}.

Definition addChild {Child Handler} (c : Child)
    (k : Container Child Handler) : Container Child Handler :=
  {| children := children k ++ [c]; listeners := listeners k |}.

Definition removeChildren {Child Handler}
    (k : Container Child Handler) : Container Child Handler :=
  {| children := []; listeners := listeners k |}.

Definition on {Child Handler} (event : string) (h : Handler)
    (k : Container Child Handler) : Container Child Handler :=
  {| children := children k; listeners := listeners k ++ [(event, h)] |}.

Definition removeAllListeners {Child Handler}
    (k : Container Child Handler) : Container Child Handler :=
  {| children := children k; listeners := [] |}.

(** The handlers an event reaches, in registration order. *)
Definition handlersOf {Child Handler} (event : string)
    (k : Container Child Handler) : list Handler :=
  map snd (filter (fun eh => String.eqb (fst eh) event) (listeners k)).

(** [evt.data.global] of an interaction event. *)
Record InteractionEvent : Type := {
  global_x : number;
  global_y : number
}.

End PIXI.

(** ** Marker.ts *)

Module Marker.

Section WithSubscriber.

(** What a marker calls back: [IMarkerSubscriber]. *)
Variable Subscriber : Type.

Record Marker : Type := {
  id : option string;                     (* never assigned by the class *)
  _markerShape : option PIXI.Graphics;    (* [None] is [null] *)
  _subscribers : list Subscriber
}.

Definition with_shape (g : option PIXI.Graphics) (m : Marker) : Marker :=
  {| id := id m; _markerShape := g; _subscribers := _subscribers m |}.

Definition with_subscribers (l : list Subscriber) (m : Marker) : Marker :=
  {| id := id m; _markerShape := _markerShape m; _subscribers := l |}.

(** [constructor()] *)
Definition new_Marker : Marker :=
  {| id := None; _markerShape := None; _subscribers := [] |}.

(** [clear()]: the shape's listeners are switched off, the shape is dropped
    and the subscribers are emptied. *)
Definition clear : M Marker unit :=
  fun m =>
    let m1 :=
      match _markerShape m with
      | Some _ => with_shape None m
      | None => m
      end in
    let m2 :=
      if (0 <? List.length (_subscribers m1))%nat
      then with_subscribers [] m1
      else m1 in
    (Returned tt, m2).

(** [__makeDraggable()] *)
Definition __makeDraggable : M Marker unit :=
  (m <- get ;;
   g <- deref (_markerShape m) ;;
   modify (with_shape
     (Some (PIXI.set_dragging false (PIXI.set_interactive true g)))))%js.

(** [create(radius = 8, color)]; returns the new shape. *)
Definition create (radius : number) : M Marker PIXI.Graphics :=
  (m <- get ;;
   (match _markerShape m with
    | Some _ => clear
    | None => ret tt
    end) ;;;
   modify (with_shape
     (Some (PIXI.draw (PIXI.drawCircle 0 0 radius)
              (PIXI.clear PIXI.new_Graphics)))) ;;;
   __makeDraggable ;;;
   m' <- get ;;
   deref (_markerShape m'))%js.

Definition default_radius : number := 8%float.

(** [get x()] *)
Definition x : M Marker number :=
  (m <- get ;; g <- deref (_markerShape m) ;; ret (PIXI.x g))%js.

(** [get y()] *)
Definition y : M Marker number :=
  (m <- get ;; g <- deref (_markerShape m) ;; ret (PIXI.y g))%js.

(** [set x(value)] *)
Definition set_x (value : number) : M Marker unit :=
  fun m =>
    match _markerShape m with
    | Some g =>
        (Returned tt,
         with_shape
           (Some (PIXI.set_x (if negb (isNaN value) then value else PIXI.x g) g))
           m)
    | None => (Returned tt, m)
    end.

(** [set y(value)] *)
Definition set_y (value : number) : M Marker unit :=
  fun m =>
    match _markerShape m with
    | Some g =>
        (Returned tt,
         with_shape
           (Some (PIXI.set_y (if negb (isNaN value) then value else PIXI.y g) g))
           m)
    | None => (Returned tt, m)
    end.

(** [setCoords(x, y)] *)
Definition setCoords (vx vy : number) : M Marker unit :=
  fun m =>
    match _markerShape m with
    | Some g =>
        let g1 := PIXI.set_x (if negb (isNaN vx) then vx else PIXI.x g) g in
        let g2 := PIXI.set_y (if negb (isNaN vy) then vy else PIXI.y g1) g1 in
        (Returned tt, with_shape (Some g2) m)
    | None => (Returned tt, m)
    end.

(** [addSubscriber(subscriber)]; the argument is [None] when the caller
    passes [undefined] or [null]. *)
Definition addSubscriber (subscriber : option Subscriber) : M Marker unit :=
  fun m =>
    match subscriber with
    | Some s => (Returned tt, with_subscribers (_subscribers m ++ [s]) m)
    | None => (Returned tt, m)
    end.

(** One call of a subscriber: [subscriber(id, x, y)]. *)
Record Notification : Type := {
  to : Subscriber;
  marker_id : option string;
  at_x : number;
  at_y : number
}.

(** The three pointer handlers.  PIXI calls a listener with
    [evt.currentTarget] the display object the listener is registered on.
    The handlers work on that object, which need not be the shape the
    marker holds: [clear] drops the shape and leaves its listeners on. *)

(** [evt.currentTarget], as a handler of the marker meets it. *)
Inductive Target : Type :=
| OwnShape                        (* what [this._markerShape] refers to:
                                     the marker's shape, or [null] *)
| Detached (g : PIXI.Graphics)    (* a graphics the marker does not hold *)
| Undefined.                      (* [undefined] *)

(** What a handler works on: the marker, and the target of the event. *)
Record Handling : Type := {
  this : Marker;
  currentTarget : Target
}.

(** The object [evt.currentTarget] refers to; [None] for [null] and for
    [undefined]. *)
Definition target (h : Handling) : option PIXI.Graphics :=
  match currentTarget h with
  | OwnShape => _markerShape (this h)
  | Detached g => Some g
  | Undefined => None
  end.

(** An assignment to a property of the target, which leaves it as [g]: seen
    through [this._markerShape] when the target is the marker's shape. *)
Definition with_target (g : PIXI.Graphics) (h : Handling) : Handling :=
  match currentTarget h with
  | OwnShape =>
      {| this := with_shape (Some g) (this h); currentTarget := OwnShape |}
  | Detached _ => {| this := this h; currentTarget := Detached g |}
  | Undefined => h
  end.

(** [evt.currentTarget !== undefined] *)
Definition defined (t : Target) : bool :=
  match t with
  | Undefined => false
  | _ => true
  end.

(** [__startDrag(evt)] *)
Definition __startDrag (evt : PIXI.InteractionEvent) : M Handling unit :=
  (h <- get ;;
   g <- deref (target h) ;;
   modify (with_target (PIXI.set_dragging true g)))%js.

(** [__dragging(evt)]: moves the target while it is dragged and returns the
    calls to make, one per subscriber, in order.  The arguments of a call
    are read from [this._markerShape]. *)
Definition __dragging (evt : PIXI.InteractionEvent)
    : M Handling (list Notification) :=
  (h <- get ;;
   if defined (currentTarget h) then
     g <- deref (target h) ;;
     if PIXI.dragging g then
       modify (with_target (PIXI.set_y (PIXI.global_y evt)
                              (PIXI.set_x (PIXI.global_x evt) g))) ;;;
       h' <- get ;;
       let m := this h' in
       match _subscribers m with
       | [] => ret []
       | _ :: _ =>
           shape <- deref (_markerShape m) ;;
           ret (map (fun s => {| to := s; marker_id := id m;
                                 at_x := PIXI.x shape; at_y := PIXI.y shape |})
                    (_subscribers m))
       end
     else ret []
   else ret [])%js.

(** [__endDrag(evt)] *)
Definition __endDrag (evt : PIXI.InteractionEvent) : M Handling unit :=
  (h <- get ;;
   if defined (currentTarget h) then
     g <- deref (target h) ;;
     modify (with_target (PIXI.set_dragging false g))
   else ret tt)%js.

(** A handler called for an event on the shape the marker holds. *)
Definition onOwnShape {A} (handler : M Handling A) : M Marker A :=
  fun m =>
    let (r, h) := handler {| this := m; currentTarget := OwnShape |} in
    (r, this h).

(** A handler called for an event on a graphics the marker does not hold,
    such as a shape it has dropped; the graphics is passed in and handed
    back with the marker. *)
Definition onDetached {A} (handler : M Handling A)
    : M (Marker * PIXI.Graphics) A :=
  fun mg =>
    let (r, h) := handler {| this := fst mg; currentTarget := Detached (snd mg) |} in
    (r, (this h, match currentTarget h with Detached g' => g' | _ => snd mg end)).

End WithSubscriber.

Arguments new_Marker {Subscriber}.

End Marker.

(** ** Marker.ts: the listeners of a marker's shape

    [Marker] above leaves the listeners of a shape out: the eight that
    [__makeDraggable] registers and the eight that [clear] asks [off] to
    remove.  They are followed here, function object by function object. *)

Module Listeners.

(** The method of the marker a listener forwards its event to. *)
Inductive Method : Type := StartDrag | Dragging | EndDrag.

(** A function object.  JavaScript compares functions by identity, and an
    arrow function expression makes a new function each time it is
    evaluated.  [Stored field] is the function the constructor stored in
    [field]; [Inline event serial] is the function that the arrow function
    written in [__makeDraggable] as the listener of [event] evaluated to in
    the call number [serial] of [__makeDraggable]. *)
Inductive Closure : Type :=
| Stored (field : string)
| Inline (event : string) (serial : nat).

(** [f === g] *)
Definition identical (f g : Closure) : bool :=
  match f, g with
  | Stored a, Stored b => String.eqb a b
  | Inline e m, Inline e' n => String.eqb e e' && Nat.eqb m n
  | _, _ => false
  end.

(** The listeners of a shape, in registration order: PIXI's event emitter. *)
Definition Emitter : Type := list (string * Closure).

(** [shape.on(event, fn)] *)
Definition on (event : string) (fn : Closure) (l : Emitter) : Emitter :=
  l ++ [(event, fn)].

(** [shape.off(event, fn)]: the listeners of [event] whose function is [fn]
    are removed. *)
Definition off (event : string) (fn : Closure) (l : Emitter) : Emitter :=
  filter (fun ef => negb (String.eqb (fst ef) event && identical (snd ef) fn)) l.

Local Open Scope string_scope.

(** What the functions do.  The constructor stores eight arrow functions,
    [this._mousedown = (evt) => this.__startDrag(evt)] and so on. *)
Definition stored : list (string * Method) :=
  [ ("_mousedown", StartDrag); ("_touchstart", StartDrag);
    ("_mouseup", EndDrag); ("_mouseupoutside", EndDrag);
    ("_touchend", EndDrag); ("_touchendoutside", EndDrag);
    ("_mousemove", Dragging); ("_touchmove", Dragging) ].

(** The eight arrow functions written in [__makeDraggable], by the event
    they are registered for; they have the same bodies. *)
Definition inlined : list (string * Method) :=
  [ ("mousedown", StartDrag); ("touchstart", StartDrag);
    ("mouseup", EndDrag); ("mouseupoutside", EndDrag);
    ("touchend", EndDrag); ("touchendoutside", EndDrag);
    ("mousemove", Dragging); ("touchmove", Dragging) ].

Local Close Scope string_scope.

Definition lookup (name : string) (table : list (string * Method))
    : option Method :=
  option_map snd (find (fun nm => String.eqb (fst nm) name) table).

(** The method a function forwards to; [None] for a function that was never
    made. *)
Definition forwardsTo (f : Closure) : option Method :=
  match f with
  | Stored field => lookup field stored
  | Inline event _ => lookup event inlined
  end.

(** The registrations of [__makeDraggable()], in its call number [serial],
    on the listeners [l] of the shape. *)
Definition __makeDraggable (serial : nat) (l : Emitter) : Emitter :=
  on "touchmove" (Inline "touchmove" serial)
    (on "mousemove" (Inline "mousemove" serial)
       (on "touchendoutside" (Inline "touchendoutside" serial)
          (on "touchend" (Inline "touchend" serial)
             (on "mouseupoutside" (Inline "mouseupoutside" serial)
                (on "mouseup" (Inline "mouseup" serial)
                   (on "touchstart" (Inline "touchstart" serial)
                      (on "mousedown" (Inline "mousedown" serial) l))))))).

(** The removals of [clear()] on the listeners [l] of the shape. *)
Definition clear (l : Emitter) : Emitter :=
  off "touchmove" (Stored "_touchmove")
    (off "mousemove" (Stored "_mousemove")
       (off "touchendoutside" (Stored "_touchendoutside")
          (off "touchend" (Stored "_touchend")
             (off "mouseupoutside" (Stored "_mouseupoutside")
                (off "mouseup" (Stored "_mouseup")
                   (off "touchstart" (Stored "_touchstart")
                      (off "mousedown" (Stored "_mousedown") l))))))).

(** The methods an event named [event] reaches on a shape with listeners
    [l], in order. *)
Definition reached (event : string) (l : Emitter) : list (option Method) :=
  map (fun ef => forwardsTo (snd ef))
      (filter (fun ef => String.eqb (fst ef) event) l).

End Listeners.

(** ** The spline engine (libs/CubicBezier.ts, libs/CubicBezierSpline.ts)

    The application imports [TSMT$CubicBezier] and [TSMT$CubicBezierSpline]
    from [src/app/libs]; those two files are missing from the source tree.
    This module follows the specification of the engine, sections 3 and 4,
    and the use the application makes of it: the field names of a segment
    ([x0], [y0], [cx], [cy], [cx1], [cy1], [x1], [y1]) are the ones
    [__drawSpline] reads. *)

Module Spline.

Local Open Scope float_scope.

(** Modelled from the spec: [Point {x, y}], a 2-D coordinate (section 3);
    the type [IPoint] of the missing libs/CubicBezierSpline.ts. *)
Record Point : Type := { x : number; y : number }.

(** Modelled from the spec: [CubicSegment {p0, c0, c1, p1}] (section 3), the
    class of the missing libs/CubicBezier.ts; [(x0, y0)] is [p0], [(cx, cy)]
    is [c0], [(cx1, cy1)] is [c1] and [(x1, y1)] is [p1]. *)
Record CubicBezier : Type := {
  x0 : number; y0 : number;
  cx : number; cy : number;
  cx1 : number; cy1 : number;
  x1 : number; y1 : number
}.

(** Modelled from the spec: the tunable constants of the missing engine
    (sections 4.2, 4.3, 4.5 and 9): tension, quadrature subdivisions,
    bisection tolerance and iteration budget. *)
Record Config : Type := {
  tension : number;
  subdivisions : nat;
  epsilon : number;
  maxIterations : nat
}.

(** Modelled from the spec: the defaults of the missing engine: tension 1/2,
    10 subdivisions, tolerance 1e-6, 50 iterations. *)
Definition defaults : Config :=
  {| tension := 0.5;
     subdivisions := 10;
     epsilon := 0x1.0c6f7a0b5ed8dp-20;
     maxIterations := 50 |}.

(** *** CubicSegment (section 4.1) *)

(** Modelled from the spec: clamping of a parameter of the missing
    [CubicBezier] to [[0,1]], [to the nearest boundary]. *)
Definition clamp01 (t : number) : number :=
  if t <? 0 then 0 else if 1 <? t then 1 else t.


(** Modelled from the spec: the derivative of the missing [CubicBezier],
    [3(1-t)^2 (c0-p0) + 6(1-t) t (c1-c0) + 3 t^2 (p1-c1)]. *)
Definition bernstein' (p0 c0 c1 p1 t : number) : number :=
  let u := 1 - t in
  3 * u * u * (c0 - p0) + 6 * u * t * (c1 - c0) + 3 * t * t * (p1 - c1).



(** Modelled from the spec: [getXPrime(t)] of the missing [CubicBezier]:
    [tangent(t)], x component, [t] clamped. *)
Definition getXPrime (b : CubicBezier) (t : number) : number :=
  bernstein' (x0 b) (cx b) (cx1 b) (x1 b) (clamp01 t).

(** Modelled from the spec: [getYPrime(t)] of the missing [CubicBezier]. *)
Definition getYPrime (b : CubicBezier) (t : number) : number :=
  bernstein' (y0 b) (cy b) (cy1 b) (y1 b) (clamp01 t).

(** *** ArcLengthIntegrator (section 4.3) *)

(** Modelled from the spec: the integrand of the missing integrator, the
    norm of [tangent(t)]. *)
Definition speed (b : CubicBezier) (t : number) : number :=
  let dx := getXPrime b t in
  let dy := getYPrime b t in
  PrimFloat.sqrt (dx * dx + dy * dy).

(** Modelled from the spec: the weight of sample [k] of [n] in the missing
    integrator's composite Simpson rule. *)
Definition weight (n k : nat) : number :=
  if (k =? 0)%nat then 1
  else if (k =? n)%nat then 1
  else if Nat.odd k then 4 else 2.

(** Modelled from the spec: the missing integrator's fixed-subdivision
    composite Simpson rule on [[ta, tb]] with [n] subdivisions. *)
Definition simpson (f : number -> number) (ta tb : number) (n : nat) : number :=
  let h := (tb - ta) / of_nat n in
  let sum :=
    fold_left (fun acc k => acc + weight n k * f (ta + of_nat k * h))
              (seq 0 (S n)) 0 in
  sum * h / 3.

(** Modelled from the spec: the missing [ArcLengthIntegrator]: approximate
    arc length of a segment over [[ta, tb]]. *)
Definition arcLength (cfg : Config) (b : CubicBezier) (ta tb : number) : number :=
  simpson (speed b) ta tb (subdivisions cfg).

(** *** Tangents and control points (section 4.2) *)

(** Modelled from the spec: the default of an index outside the knot
    sequence of the missing spline; no call below reaches it. *)
Definition origin : Point := {| x := 0; y := 0 |}.

(** Modelled from the spec: knot [i] of the missing spline's sequence. *)
Definition knotAt (knots : list Point) (i : nat) : Point := nth i knots origin.

(** Modelled from the spec: the tangent estimate of the missing spline at
    knot [i]: the tension times the central difference
    [knot (i+1) - knot (i-1)], indices modulo the knot count when closed; at
    the two ends of an open spline the one-sided difference between the end
    knot and its neighbour. *)
Definition tangentAt (cfg : Config) (closed : bool) (knots : list Point)
    (i : nat) : Point :=
  let n := List.length knots in
  let prev := if closed then ((i + n - 1) mod n)%nat else Nat.pred i in
  let next := if closed then ((i + 1) mod n)%nat else Nat.min (i + 1) (n - 1) in
  {| x := tension cfg * (x (knotAt knots next) - x (knotAt knots prev));
     y := tension cfg * (y (knotAt knots next) - y (knotAt knots prev)) |}.

(** Modelled from the spec: segment [i] of the missing spline, from knot [i]
    to knot [(i+1) mod n], with [c0 = knot i + tangent i / 3] and
    [c1 = knot (i+1) - tangent (i+1) / 3]. *)
Definition segmentAt (cfg : Config) (closed : bool) (knots : list Point)
    (i : nat) : CubicBezier :=
  let n := List.length knots in
  let j := ((i + 1) mod n)%nat in
  let p0 := knotAt knots i in
  let p1 := knotAt knots j in
  let t0 := tangentAt cfg closed knots i in
  let t1 := tangentAt cfg closed knots j in
  {| x0 := x p0; y0 := y p0;
     cx := x p0 + x t0 / 3; cy := y p0 + y t0 / 3;
     cx1 := x p1 - x t1 / 3; cy1 := y p1 - y t1 / 3;
     x1 := x p1; y1 := y p1 |}.

(** Modelled from the spec: the segments of the missing spline: none for
    fewer than 3 knots (rejected as degenerate), else one per consecutive
    knot pair, and one more back to the first knot when closed. *)
Definition buildSegments (cfg : Config) (closed : bool) (knots : list Point)
    : list CubicBezier :=
  let n := List.length knots in
  if (n <? 3)%nat then []
  else map (segmentAt cfg closed knots) (seq 0 (if closed then n else n - 1)).

(** *** Global arc-length table (section 4.4) *)

(** Modelled from the spec: the cumulative table of the missing spline,
    [table i = table (i-1) + arcLength (segment i) 0 1], [table (-1) = 0]. *)
Fixpoint cumulative (cfg : Config) (before : number) (segs : list CubicBezier)
    : list number :=
  match segs with
  | [] => []
  | b :: rest =>
      let here := before + arcLength cfg b 0 1 in
      here :: cumulative cfg here rest
  end.

(** Modelled from the spec: the table of the missing spline, started at 0. *)
Definition buildTable (cfg : Config) (segs : list CubicBezier) : list number :=
  cumulative cfg 0 segs.

(** *** ParameterInverter (section 4.5) *)




(** Modelled from the spec: the total length kept by the missing spline: the
    last value of the table, 0 when it is empty. *)
Definition tableLength (table : list number) : number := last table 0.


(** *** Spline (sections 3 and 4.6) *)

(** Modelled from the spec: the state of the missing [TSMT$CubicBezierSpline]
    (section 3); [invalidated] records that knots or the closed flag changed
    since segments and table were last rebuilt. *)
Record Spline : Type := {
  config : Config;
  knots : list Point;
  segments : list CubicBezier;
  closed : bool;
  arcLengthTable : list number;
  invalidated : bool
}.

(** Modelled from the spec: the initial state of the missing spline: no
    knots, open. *)
Definition new_Spline (cfg : Config) : Spline :=
  {| config := cfg; knots := []; segments := []; closed := false;
     arcLengthTable := []; invalidated := false |}.

(** Modelled from the spec: the recomputation of the missing spline:
    segments and table are rebuilt in full from knots and closed flag. *)
Definition recompute (s : Spline) : Spline :=
  let segs := buildSegments (config s) (closed s) (knots s) in
  {| config := config s; knots := knots s; segments := segs;
     closed := closed s; arcLengthTable := buildTable (config s) segs;
     invalidated := false |}.

(** Modelled from the spec: the implicit recomputation of the missing spline
    before a geometry query (section 4.6, recompute contract); the
    application never asks for one explicitly. *)
Definition ensure (s : Spline) : Spline :=
  if invalidated s then recompute s else s.

(** Modelled from the spec: [addControlPoint(x, y)] of the missing spline:
    appends a knot; existing segments stay until a recomputation. *)
Definition addControlPoint (px py : number) : M Spline unit :=
  modify (fun s =>
    {| config := config s; knots := knots s ++ [{| x := px; y := py |}];
       segments := segments s; closed := closed s;
       arcLengthTable := arcLengthTable s; invalidated := true |}).

(** Modelled from the spec: [setData(xs, ys)] of the missing spline: replaces
    the whole knot sequence; a length mismatch is a ValidationError and
    nothing is changed. *)
Definition setData (xs ys : list number) : M Spline unit :=
  fun s =>
    if (List.length xs =? List.length ys)%nat then
      (Returned tt,
       {| config := config s;
          knots := map (fun p => {| x := fst p; y := snd p |}) (combine xs ys);
          segments := segments s; closed := closed s;
          arcLengthTable := arcLengthTable s; invalidated := true |})
    else (Thrown ValidationError, s).

(** Modelled from the spec: [set closed(isClosed)] of the missing spline:
    invalidates and triggers the full recomputation. *)
Definition set_closed (isClosed : bool) : M Spline unit :=
  modify (fun s =>
    recompute
      {| config := config s; knots := knots s; segments := segments s;
         closed := isClosed; arcLengthTable := arcLengthTable s;
         invalidated := true |}).

(** Modelled from the spec: [clear()] of the missing spline: empties knots,
    segments and table. *)
Definition clear : M Spline unit :=
  modify (fun s =>
    {| config := config s; knots := []; segments := []; closed := closed s;
       arcLengthTable := []; invalidated := false |}).

(** Modelled from the spec: [getCubicSegment(i)] of the missing spline: the
    segment at index [i], or [None] ([null]) outside
    [[0, segments.length)]. *)
Definition getCubicSegment (i : Z) : M Spline (option CubicBezier) :=
  fun s =>
    let s' := ensure s in
    if ((0 <=? i) && (i <? Z.of_nat (List.length (segments s'))))%Z
    then (Returned (nth_error (segments s') (Z.to_nat i)), s')
    else (Returned None, s').

(** Modelled from the spec: [get numPoints()] of the missing spline. *)
Definition numPoints (s : Spline) : Z := Z.of_nat (List.length (knots s)).

(** Modelled from the spec: [get points()] of the missing spline. *)
Definition points (s : Spline) : list Point := knots s.

(** Modelled from the spec: [get length()] of the missing spline: the last
    value of the table, 0 when there is none. *)
Definition length : M Spline number :=
  fun s => let s' := ensure s in (Returned (tableLength (arcLengthTable s')), s').

End Spline.

(** ** app.component.ts *)

Module App.

Import Marker.

(** The two closures the constructor stores: [_onStageMouseClick] calls
    [__onStageClicked], [_onMarkerMoved] calls [__onMarkerMoved]. *)
Inductive StageHandler : Type := StageMouseClick.
Inductive MarkerSubscriber : Type := MarkerMoved.

(** The display objects the component puts on a container; a marker's shape
    is named by the position of its marker in [_markers]. *)
Inductive DisplayObject : Type :=
| SplineGraphics
| MarkerContainer
| MarkerShape (index : nat).

Definition Container : Type := PIXI.Container DisplayObject StageHandler.

(** What the component reads of its [CanvasContainerDirective]. *)
Record CanvasContainerDirective : Type := {
  stage : Container;
  width : number;
  height : number
}.

Definition MAX_KNOTS : Z := 8.
Definition BEZIER_LINE_COLOR : Z := 255.   (* 0x0000ff *)

(** The fields of [AppComponent].  [_markers] is [undefined] until the
    constructor's [onClear()] assigns it an empty array; the one test made
    on it treats both alike, and both are the empty list here.  After
    [ngOnInit] the stage is followed through [_stage]. *)
Record AppComponent : Type := {
  statusTxt : string;
  _canvas : option CanvasContainerDirective;
  _width : number;
  _height : number;
  _numKnots : Z;
  _markers : list (Marker MarkerSubscriber);
  _stage : option Container;
  _splineGraphics : option PIXI.Graphics;
  _markerContainer : option Container;
  _spline : Spline.Spline
}.

Definition with_statusTxt (v : string) (a : AppComponent) : AppComponent :=
  {| statusTxt := v; _canvas := _canvas a; _width := _width a;
     _height := _height a; _numKnots := _numKnots a; _markers := _markers a;
     _stage := _stage a; _splineGraphics := _splineGraphics a;
     _markerContainer := _markerContainer a; _spline := _spline a |}.

Definition with_size (w h : number) (a : AppComponent) : AppComponent :=
  {| statusTxt := statusTxt a; _canvas := _canvas a; _width := w;
     _height := h; _numKnots := _numKnots a; _markers := _markers a;
     _stage := _stage a; _splineGraphics := _splineGraphics a;
     _markerContainer := _markerContainer a; _spline := _spline a |}.

Definition with_numKnots (v : Z) (a : AppComponent) : AppComponent :=
  {| statusTxt := statusTxt a; _canvas := _canvas a; _width := _width a;
     _height := _height a; _numKnots := v; _markers := _markers a;
     _stage := _stage a; _splineGraphics := _splineGraphics a;
     _markerContainer := _markerContainer a; _spline := _spline a |}.

Definition with_markers (v : list (Marker MarkerSubscriber))
    (a : AppComponent) : AppComponent :=
  {| statusTxt := statusTxt a; _canvas := _canvas a; _width := _width a;
     _height := _height a; _numKnots := _numKnots a; _markers := v;
     _stage := _stage a; _splineGraphics := _splineGraphics a;
     _markerContainer := _markerContainer a; _spline := _spline a |}.

Definition with_stage (v : option Container) (a : AppComponent) : AppComponent :=
  {| statusTxt := statusTxt a; _canvas := _canvas a; _width := _width a;
     _height := _height a; _numKnots := _numKnots a; _markers := _markers a;
     _stage := v; _splineGraphics := _splineGraphics a;
     _markerContainer := _markerContainer a; _spline := _spline a |}.

Definition with_splineGraphics (v : option PIXI.Graphics)
    (a : AppComponent) : AppComponent :=
  {| statusTxt := statusTxt a; _canvas := _canvas a; _width := _width a;
     _height := _height a; _numKnots := _numKnots a; _markers := _markers a;
     _stage := _stage a; _splineGraphics := v;
     _markerContainer := _markerContainer a; _spline := _spline a |}.

Definition with_markerContainer (v : option Container)
    (a : AppComponent) : AppComponent :=
  {| statusTxt := statusTxt a; _canvas := _canvas a; _width := _width a;
     _height := _height a; _numKnots := _numKnots a; _markers := _markers a;
     _stage := _stage a; _splineGraphics := _splineGraphics a;
     _markerContainer := v; _spline := _spline a |}.

Definition with_spline (v : Spline.Spline) (a : AppComponent) : AppComponent :=
  {| statusTxt := statusTxt a; _canvas := _canvas a; _width := _width a;
     _height := _height a; _numKnots := _numKnots a; _markers := _markers a;
     _stage := _stage a; _splineGraphics := _splineGraphics a;
     _markerContainer := _markerContainer a; _spline := v |}.

(** A method of [this._spline], called from the component. *)
Definition onSpline {A} (m : M Spline.Spline A) : M AppComponent A :=
  fun a =>
    let (r, s') := m (_spline a) in
    (r, with_spline s' a).

(** A getter of a marker, called from the component. *)
Definition readMarker {A} (m : M (Marker MarkerSubscriber) A)
    (marker : Marker MarkerSubscriber) : M AppComponent A :=
  fun a => (fst (m marker), a).

(** A JavaScript integer in a template string. *)
Definition showZ (n : Z) : string := NilZero.string_of_int (Z.to_int n).

(** [onClear()] *)
Definition onClear : M AppComponent unit :=
  (a <- get ;;
   modify (with_markers (map (fun marker => snd (Marker.clear marker))
                             (_markers a))) ;;;
   modify (fun a => with_markerContainer
                      (option_map PIXI.removeChildren (_markerContainer a)) a) ;;;
   modify (fun a => with_stage
                      (option_map
                         (fun st => PIXI.on "pointerup" StageMouseClick
                                      (PIXI.removeAllListeners st))
                         (_stage a)) a) ;;;
   onSpline Spline.clear ;;;
   modify (fun a => with_splineGraphics
                      (option_map PIXI.clear (_splineGraphics a)) a) ;;;
   modify (with_markers []) ;;;
   modify (with_numKnots 0) ;;;
   modify (with_statusTxt
             "'Click' to add knots.  'Draw' to draw cubic spline"))%js.

(** [constructor()]: the field initialisers, a new spline, [onClear()].
    [canvas] is what Angular injects for the [ViewChild]. *)
Definition initialised (canvas : option CanvasContainerDirective)
    : AppComponent :=
  {| statusTxt := ""; _canvas := canvas; _width := 0%float; _height := 0%float;
     _numKnots := 0; _markers := []; _stage := None; _splineGraphics := None;
     _markerContainer := None; _spline := Spline.new_Spline Spline.defaults |}.

Definition constructor (canvas : option CanvasContainerDirective)
    : outcome unit * AppComponent :=
  onClear (initialised canvas).

(** [__setup()] *)
Definition __setup : M AppComponent unit :=
  (modify (with_markerContainer (Some PIXI.new_Container)) ;;;
   modify (with_splineGraphics (Some PIXI.new_Graphics)) ;;;
   a <- get ;;
   st <- deref (_stage a) ;;
   modify (with_stage
     (Some (PIXI.on "click" StageMouseClick
              (PIXI.addChild MarkerContainer
                 (PIXI.addChild SplineGraphics st))))))%js.

(** [ngOnInit()] *)
Definition ngOnInit : M AppComponent unit :=
  (a <- get ;;
   match _canvas a with
   | Some canvas =>
       modify (with_stage (Some (stage canvas))) ;;;
       modify (with_size (width canvas) (height canvas)) ;;;
       __setup
   | None => ret tt
   end)%js.

(** The body of the second loop of [__drawSpline]: segment [i] is fetched
    and drawn; [bezier.x0] throws when the spline answers [null]. *)
Definition drawSegment (i : Z) : M AppComponent unit :=
  (bezier <- onSpline (Spline.getCubicSegment i) ;;
   b <- deref bezier ;;
   a <- get ;;
   g <- deref (_splineGraphics a) ;;
   modify (with_splineGraphics
     (Some (PIXI.draw
              (PIXI.bezierCurveTo (Spline.cx b) (Spline.cy b)
                 (Spline.cx1 b) (Spline.cy1 b) (Spline.x1 b) (Spline.y1 b))
              (PIXI.draw (PIXI.moveTo (Spline.x0 b) (Spline.y0 b)) g)))))%js.

(** The indices [0 <= i < n] of a counting loop. *)
Definition upTo (n : Z) : list Z := map Z.of_nat (seq 0 (Z.to_nat n)).

(** [__drawSpline()], first loop: the marker coordinates are given to the
    spline. *)
Definition provideCoordinates : M AppComponent unit :=
  (a <- get ;;
   forEach (_markers a) (fun marker =>
     mx <- readMarker (@Marker.x _) marker ;;
     my <- readMarker (@Marker.y _) marker ;;
     onSpline (Spline.addControlPoint mx my)))%js.

(** [__drawSpline()], the rest: the graphics is cleared and segments
    [0 <= i < _numKnots - 1] are drawn. *)
Definition drawSegments : M AppComponent unit :=
  (a <- get ;;
   let n := (_numKnots a - 1)%Z in
   g <- deref (_splineGraphics a) ;;
   modify (with_splineGraphics
     (Some (PIXI.setLineStyle 2 BEZIER_LINE_COLOR 1 (PIXI.clear g)))) ;;;
   forEach (upTo n) drawSegment)%js.

(** [__drawSpline()] *)
Definition __drawSpline : M AppComponent unit :=
  (provideCoordinates ;;; drawSegments)%js.

(** [onDraw()] *)
Definition onDraw : M AppComponent unit :=
  (a <- get ;;
   if (_numKnots a <? 3)%Z then
     modify (with_statusTxt "You must define at least three knots")
   else
     st <- deref (_stage a) ;;
     modify (with_stage (Some (PIXI.removeAllListeners st))) ;;;
     modify (with_markers
       (map (fun marker => snd (Marker.addSubscriber (Some MarkerMoved) marker))
            (_markers a))) ;;;
     modify (with_statusTxt "'Clear' to reset for another spline.") ;;;
     __drawSpline)%js.

(** [__onStageClicked(evt)] *)
Definition __onStageClicked (evt : PIXI.InteractionEvent) : M AppComponent unit :=
  (a <- get ;;
   if (_numKnots a <? MAX_KNOTS)%Z then
     let marker0 := @new_Marker MarkerSubscriber in
     let marker1 := snd (Marker.create default_radius marker0) in
     let marker := snd (Marker.setCoords (PIXI.global_x evt) (PIXI.global_y evt)
                          marker1) in
     modify (with_markers (_markers a ++ [marker])) ;;;
     k <- deref (_markerContainer a) ;;
     modify (with_markerContainer
       (Some (PIXI.addChild (MarkerShape (List.length (_markers a))) k))) ;;;
     modify (fun a => with_numKnots (_numKnots a + 1) a) ;;;
     modify (fun a => with_statusTxt
                        ("Total knot count " ++ showZ (_numKnots a)) a)
   else
     modify (with_statusTxt
       "Knot limit exceeded.  Clear Canvas and try a new knot set."))%js.

(** [__onMarkerMoved(id, x, y)] *)
Definition __onMarkerMoved (id : option string) (x y : number)
    : M AppComponent unit :=
  (onSpline Spline.clear ;;; __drawSpline)%js.

(** *** Events

    PIXI hands an event to the handlers registered for it; the closures of
    the constructor forward to the methods above. *)

Definition callStageHandler (h : StageHandler) (evt : PIXI.InteractionEvent)
    : M AppComponent unit :=
  match h with StageMouseClick => __onStageClicked evt end.

Definition callSubscriber (n : Notification MarkerSubscriber)
    : M AppComponent unit :=
  match to n with
  | MarkerMoved => __onMarkerMoved (marker_id n) (at_x n) (at_y n)
  end.

(** An event named [event] on the stage. *)
Definition stageEvent (event : string) (evt : PIXI.InteractionEvent)
    : M AppComponent unit :=
  (a <- get ;;
   match _stage a with
   | Some st =>
       forEach (PIXI.handlersOf event st) (fun h => callStageHandler h evt)
   | None => ret tt
   end)%js.

(** Replaces element [i] of an array. *)
Fixpoint setNth {A} (i : nat) (v : A) (l : list A) : list A :=
  match l, i with
  | [], _ => []
  | _ :: rest, O => v :: rest
  | h :: rest, S p => h :: setNth p v rest
  end.

(** A pointer-move on the shape of marker [i]: the marker is updated in
    place and its subscribers are called. *)
Definition markerMoveEvent (i : nat) (evt : PIXI.InteractionEvent)
    : M AppComponent unit :=
  (a <- get ;;
   match nth_error (_markers a) i with
   | Some marker =>
       let (r, marker') := Marker.onOwnShape (Marker.__dragging evt) marker in
       modify (with_markers (setNth i marker' (_markers a))) ;;;
       match r with
       | Returned calls => forEach calls callSubscriber
       | Thrown e => throw e
       end
   | None => ret tt
   end)%js.

(** A pointer-down, or a pointer-up, on the shape of marker [i]. *)
Definition markerPressEvent (down : bool) (i : nat) (evt : PIXI.InteractionEvent)
    : M AppComponent unit :=
  (a <- get ;;
   match nth_error (_markers a) i with
   | Some marker =>
       let (r, marker') :=
         Marker.onOwnShape
           (if down then Marker.__startDrag evt else Marker.__endDrag evt)
           marker in
       modify (with_markers (setNth i marker' (_markers a))) ;;;
       match r with
       | Returned _ => ret tt
       | Thrown e => throw e
       end
   | None => ret tt
   end)%js.

End App.

(** ** Vocabulary of the statements *)

Module Terms.

Import Marker App.

(** A marker that has a shape: created, and not cleared since. *)
Definition live {S} (m : Marker S) : Prop := _markerShape m <> None.

(** Where a marker is: what its getters [x] and [y] read. *)
Definition markerPoint {S} (m : Marker S) : Spline.Point :=
  match _markerShape m with
  | Some g => {| Spline.x := PIXI.x g; Spline.y := PIXI.y g |}
  | None => Spline.origin
  end.

Definition markerPoints {S} (ms : list (Marker S)) : list Spline.Point :=
  map markerPoint ms.

(** What [__drawSpline] draws for one segment. *)
Definition strokes (b : Spline.CubicBezier) : list PIXI.DrawCommand :=
  [ PIXI.moveTo (Spline.x0 b) (Spline.y0 b);
    PIXI.bezierCurveTo (Spline.cx b) (Spline.cy b) (Spline.cx1 b) (Spline.cy1 b)
      (Spline.x1 b) (Spline.y1 b) ].

(** A graphics after the segments [bs] were drawn on it, in order. *)
Definition strokeAll (bs : list Spline.CubicBezier) (g : PIXI.Graphics)
    : PIXI.Graphics :=
  fold_left
    (fun g b =>
       PIXI.draw
         (PIXI.bezierCurveTo (Spline.cx b) (Spline.cy b) (Spline.cx1 b)
            (Spline.cy1 b) (Spline.x1 b) (Spline.y1 b))
         (PIXI.draw (PIXI.moveTo (Spline.x0 b) (Spline.y0 b)) g))
    bs g.

(** What is drawn on [_splineGraphics]; nothing when there is no graphics. *)
Definition drawn (a : AppComponent) : list PIXI.DrawCommand :=
  match _splineGraphics a with
  | Some g => PIXI.path g
  | None => []
  end.

(** The result of a drawing method on component [a] shows each segment of
    the spline once: the method returned; the knots are the positions of the
    markers of [a], as many as [_numKnots] says; there is one segment less
    than knots, segment [i] running from knot [i] to knot [i + 1]; and what
    is drawn is the strokes of the segments, first to last. *)
Definition rendersEachSegment (a : AppComponent)
    (result : outcome unit * AppComponent) : Prop :=
  let ks := Spline.knots (_spline (snd result)) in
  let segs := Spline.segments (_spline (snd result)) in
  fst result = Returned tt /\
  ks = markerPoints (_markers a) /\
  Z.of_nat (List.length ks) = _numKnots a /\
  List.length segs = (List.length ks - 1)%nat /\
  drawn (snd result) = flat_map strokes segs /\
  forall i, (i < List.length ks - 1)%nat ->
    exists b, nth_error segs i = Some b /\
      Spline.x0 b = Spline.x (Spline.knotAt ks i) /\
      Spline.y0 b = Spline.y (Spline.knotAt ks i) /\
      Spline.x1 b = Spline.x (Spline.knotAt ks (i + 1)) /\
      Spline.y1 b = Spline.y (Spline.knotAt ks (i + 1)).

(** A method keeps a property of the component: it holds of what the method
    leaves, however the method ends. *)
Definition keeps {A} (P : AppComponent -> Prop) (m : M AppComponent A) : Prop :=
  forall a, P a -> P (snd (m a)).

(** A spline after a run of [addControlPoint] calls. *)
Definition addPoints (pts : list Spline.Point) (s : Spline.Spline) : Spline.Spline :=
  fold_left (fun s p => snd (Spline.addControlPoint (Spline.x p) (Spline.y p) s))
            pts s.

(** What a user and the framework can do to a running component: an event
    on the stage, the two buttons, and pointer events on a marker's shape. *)
Inductive Event : Type :=
| OnStage (event : string) (evt : PIXI.InteractionEvent)
| DrawButton
| ClearButton
| MarkerDown (i : nat) (evt : PIXI.InteractionEvent)
| MarkerMove (i : nat) (evt : PIXI.InteractionEvent)
| MarkerUp (i : nat) (evt : PIXI.InteractionEvent).

Definition handle (e : Event) : M AppComponent unit :=
  match e with
  | OnStage event evt => stageEvent event evt
  | DrawButton => onDraw
  | ClearButton => onClear
  | MarkerDown i evt => markerPressEvent true i evt
  | MarkerMove i evt => markerMoveEvent i evt
  | MarkerUp i evt => markerPressEvent false i evt
  end.

(** The component after a sequence of events; an exception ends the handler
    that threw and leaves the component as it was at that point. *)
Definition run (events : list Event) (a : AppComponent) : AppComponent :=
  fold_left (fun a e => snd (handle e a)) events a.

(** The component once Angular has constructed and initialised it. *)
Definition boot (canvas : option CanvasContainerDirective) : AppComponent :=
  snd (ngOnInit (snd (constructor canvas))).

(** The marker [__onStageClicked] makes for a click: created, then placed at
    the pointer. *)
Definition placed (evt : PIXI.InteractionEvent) : Marker MarkerSubscriber :=
  snd (Marker.setCoords (PIXI.global_x evt) (PIXI.global_y evt)
         (snd (Marker.create default_radius new_Marker))).

(** A component that is set up and consistent: stage, marker container and
    spline graphics exist, [_numKnots] counts the markers and is at most
    [MAX_KNOTS], and every marker has its shape. *)
Definition ready (a : AppComponent) : Prop :=
  (exists st, _stage a = Some st) /\
  (exists k, _markerContainer a = Some k) /\
  (exists g, _splineGraphics a = Some g) /\
  _numKnots a = Z.of_nat (List.length (_markers a)) /\
  (0 <= _numKnots a <= MAX_KNOTS)%Z /\
  Forall live (_markers a).

(** What a coordinate of a display object holds after [v] is written over
    [held]: [v], unless the two are [===], as the two zeros are. *)
Definition written (held v : number) : number :=
  if same held v then held else v.

(** A marker's position as a pointer event leaves it. *)
Definition movedTo {S} (evt : PIXI.InteractionEvent) (m : Marker S) : Marker S :=
  match _markerShape m with
  | Some g =>
      with_shape (Some (PIXI.set_y (PIXI.global_y evt)
                          (PIXI.set_x (PIXI.global_x evt) g))) m
  | None => m
  end.













(** *** Magnitudes

    Bounds on the binary exponent of a number, in which the finiteness of
    what the engine computes is followed through its arithmetic. *)



(** *** The running component *)

(** A marker nobody subscribed to. *)
Definition unsubscribed {S} (m : Marker S) : Prop := _subscribers m = [].

(** A component whose handlers can run: set up and consistent, with at least
    3 knots as soon as a marker has a subscriber. *)
Definition steady (a : AppComponent) : Prop :=
  ready a /\ ((3 <= _numKnots a)%Z \/ Forall unsubscribed (_markers a)).

(** A component that was never given a canvas: nothing is set up, and there
    is no marker. *)
Definition inert (a : AppComponent) : Prop :=
  _stage a = None /\ _markerContainer a = None /\ _splineGraphics a = None /\
  _markers a = [] /\ _numKnots a = 0%Z /\
  Spline.knots (_spline a) = [] /\ Spline.segments (_spline a) = [].

(** Where a click puts its marker: at the pointer, a coordinate that is NaN
    or [=== 0] replaced by the [+0] of a new shape. *)
Definition clickPoint (evt : PIXI.InteractionEvent) : Spline.Point :=
  let landed (v : number) :=
    if isNaN v || same 0%float v then 0%float else v in
  {| Spline.x := landed (PIXI.global_x evt);
     Spline.y := landed (PIXI.global_y evt) |}.

(** A point whose coordinates are numbers, not NaN. *)
Definition isNumbers (p : Spline.Point) : bool :=
  negb (isNaN (Spline.x p)) && negb (isNaN (Spline.y p)).

(** A sequence of events that presses [Draw]. *)
Definition pressesDraw (events : list Event) : bool :=
  existsb (fun e => match e with DrawButton => true | _ => false end) events.

(** A sequence of events none of whose pointer moves on a marker carries a
    NaN. *)
Definition movesCarryNumbers (events : list Event) : bool :=
  forallb (fun e =>
             match e with
             | MarkerMove _ evt =>
                 negb (isNaN (PIXI.global_x evt)) && negb (isNaN (PIXI.global_y evt))
             | _ => true
             end) events.

(** The listeners of a stage that holds the one closure
    [_onStageMouseClick], on [event]. *)
Definition listensTo (event : string) : list (string * StageHandler) :=
  [(event, StageMouseClick)].

(** The drawing is in step with the markers: the knots of the spline are the
    marker positions, as many as [_numKnots] says, the spline has one
    segment less than knots, and what is drawn is the strokes of its
    segments, first to last. *)
Definition inStep (a : AppComponent) : Prop :=
  Spline.knots (_spline a) = markerPoints (_markers a) /\
  Z.of_nat (List.length (Spline.knots (_spline a))) = _numKnots a /\
  List.length (Spline.segments (_spline a)) =
    (List.length (Spline.knots (_spline a)) - 1)%nat /\
  drawn a = flat_map strokes (Spline.segments (_spline a)).

(** The status text tells where the component is: the instructions with no
    knot, the count after a click, the limit at the ceiling, the complaint
    of [Draw] below 3 knots, the hint to clear from 3 knots on. *)
Definition statusTells (a : AppComponent) : Prop :=
  (statusTxt a = "'Click' to add knots.  'Draw' to draw cubic spline"%string /\
   _numKnots a = 0%Z) \/
  (statusTxt a = ("Total knot count " ++ showZ (_numKnots a))%string /\
   (1 <= _numKnots a)%Z) \/
  (statusTxt a =
     "Knot limit exceeded.  Clear Canvas and try a new knot set."%string /\
   _numKnots a = MAX_KNOTS) \/
  (statusTxt a = "You must define at least three knots"%string /\
   (_numKnots a < 3)%Z) \/
  (statusTxt a = "'Clear' to reset for another spline."%string /\
   (3 <= _numKnots a)%Z).

End Terms.

(** ** Sample inputs *)

Module Sample.

Import App Terms.

Local Open Scope float_scope.

Definition canvas : CanvasContainerDirective :=
  {| stage := PIXI.new_Container; width := 640; height := 480 |}.

Definition pointer (px py : number) : PIXI.InteractionEvent :=
  {| PIXI.global_x := px; PIXI.global_y := py |}.

(** Four clicks, at the corners of a square. *)
Definition fourClicks : list Event :=
  [ OnStage "click" (pointer 0 0); OnStage "click" (pointer 10 0);
    OnStage "click" (pointer 10 10); OnStage "click" (pointer 0 10) ].

(** The component after the four clicks, before [Draw]. *)
Definition fourMarkers : AppComponent := run fourClicks (boot (Some canvas)).

(** The component after the four clicks and [Draw], with the second marker
    pressed. *)
Definition drawnAndPressed : AppComponent :=
  run [DrawButton; MarkerDown 1 (pointer 10 0)] fourMarkers.

(** The knots of the specification's scenario, scaled. *)
Definition square (scale : number) : list Spline.Point :=
  [ {| Spline.x := 0; Spline.y := 0 |};
    {| Spline.x := 10 * scale; Spline.y := 0 |};
    {| Spline.x := 10 * scale; Spline.y := 10 * scale |};
    {| Spline.x := 0; Spline.y := 10 * scale |} ].









(** The pointer positions of the four clicks. *)
Definition fourPointers : list PIXI.InteractionEvent :=
  [ pointer 0 0; pointer 10 0; pointer 10 10; pointer 0 10 ].

(** A marker as a click at (3, 4) makes it, with the component subscribed. *)
Definition subscribedMarker : Marker.Marker MarkerSubscriber :=
  snd (Marker.addSubscriber (Some MarkerMoved) (placed (pointer 3 4))).

(** Four clicks, [Draw], then the second marker pressed. *)
Definition clicksDrawAndPress : list Event :=
  fourClicks ++ [ DrawButton; MarkerDown 1 (pointer 10 0) ].

(** The same, and the second marker moved to (20, 5). *)
Definition clicksDrawAndDrag : list Event :=
  clicksDrawAndPress ++ [ MarkerMove 1 (pointer 20 5) ].

End Sample.

(** * Properties *)

Unset Implicit Arguments.

(** ** Binary64 arithmetic at 0 and 1 *)

Section Binary64.

Local Open Scope float_scope.










(** A number, as opposed to NaN, is [===] to itself. *)
Lemma number_same (v : number) : isNaN v = false -> same v v = true.
Proof.
  unfold isNaN, is_nan, same. intros H.
  destruct (v =? v); [reflexivity | discriminate].
Qed.

Lemma NaN_differs (v w : number) : isNaN v = true -> same w v = false.
Proof.
  unfold isNaN, is_nan, same. rewrite !eqb_spec.
  destruct (Prim2SF v) as [s|s| |s m e] eqn:E; cbn;
    try (destruct s; discriminate).
  - intros _. destruct (Prim2SF w) as [s'|s'| |s' m' e']; reflexivity.
  - rewrite Pos.compare_cont_refl, Z.compare_refl. destruct s; discriminate.
Qed.

Lemma NaN_differs_l (v w : number) : isNaN v = true -> same v w = false.
Proof.
  unfold isNaN, is_nan, same. rewrite !eqb_spec.
  destruct (Prim2SF v) as [s|s| |s m e] eqn:E; cbn;
    try (destruct s; discriminate).
  - reflexivity.
  - rewrite Pos.compare_cont_refl, Z.compare_refl. destruct s; discriminate.
Qed.



End Binary64.

(** ** Binary64 order *)

Section Ordering.

Local Open Scope float_scope.








End Ordering.

(** ** Binary64 magnitudes *)

Section Magnitude.

Import Terms.

Local Open Scope Z_scope.

































End Magnitude.

(** ** Binary64 rounding of counts *)

Section Rounding.

Import Terms.

Local Open Scope Z_scope.






End Rounding.

Section Counting.

Import Terms.

Local Open Scope float_scope.





End Counting.


(** ** Marker.ts *)

Section MarkerFacts.

Import Marker.

Variable S : Type.
Implicit Type m : Marker S.

Lemma graphics_set_x_same (g : PIXI.Graphics) : PIXI.set_x (PIXI.x g) g = g.
Proof.
  destruct g as [gx gy i d l p]. unfold PIXI.set_x. cbn [PIXI.x].
  destruct (same gx gx); reflexivity.
Qed.

Lemma graphics_set_y_same (g : PIXI.Graphics) : PIXI.set_y (PIXI.y g) g = g.
Proof.
  destruct g as [gx gy i d l p]. unfold PIXI.set_y. cbn [PIXI.y].
  destruct (same gy gy); reflexivity.
Qed.

Lemma with_shape_same m g : _markerShape m = Some g -> with_shape (Some g) m = m.
Proof. destruct m; cbn; intros ->; reflexivity. Qed.

Lemma clear_drops_shape m : _markerShape (snd (clear m)) = None.
Proof.
  unfold clear; cbn.
  destruct (_markerShape m) eqn:E;
    match goal with |- context [if ?c then _ else _] => destruct c end;
    cbn; try reflexivity; exact E.
Qed.

Lemma clear_returns m : fst (clear m) = Returned tt.
Proof. reflexivity. Qed.

(** C10: a marker without a shape (a new one, before [create()], or any
    marker after [clear()]) fails with a TypeError when [x] or [y] is read,
    while [set x], [set y] and [setCoords] return and leave it as it is; on a
    marker with a shape the setters and [setCoords] keep the previous
    coordinate when they are given NaN, and store any other number. *)
Theorem marker_null_shape_and_NaN :
  _markerShape (@new_Marker S) = None /\
  (forall m, fst (clear m) = Returned tt /\ _markerShape (snd (clear m)) = None) /\
  (forall m, _markerShape m = None ->
     x m = (Thrown TypeError, m) /\
     y m = (Thrown TypeError, m) /\
     (forall v, set_x v m = (Returned tt, m)) /\
     (forall v, set_y v m = (Returned tt, m)) /\
     (forall vx vy, setCoords vx vy m = (Returned tt, m))) /\
  (forall m g v, _markerShape m = Some g -> isNaN v = true ->
     set_x v m = (Returned tt, m) /\ set_y v m = (Returned tt, m)) /\
  (forall m g v, _markerShape m = Some g -> isNaN v = false ->
     set_x v m = (Returned tt, with_shape (Some (PIXI.set_x v g)) m) /\
     set_y v m = (Returned tt, with_shape (Some (PIXI.set_y v g)) m)) /\
  (forall m g vx vy, _markerShape m = Some g ->
     setCoords vx vy m =
       (Returned tt,
        with_shape
          (Some (PIXI.set_y (if isNaN vy then PIXI.y g else vy)
                   (PIXI.set_x (if isNaN vx then PIXI.x g else vx) g))) m)).
Proof.
  split; [reflexivity|].
  split; [intros m; split; [reflexivity | apply clear_drops_shape]|].
  split.
  { intros m E.
    unfold x, y, set_x, set_y, setCoords, bind, get, deref, throw.
    rewrite E. cbn. repeat split. }
  split.
  { intros m g v E N. unfold set_x, set_y. rewrite E, N. cbn.
    rewrite graphics_set_x_same, graphics_set_y_same, (with_shape_same m g E).
    split; reflexivity. }
  split.
  { intros m g v E N. unfold set_x, set_y. rewrite E, N. cbn.
    split; reflexivity. }
  intros m g vx vy E. unfold setCoords. rewrite E.
  destruct (isNaN vx), (isNaN vy); reflexivity.
Qed.

End MarkerFacts.

(** ** Marker.ts: the life of a marker *)

Section MarkerLife.

Import Marker.

Variable S : Type.
Implicit Type m : Marker S.

Lemma clear_result m :
  clear m = (Returned tt, {| id := id m; _markerShape := None; _subscribers := [] |}).
Proof.
  unfold clear. destruct m as [i [g|] [|s l]]; reflexivity.
Qed.

Lemma create_result m (radius : number) :
  let g := PIXI.set_dragging false
             (PIXI.set_interactive true
                (PIXI.draw (PIXI.drawCircle 0 0 radius)
                   (PIXI.clear PIXI.new_Graphics))) in
  create radius m =
    (Returned g,
     {| id := id m; _markerShape := Some g;
        _subscribers := match _markerShape m with
                        | Some _ => []
                        | None => _subscribers m
                        end |}).
Proof.
  destruct m as [i [g0|] subs].
  - unfold create, bind, get. cbn [_markerShape]. rewrite clear_result.
    reflexivity.
  - reflexivity.
Qed.

(** The handlers, called for an event on the shape the marker holds. *)
Lemma startDrag_own evt m :
  onOwnShape (__startDrag evt) m =
    match _markerShape m with
    | Some g => (Returned tt, with_shape (Some (PIXI.set_dragging true g)) m)
    | None => (Thrown TypeError, m)
    end.
Proof. destruct m as [i [g|] subs]; reflexivity. Qed.

Lemma endDrag_own evt m :
  onOwnShape (__endDrag evt) m =
    match _markerShape m with
    | Some g => (Returned tt, with_shape (Some (PIXI.set_dragging false g)) m)
    | None => (Thrown TypeError, m)
    end.
Proof. destruct m as [i [g|] subs]; reflexivity. Qed.

Lemma dragging_own evt m :
  onOwnShape (__dragging evt) m =
    match _markerShape m with
    | Some g =>
        if PIXI.dragging g then
          let g' := PIXI.set_y (PIXI.global_y evt)
                      (PIXI.set_x (PIXI.global_x evt) g) in
          (Returned
             (map (fun s => {| to := s; marker_id := id m;
                               at_x := PIXI.x g'; at_y := PIXI.y g' |})
                  (_subscribers m)),
           with_shape (Some g') m)
        else (Returned [], m)
    | None => (Thrown TypeError, m)
    end.
Proof.
  destruct m as [i [g|] subs]; [|reflexivity].
  unfold onOwnShape, __dragging, bind, get, deref, ret, modify.
  cbn [this currentTarget defined target _markerShape].
  destruct (PIXI.dragging g); [|reflexivity].
  destruct subs; reflexivity.
Qed.

Lemma written_x (v : number) (g : PIXI.Graphics) :
  PIXI.x (PIXI.set_x v g) = Terms.written (PIXI.x g) v.
Proof.
  unfold PIXI.set_x, Terms.written. cbn [PIXI.x].
  destruct (same (PIXI.x g) v); reflexivity.
Qed.

Lemma written_y (v : number) (g : PIXI.Graphics) :
  PIXI.y (PIXI.set_y v g) = Terms.written (PIXI.y g) v.
Proof.
  unfold PIXI.set_y, Terms.written. cbn [PIXI.y].
  destruct (same (PIXI.y g) v); reflexivity.
Qed.

Lemma x_set_y (v : number) (g : PIXI.Graphics) :
  PIXI.x (PIXI.set_y v g) = PIXI.x g.
Proof. reflexivity. Qed.

Lemma y_set_x (v : number) (g : PIXI.Graphics) :
  PIXI.y (PIXI.set_x v g) = PIXI.y g.
Proof. reflexivity. Qed.

(** What is read after a number was written is [===] to that number. *)
Lemma written_same (held v : number) :
  isNaN v = false -> same (Terms.written held v) v = true.
Proof.
  intros N. unfold Terms.written.
  destruct (same held v) eqn:E; [exact E | apply number_same; exact N].
Qed.

(** Writing a number leaves a number. *)
Lemma written_number (held v : number) :
  isNaN v = false -> isNaN (Terms.written held v) = false.
Proof.
  intros N. unfold Terms.written.
  destruct (same held v) eqn:E; [|exact N].
  destruct (isNaN held) eqn:H; [|reflexivity].
  rewrite (NaN_differs_l held v H) in E. discriminate.
Qed.

(** A NaN is always stored. *)
Lemma written_NaN (held v : number) :
  isNaN v = true -> Terms.written held v = v.
Proof.
  intros N. unfold Terms.written. rewrite (NaN_differs v held N). reflexivity.
Qed.

(** X1: [create(radius)] never throws, whatever the marker was.  It returns
    the shape it has just stored in [_markerShape]: a new graphics at (0, 0)
    with one circle of the given radius drawn around its origin, interactive
    and not dragged.  The [id] is kept.  The subscribers are emptied when
    the marker had a shape before (that shape is cleared first) and kept
    when it had none.  A pointer move right after [create] moves nothing and
    calls nobody. *)
Theorem create_starts_afresh m (radius : number) :
  exists g,
    create radius m =
      (Returned g,
       {| id := id m; _markerShape := Some g;
          _subscribers := match _markerShape m with
                          | Some _ => []
                          | None => _subscribers m
                          end |}) /\
    PIXI.x g = 0%float /\ PIXI.y g = 0%float /\
    PIXI.path g = [PIXI.drawCircle 0 0 radius] /\
    PIXI.lineStyle g = None /\
    PIXI.interactive g = true /\ PIXI.dragging g = false /\
    (forall evt, onOwnShape (__dragging evt) (snd (create radius m)) =
                   (Returned [], snd (create radius m))).
Proof.
  eexists. split; [apply create_result|].
  repeat split.
  intros evt. rewrite create_result. reflexivity.
Qed.

(** X2: [clear()] leaves the marker as a new one with the same [id]: no
    shape and no subscriber, whatever it held.  Clearing twice is clearing
    once; a subscriber added after [clear] is the only one; and a [create]
    after [clear] starts without subscribers. *)
Theorem clear_resets_marker m :
  clear m =
    (Returned tt, {| id := id m; _markerShape := None; _subscribers := [] |}) /\
  clear (snd (clear m)) = clear m /\
  (forall sub,
     _subscribers (snd (addSubscriber (Some sub) (snd (clear m)))) = [sub]) /\
  (forall radius,
     _subscribers (snd (create radius (snd (clear m)))) = []).
Proof.
  rewrite !clear_result. cbn [snd id]. split; [reflexivity|].
  split; [reflexivity|].
  split; reflexivity.
Qed.

(** X3: [setCoords(x, y)] is [set x] followed by [set y], and also [set y]
    followed by [set x]: outcome and marker are the same, with or without a
    shape, and whether or not an argument is NaN. *)
Theorem setCoords_is_set_x_then_set_y m (vx vy : number) :
  setCoords vx vy m = set_y vy (snd (set_x vx m)) /\
  setCoords vx vy m = set_x vx (snd (set_y vy m)).
Proof.
  unfold setCoords, set_x, set_y.
  destruct (_markerShape m) as [g|] eqn:E; cbn; [|rewrite E; split; reflexivity].
  destruct (isNaN vx), (isNaN vy); split; reflexivity.
Qed.

(** X4: on a marker with a shape, a coordinate that was set to a number
    reads back as a number [===] to it ([set x] then [get x], [set y] then
    [get y], [setCoords] then both): the number itself, or the coordinate
    held before when that was [===] to it already, so that [-0] set over
    [+0] reads [+0].  The other coordinate is as before; and a NaN written
    afterwards, by a setter or by [setCoords], leaves what is held in
    place. *)
Theorem coordinates_read_back m g (vx vy : number) :
  _markerShape m = Some g ->
  isNaN vx = false -> isNaN vy = false ->
  let rx := Terms.written (PIXI.x g) vx in
  let ry := Terms.written (PIXI.y g) vy in
  same rx vx = true /\ same ry vy = true /\
  (same (PIXI.x g) vx = false -> rx = vx) /\
  (same (PIXI.y g) vy = false -> ry = vy) /\
  fst (x (snd (set_x vx m))) = Returned rx /\
  fst (y (snd (set_x vx m))) = Returned (PIXI.y g) /\
  fst (y (snd (set_y vy m))) = Returned ry /\
  fst (x (snd (set_y vy m))) = Returned (PIXI.x g) /\
  fst (x (snd (setCoords vx vy m))) = Returned rx /\
  fst (y (snd (setCoords vx vy m))) = Returned ry /\
  (forall v, isNaN v = true ->
     fst (x (snd (set_x v (snd (set_x vx m))))) = Returned rx /\
     fst (y (snd (set_y v (snd (set_y vy m))))) = Returned ry /\
     fst (x (snd (setCoords v v (snd (setCoords vx vy m))))) = Returned rx /\
     fst (y (snd (setCoords v v (snd (setCoords vx vy m))))) = Returned ry).
Proof.
  intros E Nx Ny rx ry.
  split; [apply written_same; exact Nx|].
  split; [apply written_same; exact Ny|].
  split; [unfold rx, Terms.written; intros ->; reflexivity|].
  split; [unfold ry, Terms.written; intros ->; reflexivity|].
  unfold x, y, set_x, set_y, setCoords, bind, get, deref, ret.
  rewrite E, Nx, Ny. cbn [negb snd fst _markerShape with_shape].
  do 6 (split;
        [rewrite ?x_set_y, ?y_set_x, ?written_x, ?written_y; reflexivity|]).
  intros v Nv. rewrite Nv. cbn [negb].
  rewrite ?graphics_set_x_same, ?graphics_set_y_same.
  rewrite ?x_set_y, ?y_set_x, ?written_x, ?written_y.
  repeat split.
Qed.

(** X5: a marker follows the pointer between a press and a release only,
    the events being those of the shape it holds.  While the shape is not
    dragged, [__dragging] changes nothing and calls nobody.  After
    [__startDrag], [__dragging] writes the event's global position to the
    shape, whatever the two numbers are (there is no NaN test here): each
    coordinate then holds the pointer's, or what it held when that was
    [===] to the pointer's; a pointer coordinate that is a number reads
    back [===] to it, and a NaN is stored.  It asks for one call per
    subscriber, in subscription order, each with the marker's [id] and the
    position the shape now has.  After [__endDrag] the marker stays where
    the last move left it, with its subscribers, and [__dragging] again
    changes nothing. *)
Theorem marker_follows_pointer_while_pressed m g
    (press move release : PIXI.InteractionEvent) :
  _markerShape m = Some g ->
  let pressed := snd (onOwnShape (__startDrag press) m) in
  let moved := snd (onOwnShape (__dragging move) pressed) in
  let released := snd (onOwnShape (__endDrag release) moved) in
  let px := Terms.written (PIXI.x g) (PIXI.global_x move) in
  let py := Terms.written (PIXI.y g) (PIXI.global_y move) in
  (PIXI.dragging g = false ->
     forall evt, onOwnShape (__dragging evt) m = (Returned [], m)) /\
  fst (onOwnShape (__startDrag press) m) = Returned tt /\
  fst (onOwnShape (__dragging move) pressed) =
    Returned (map (fun sub => {| to := sub; marker_id := id m;
                                 at_x := px; at_y := py |})
                  (_subscribers m)) /\
  fst (x moved) = Returned px /\
  fst (y moved) = Returned py /\
  (isNaN (PIXI.global_x move) = false -> same px (PIXI.global_x move) = true) /\
  (isNaN (PIXI.global_y move) = false -> same py (PIXI.global_y move) = true) /\
  (isNaN (PIXI.global_x move) = true -> px = PIXI.global_x move) /\
  (isNaN (PIXI.global_y move) = true -> py = PIXI.global_y move) /\
  fst (onOwnShape (__endDrag release) moved) = Returned tt /\
  (forall evt,
     onOwnShape (__dragging evt) released = (Returned [], released)) /\
  fst (x released) = Returned px /\
  fst (y released) = Returned py /\
  _subscribers released = _subscribers m /\
  id released = id m.
Proof.
  intros E pressed moved released px py.
  split.
  { intros D evt. rewrite dragging_own, E, D. reflexivity. }
  assert (P : pressed = with_shape (Some (PIXI.set_dragging true g)) m)
    by (unfold pressed; rewrite startDrag_own, E; reflexivity).
  set (g' := PIXI.set_y (PIXI.global_y move)
               (PIXI.set_x (PIXI.global_x move) (PIXI.set_dragging true g))).
  assert (X : PIXI.x g' = px)
    by (unfold g'; cbn [PIXI.x PIXI.set_y]; apply written_x).
  assert (Y : PIXI.y g' = py) by (unfold g'; rewrite written_y; reflexivity).
  assert (D : onOwnShape (__dragging move) pressed =
              (Returned (map (fun sub => {| to := sub; marker_id := id m;
                                            at_x := px; at_y := py |})
                             (_subscribers m)),
               with_shape (Some g') m)).
  { rewrite dragging_own, P.
    cbn [_markerShape with_shape PIXI.dragging PIXI.set_dragging id
         _subscribers].
    cbv zeta. fold g'. f_equal.
    f_equal. apply map_ext. intros s. rewrite X, Y. reflexivity. }
  assert (Mv : moved = with_shape (Some g') m)
    by (unfold moved; rewrite D; reflexivity).
  assert (R : released = with_shape (Some (PIXI.set_dragging false g')) m).
  { unfold released. rewrite endDrag_own, Mv. reflexivity. }
  split; [rewrite startDrag_own, E; reflexivity|].
  split; [rewrite D; reflexivity|].
  assert (Rx : forall g0, fst (x (with_shape (Some g0) m)) = Returned (PIXI.x g0))
    by reflexivity.
  assert (Ry : forall g0, fst (y (with_shape (Some g0) m)) = Returned (PIXI.y g0))
    by reflexivity.
  split; [rewrite Mv, Rx, X; reflexivity|].
  split; [rewrite Mv, Ry, Y; reflexivity|].
  split; [apply written_same|].
  split; [apply written_same|].
  split; [apply written_NaN|].
  split; [apply written_NaN|].
  split; [rewrite endDrag_own, Mv; reflexivity|].
  split; [intros evt; rewrite dragging_own, R; reflexivity|].
  rewrite R, Rx, Ry. cbn [PIXI.x PIXI.y PIXI.set_dragging]. rewrite X, Y.
  repeat split.
Qed.

(** X21: the handlers work on the target of the event, not on the shape the
    marker holds.  On a graphics [d] the marker does not hold, such as a
    shape it has dropped, [__startDrag] and [__endDrag] return and set and
    reset its [dragging] flag, and the marker is as before.  [__dragging]
    does nothing while [d] is not dragged.  While it is, [__dragging]
    writes the pointer's position to [d], and the marker is again as
    before: with no subscriber it returns; with subscribers and a shape, it
    asks for one call per subscriber, with the position of the shape the
    marker holds and not that of [d]; with subscribers and no shape it
    throws a TypeError, [d] having moved.  With an [undefined] target,
    [__startDrag] throws a TypeError while [__dragging] and [__endDrag]
    return, and nothing changes. *)
Theorem handlers_work_on_the_target m (d : PIXI.Graphics)
    (evt : PIXI.InteractionEvent) :
  let d' := PIXI.set_y (PIXI.global_y evt) (PIXI.set_x (PIXI.global_x evt) d) in
  onDetached (__startDrag evt) (m, d) =
    (Returned tt, (m, PIXI.set_dragging true d)) /\
  onDetached (__endDrag evt) (m, d) =
    (Returned tt, (m, PIXI.set_dragging false d)) /\
  (PIXI.dragging d = false ->
     onDetached (__dragging evt) (m, d) = (Returned [], (m, d))) /\
  (PIXI.dragging d = true -> _subscribers m = [] ->
     onDetached (__dragging evt) (m, d) = (Returned [], (m, d'))) /\
  (PIXI.dragging d = true -> _subscribers m <> [] ->
     forall g, _markerShape m = Some g ->
     onDetached (__dragging evt) (m, d) =
       (Returned (map (fun sub => {| to := sub; marker_id := id m;
                                     at_x := PIXI.x g; at_y := PIXI.y g |})
                      (_subscribers m)),
        (m, d'))) /\
  (PIXI.dragging d = true -> _subscribers m <> [] -> _markerShape m = None ->
     onDetached (__dragging evt) (m, d) = (Thrown TypeError, (m, d'))) /\
  (let h := {| this := m; currentTarget := Undefined |} in
   __startDrag evt h = (Thrown TypeError, h) /\
   __dragging evt h = (Returned [], h) /\
   __endDrag evt h = (Returned tt, h)).
Proof.
  intros d'.
  unfold onDetached, __startDrag, __endDrag, __dragging, bind, get, deref, ret,
    modify, throw.
  cbn [this currentTarget defined target with_target fst snd].
  split; [reflexivity|]. split; [reflexivity|].
  split; [intros ->; reflexivity|].
  split.
  { intros -> Subs. cbn [this currentTarget with_target fst snd].
    rewrite Subs. reflexivity. }
  split.
  { intros -> N g E. cbn [this currentTarget with_target fst snd].
    destruct (_subscribers m) as [|s l] eqn:Subs; [destruct N; reflexivity|].
    rewrite E. reflexivity. }
  split.
  { intros -> N E. cbn [this currentTarget with_target fst snd].
    destruct (_subscribers m) as [|s l] eqn:Subs; [destruct N; reflexivity|].
    rewrite E. reflexivity. }
  repeat split.
Qed.

End MarkerLife.

(** ** Marker.ts: the listeners of a shape *)

Section ListenerFacts.

Import Listeners.

Lemma identical_refl f : identical f f = true.
Proof.
  destruct f; cbn; rewrite ?String.eqb_refl, ?Nat.eqb_refl; reflexivity.
Qed.

(** X19: [clear()] removes none of the listeners of the shape.  The eight
    listeners that [__makeDraggable] registers are arrow functions written
    in place, made anew by each call; the eight functions that [clear]
    hands to [off] are the ones the constructor stored, which were never
    registered.  So after [create()] and [clear()] the shape that was
    dropped still holds its eight listeners, and a pointer event on it
    still reaches [__startDrag], [__dragging] or [__endDrag] of the marker;
    whereas [off] does remove a listener when given the function that was
    registered. *)
Theorem clear_removes_no_listener (serial : nat) :
  let shape := __makeDraggable serial [] in
  clear shape = shape /\
  List.length (clear shape) = 8%nat /\
  reached "mousedown" (clear shape) = [Some StartDrag] /\
  reached "touchstart" (clear shape) = [Some StartDrag] /\
  reached "mousemove" (clear shape) = [Some Dragging] /\
  reached "touchmove" (clear shape) = [Some Dragging] /\
  reached "mouseup" (clear shape) = [Some EndDrag] /\
  reached "mouseupoutside" (clear shape) = [Some EndDrag] /\
  reached "touchend" (clear shape) = [Some EndDrag] /\
  reached "touchendoutside" (clear shape) = [Some EndDrag] /\
  (forall event fn rest, off event fn (on event fn rest) = off event fn rest).
Proof.
  intros shape.
  assert (E : clear shape = shape) by reflexivity.
  rewrite E. repeat (split; [reflexivity|]).
  intros event fn rest. unfold off, on. rewrite filter_app. cbn.
  rewrite String.eqb_refl, identical_refl. cbn. apply app_nil_r.
Qed.

End ListenerFacts.

(** ** The arc length of a degenerate segment *)

Section Degenerate.

Import Spline Terms.

Local Open Scope float_scope.



















End Degenerate.

(** ** Bisection *)

Section Bisection.

Import Spline.

Local Open Scope float_scope.



End Bisection.

(** ** The spline engine *)

Section SplineFacts.

Import Spline.

Implicit Type s : Spline.
Implicit Type cfg : Config.

(** *** Mutations *)

(** C3: [setData(xs, ys)] with arrays of different lengths throws a
    ValidationError and hands the spline back exactly as it was (knots,
    segments, table and flags); with arrays of equal length it returns, and
    the knot sequence is then the pairs [(xs[i], ys[i])] and nothing else,
    whatever the knots were before. *)
Theorem setData_validates (xs ys : list number) s :
  (List.length xs <> List.length ys ->
     setData xs ys s = (Thrown ValidationError, s)) /\
  (List.length xs = List.length ys ->
     fst (setData xs ys s) = Returned tt /\
     knots (snd (setData xs ys s)) =
       map (fun p => {| x := fst p; y := snd p |}) (combine xs ys) /\
     List.length (knots (snd (setData xs ys s))) = List.length xs /\
     closed (snd (setData xs ys s)) = closed s).
Proof.
  unfold setData. split; intros H.
  - apply Nat.eqb_neq in H. rewrite H. reflexivity.
  - pose proof H as H'. apply Nat.eqb_eq in H'. rewrite H'. cbn.
    repeat split.
    rewrite length_map, length_combine. lia.
Qed.

Lemma ensure_idempotent s : ensure (ensure s) = ensure s.
Proof.
  unfold ensure. destruct (invalidated s) eqn:E.
  - reflexivity.
  - rewrite E. reflexivity.
Qed.

Lemma ensure_valid s : invalidated (ensure s) = false.
Proof. unfold ensure. destruct (invalidated s) eqn:E; [reflexivity | exact E]. Qed.

Lemma ensure_knots s : knots (ensure s) = knots s.
Proof. unfold ensure. destruct (invalidated s); reflexivity. Qed.

Lemma ensure_closed s : closed (ensure s) = closed s.
Proof. unfold ensure. destruct (invalidated s); reflexivity. Qed.

Lemma ensure_fresh s : invalidated s = false -> ensure s = s.
Proof. unfold ensure. intros ->. reflexivity. Qed.

(** C4: [getCubicSegment(i)] never throws; for an integer [i] outside
    [[0, segments.length)] it returns [null], and inside it returns the
    segment at index [i] ([segments] being the segments the query leaves,
    rebuilt first when knots or closed flag had changed). *)
Theorem getCubicSegment_total (i : Z) s :
  let (r, s') := getCubicSegment i s in
  s' = ensure s /\
  ((i < 0 \/ Z.of_nat (List.length (segments s')) <= i)%Z ->
     r = Returned None) /\
  ((0 <= i < Z.of_nat (List.length (segments s')))%Z ->
     exists b, r = Returned (Some b) /\
               nth_error (segments s') (Z.to_nat i) = Some b).
Proof.
  unfold getCubicSegment.
  destruct ((0 <=? i)%Z && (i <? Z.of_nat (List.length (segments (ensure s))))%Z)
    eqn:E.
  - apply andb_true_iff in E as [E1 E2].
    apply Z.leb_le in E1. apply Z.ltb_lt in E2.
    split; [reflexivity|]. split; [lia|].
    intros _.
    destruct (nth_error (segments (ensure s)) (Z.to_nat i)) as [b|] eqn:N.
    + exists b. split; reflexivity.
    + apply nth_error_None in N. lia.
  - apply andb_false_iff in E.
    split; [reflexivity|]. split; [reflexivity|].
    intros [H1 H2].
    destruct E as [E|E]; [apply Z.leb_gt in E | apply Z.ltb_ge in E]; lia.
Qed.

(** *** Segments *)

Lemma buildSegments_length cfg (isClosed : bool) (ks : list Point) :
  (3 <= List.length ks)%nat ->
  List.length (buildSegments cfg isClosed ks) =
    if isClosed then List.length ks else (List.length ks - 1)%nat.
Proof.
  intros H. unfold buildSegments.
  destruct (List.length ks <? 3)%nat eqn:E.
  - apply Nat.ltb_lt in E. lia.
  - rewrite length_map, length_seq. reflexivity.
Qed.


Lemma buildSegments_some cfg (isClosed : bool) (ks : list Point) i :
  (3 <= List.length ks)%nat ->
  (i < if isClosed then List.length ks else List.length ks - 1)%nat ->
  nth_error (buildSegments cfg isClosed ks) i = Some (segmentAt cfg isClosed ks i).
Proof.
  intros H L. unfold buildSegments.
  apply Nat.ltb_ge in H as H'. rewrite H'.
  rewrite nth_error_map, nth_error_seq.
  apply Nat.ltb_lt in L as L'. rewrite L'. reflexivity.
Qed.

Local Open Scope float_scope.







Lemma clamp01_inside (t : number) :
  (t <? 0) = false -> (1 <? t) = false -> clamp01 t = t.
Proof. unfold clamp01. intros -> ->. reflexivity. Qed.


(** **** Finite control points from moderate knots *)







(** **** Ends that are met have finite control points *)







(** *** Arc length and inversion *)






End SplineFacts.

(** ** app.component.ts *)

Section AppFacts.

Import Marker App Terms.

Implicit Type a : AppComponent.
Implicit Type s : Spline.Spline.
Implicit Type g : PIXI.Graphics.

(** *** Reading and writing fields *)

Lemma with_spline_same a : with_spline (_spline a) a = a.
Proof. destruct a; reflexivity. Qed.

Lemma with_splineGraphics_same a g :
  _splineGraphics a = Some g -> with_splineGraphics (Some g) a = a.
Proof. destruct a; cbn; intros ->; reflexivity. Qed.

(** *** What a method leaves as it is *)

Lemma keeps_ret {A} P (v : A) : keeps P (ret v).
Proof. intros a H; exact H. Qed.

Lemma keeps_throw {A} P e : keeps P (@throw _ A e).
Proof. intros a H; exact H. Qed.

Lemma keeps_get P : keeps P get.
Proof. intros a H; exact H. Qed.

Lemma keeps_deref {A} P (r : option A) : keeps P (deref r).
Proof. destruct r; intros st H; exact H. Qed.

Lemma keeps_bind {A B} P (m : M AppComponent A) (k : A -> M AppComponent B) :
  keeps P m -> (forall v, keeps P (k v)) -> keeps P (bind m k).
Proof.
  intros Hm Hk a H. unfold bind.
  specialize (Hm a H). destruct (m a) as [[v|e] a1]; cbn in *.
  - apply Hk. exact Hm.
  - exact Hm.
Qed.

Lemma keeps_modify P (f : AppComponent -> AppComponent) :
  (forall a, P a -> P (f a)) -> keeps P (modify f).
Proof. intros Hf a H. apply Hf. exact H. Qed.

Lemma keeps_forEach {A} P (xs : list A) (body : A -> M AppComponent unit) :
  (forall v, keeps P (body v)) -> keeps P (forEach xs body).
Proof.
  intros Hb. induction xs as [|v xs IH]; cbn [forEach].
  - apply keeps_ret.
  - apply keeps_bind; [apply Hb | intros _; exact IH].
Qed.

Lemma keeps_readMarker {A} P (m : M (Marker MarkerSubscriber) A) marker :
  keeps P (readMarker m marker).
Proof. intros a H; exact H. Qed.

Lemma keeps_onSpline {A} P (m : M Spline.Spline A) :
  (forall a, P a -> P (with_spline (snd (m (_spline a))) a)) ->
  keeps P (onSpline m).
Proof.
  intros Hs a H. unfold onSpline.
  specialize (Hs a H).
  destruct (m (_spline a)) as [r s']. exact Hs.
Qed.

(** *** The first loop of [__drawSpline] *)

Lemma addPoints_knots pts s :
  Spline.knots (addPoints pts s) = Spline.knots s ++ pts.
Proof.
  unfold addPoints. revert s. induction pts as [|p pts IH]; intros s; cbn.
  - rewrite app_nil_r. reflexivity.
  - rewrite IH. cbn. rewrite <- app_assoc. destruct p; reflexivity.
Qed.

Lemma addPoints_closed pts s :
  Spline.closed (addPoints pts s) = Spline.closed s.
Proof.
  unfold addPoints. revert s. induction pts as [|p pts IH]; intros s; cbn.
  - reflexivity.
  - rewrite IH. reflexivity.
Qed.

Lemma live_reads (marker : Marker MarkerSubscriber) :
  live marker ->
  fst (Marker.x marker) = Returned (Spline.x (markerPoint marker)) /\
  fst (Marker.y marker) = Returned (Spline.y (markerPoint marker)).
Proof.
  unfold live, Marker.x, Marker.y, markerPoint, bind, get, deref.
  destruct (_markerShape marker) as [g|]; [|intros H; destruct H; reflexivity].
  intros _. split; reflexivity.
Qed.

Lemma provideCoordinates_live a :
  Forall live (_markers a) ->
  provideCoordinates a =
    (Returned tt,
     with_spline (addPoints (markerPoints (_markers a)) (_spline a)) a).
Proof.
  unfold provideCoordinates, bind at 1, get.
  generalize (_markers a) as ms. intros ms. revert a.
  induction ms as [|marker ms IH]; intros a L.
  - cbn. rewrite with_spline_same. reflexivity.
  - apply Forall_cons_iff in L as [Lm L].
    destruct (live_reads marker Lm) as [Ex Ey].
    cbn [forEach]. unfold bind at 1. unfold bind at 1.
    unfold readMarker at 1. rewrite Ex. unfold bind at 1.
    unfold readMarker at 1. rewrite Ey.
    unfold onSpline at 1.
    cbn [Spline.addControlPoint modify].
    rewrite (IH _ L). reflexivity.
Qed.

(** *** The second loop of [__drawSpline] *)

Lemma strokeAll_path bs g :
  PIXI.path (strokeAll bs g) = PIXI.path g ++ flat_map strokes bs.
Proof.
  unfold strokeAll. revert g. induction bs as [|b bs IH]; intros g; cbn.
  - rewrite app_nil_r. reflexivity.
  - rewrite IH. cbn. rewrite <- !app_assoc. reflexivity.
Qed.

Lemma strokeAll_lineStyle bs g :
  PIXI.lineStyle (strokeAll bs g) = PIXI.lineStyle g.
Proof.
  unfold strokeAll. revert g. induction bs as [|b bs IH]; intros g; cbn.
  - reflexivity.
  - rewrite IH. reflexivity.
Qed.

(** A query recomputes first: [drawSegment] does the same on a spline that
    already did. *)
Lemma drawSegment_ensure (i : Z) a :
  drawSegment i a =
  drawSegment i (with_spline (Spline.ensure (_spline a)) a).
Proof.
  unfold drawSegment, bind, onSpline, Spline.getCubicSegment. cbn.
  rewrite ensure_idempotent. reflexivity.
Qed.

Lemma forEach_drawSegment_ensure (l : list Z) a :
  l <> [] ->
  forEach l drawSegment a =
  forEach l drawSegment (with_spline (Spline.ensure (_spline a)) a).
Proof.
  destruct l as [|i l]; [intros H; destruct H; reflexivity|]. intros _.
  cbn [forEach]. unfold bind. rewrite (drawSegment_ensure i a). reflexivity.
Qed.

Lemma drawSegment_at a g b (i : nat) :
  _splineGraphics a = Some g ->
  Spline.invalidated (_spline a) = false ->
  nth_error (Spline.segments (_spline a)) i = Some b ->
  drawSegment (Z.of_nat i) a =
    (Returned tt, with_splineGraphics (Some (strokeAll [b] g)) a).
Proof.
  intros G V N.
  assert (L : (i < List.length (Spline.segments (_spline a)))%nat)
    by (apply nth_error_Some; rewrite N; discriminate).
  unfold drawSegment, bind at 1, onSpline, Spline.getCubicSegment.
  rewrite (ensure_fresh _ V).
  replace ((0 <=? Z.of_nat i)%Z &&
           (Z.of_nat i <? Z.of_nat (List.length (Spline.segments (_spline a))))%Z)
    with true
    by (symmetry; apply andb_true_iff; split;
        [apply Z.leb_le | apply Z.ltb_lt]; lia).
  rewrite Nat2Z.id, N, with_spline_same.
  unfold bind, deref, ret, get, modify. rewrite G. reflexivity.
Qed.

Lemma skipn_nth_error {A} (l : list A) (k : nat) (v : A) :
  nth_error l k = Some v -> skipn k l = v :: skipn (Datatypes.S k) l.
Proof.
  revert k. induction l as [|h l IH]; intros [|k] H; try discriminate.
  - injection H as ->. reflexivity.
  - cbn in H. cbn [skipn]. rewrite (IH k H). reflexivity.
Qed.

Lemma drawLoop_valid (m : nat) :
  forall (k : nat) a g,
  _splineGraphics a = Some g ->
  Spline.invalidated (_spline a) = false ->
  (k + m <= List.length (Spline.segments (_spline a)))%nat ->
  forEach (map Z.of_nat (seq k m)) drawSegment a =
    (Returned tt,
     with_splineGraphics
       (Some (strokeAll (firstn m (skipn k (Spline.segments (_spline a)))) g)) a).
Proof.
  induction m as [|m IH]; intros k a g G V L.
  - cbn. rewrite (with_splineGraphics_same a g G). reflexivity.
  - destruct (nth_error (Spline.segments (_spline a)) k) as [b|] eqn:N;
      [|apply nth_error_None in N; lia].
    cbn [seq map forEach]. unfold bind.
    rewrite (drawSegment_at a g b k G V N).
    rewrite (IH (Datatypes.S k) _ (strokeAll [b] g));
      [|reflexivity | exact V | cbn; lia].
    cbn [_spline with_splineGraphics].
    rewrite (skipn_nth_error _ _ _ N). reflexivity.
Qed.

Lemma drawSegments_valid a g (m : nat) :
  _splineGraphics a = Some g ->
  (_numKnots a - 1)%Z = Z.of_nat m ->
  (1 <= m <= List.length (Spline.segments (Spline.ensure (_spline a))))%nat ->
  drawSegments a =
    (Returned tt,
     with_splineGraphics
       (Some (strokeAll (firstn m (Spline.segments (Spline.ensure (_spline a))))
                (PIXI.setLineStyle 2 BEZIER_LINE_COLOR 1 (PIXI.clear g))))
       (with_spline (Spline.ensure (_spline a)) a)).
Proof.
  intros G N L.
  unfold drawSegments, bind at 1, get, bind at 1, deref. rewrite G.
  unfold ret, bind at 1, modify. rewrite N.
  unfold upTo. rewrite Nat2Z.id.
  rewrite forEach_drawSegment_ensure
    by (destruct m; [lia | discriminate]).
  rewrite (drawLoop_valid m 0 _
             (PIXI.setLineStyle 2 BEZIER_LINE_COLOR 1 (PIXI.clear g)));
    [reflexivity | reflexivity | apply ensure_valid | cbn; lia].
Qed.

(** *** [__drawSpline] on a spline without knots *)

Lemma addPoints_stays_invalidated pts s :
  Spline.invalidated s = true -> Spline.invalidated (addPoints pts s) = true.
Proof.
  unfold addPoints. revert s. induction pts as [|p pts IH]; intros s H; cbn.
  - exact H.
  - apply IH. reflexivity.
Qed.

Lemma addPoints_invalidated pts s :
  pts <> [] -> Spline.invalidated (addPoints pts s) = true.
Proof.
  destruct pts as [|p pts]; [intros H; destruct H; reflexivity|]. intros _.
  apply (addPoints_stays_invalidated pts). reflexivity.
Qed.

Lemma ensure_rebuilds s :
  Spline.invalidated s = true ->
  Spline.segments (Spline.ensure s) =
  Spline.buildSegments (Spline.config s) (Spline.closed s) (Spline.knots s).
Proof. unfold Spline.ensure. intros ->. reflexivity. Qed.

Lemma markerPoints_length {S} (ms : list (Marker S)) :
  List.length (markerPoints ms) = List.length ms.
Proof. apply length_map. Qed.

Lemma segmentAt_start cfg isClosed ks i :
  Spline.x0 (Spline.segmentAt cfg isClosed ks i) = Spline.x (Spline.knotAt ks i) /\
  Spline.y0 (Spline.segmentAt cfg isClosed ks i) = Spline.y (Spline.knotAt ks i).
Proof. split; reflexivity. Qed.

Lemma segmentAt_end cfg isClosed ks i :
  Spline.x1 (Spline.segmentAt cfg isClosed ks i) =
    Spline.x (Spline.knotAt ks ((i + 1) mod List.length ks)) /\
  Spline.y1 (Spline.segmentAt cfg isClosed ks i) =
    Spline.y (Spline.knotAt ks ((i + 1) mod List.length ks)).
Proof. split; reflexivity. Qed.

(** What [__drawSpline] does to a component whose spline is open and has
    no knots, whose markers all have a shape and are counted by
    [_numKnots], at least 3. *)
Lemma drawSpline_fresh a g :
  Forall live (_markers a) ->
  _numKnots a = Z.of_nat (List.length (_markers a)) ->
  (3 <= _numKnots a)%Z ->
  _splineGraphics a = Some g ->
  Spline.knots (_spline a) = [] ->
  Spline.closed (_spline a) = false ->
  let pts := markerPoints (_markers a) in
  let segs := Spline.buildSegments (Spline.config (_spline a)) false pts in
  List.length segs = (List.length pts - 1)%nat /\
  __drawSpline a =
    (Returned tt,
     with_splineGraphics
       (Some (strokeAll segs
                (PIXI.setLineStyle 2 BEZIER_LINE_COLOR 1 (PIXI.clear g))))
       (with_spline (Spline.ensure (addPoints pts (_spline a))) a)) /\
  Spline.segments (Spline.ensure (addPoints pts (_spline a))) = segs /\
  Spline.knots (Spline.ensure (addPoints pts (_spline a))) = pts.
Proof.
  intros L N H3 G K C pts segs.
  assert (Lp : List.length pts = List.length (_markers a))
    by apply markerPoints_length.
  assert (Ne : pts <> []) by (intros E; rewrite E in Lp; cbn in Lp; lia).
  assert (Ek : Spline.knots (addPoints pts (_spline a)) = pts)
    by (rewrite addPoints_knots, K; reflexivity).
  assert (Es : Spline.segments (Spline.ensure (addPoints pts (_spline a))) = segs).
  { rewrite ensure_rebuilds by (apply addPoints_invalidated; exact Ne).
    rewrite Ek, addPoints_closed, C. unfold segs. f_equal.
    unfold addPoints. clear. generalize (_spline a).
    induction pts as [|p l IH]; intros s; cbn; [reflexivity | rewrite IH; reflexivity]. }
  assert (Ls : List.length segs = (List.length pts - 1)%nat).
  { unfold segs. rewrite buildSegments_length by lia. reflexivity. }
  split; [exact Ls|]. split; [|split; [exact Es | rewrite ensure_knots; exact Ek]].
  unfold __drawSpline, bind. rewrite (provideCoordinates_live a L).
  fold pts.
  rewrite (drawSegments_valid _ g (List.length pts - 1)).
  - cbn [_spline with_spline]. rewrite Es.
    rewrite <- Ls, firstn_all. reflexivity.
  - exact G.
  - cbn [_numKnots with_spline]. lia.
  - cbn [_spline with_spline]. rewrite Es, Ls. lia.
Qed.

Lemma drawSpline_fresh_renders a g :
  Forall live (_markers a) ->
  _numKnots a = Z.of_nat (List.length (_markers a)) ->
  (3 <= _numKnots a)%Z ->
  _splineGraphics a = Some g ->
  Spline.knots (_spline a) = [] ->
  Spline.closed (_spline a) = false ->
  rendersEachSegment a (__drawSpline a).
Proof.
  intros L N H3 G K C.
  destruct (drawSpline_fresh a g L N H3 G K C) as (Ls & E & Es & Ek).
  unfold rendersEachSegment. rewrite E.
  cbn [fst snd _spline with_splineGraphics with_spline].
  rewrite Es, Ek.
  assert (Lp : List.length (markerPoints (_markers a)) = List.length (_markers a))
    by apply markerPoints_length.
  split; [reflexivity|]. split; [reflexivity|]. split; [lia|].
  split; [exact Ls|]. split.
  - unfold drawn. cbn [_splineGraphics with_splineGraphics].
    rewrite strokeAll_path. reflexivity.
  - intros i Hi.
    exists (Spline.segmentAt (Spline.config (_spline a)) false
              (markerPoints (_markers a)) i).
    split; [apply buildSegments_some; lia|].
    destruct (segmentAt_start (Spline.config (_spline a)) false
                (markerPoints (_markers a)) i) as [-> ->].
    destruct (segmentAt_end (Spline.config (_spline a)) false
                (markerPoints (_markers a)) i) as [-> ->].
    rewrite Nat.mod_small by lia. auto.
Qed.

(** What holds of the drawing loop.  A spline of [n >= 3] knots has [n - 1]
    segments when open and [n] when closed, also right after the closed flag
    is set.  On a component with [n >= 3] markers, counted by [_numKnots],
    and an open spline, the drawing loop shows each segment once:
    [__drawSpline], entered with a spline that holds no knot yet, returns;
    the spline then has the [n] marker positions as knots and [n - 1]
    segments, segment [i] running from knot [i] to knot [i + 1]; and what is
    drawn is exactly one [moveTo]/[bezierCurveTo] pair per segment, for
    segments [0] to [n - 2] in this order.  The same holds of every redraw
    by [__onMarkerMoved], whatever the spline held before. *)
Lemma drawSpline_renders_each_segment a g :
  Forall live (_markers a) ->
  _numKnots a = Z.of_nat (List.length (_markers a)) ->
  (3 <= _numKnots a)%Z ->
  _splineGraphics a = Some g ->
  Spline.closed (_spline a) = false ->
  (forall s (isClosed : bool),
     (3 <= List.length (Spline.knots s))%nat ->
     List.length (Spline.segments (Spline.recompute s)) =
       (if Spline.closed s then List.length (Spline.knots s)
        else List.length (Spline.knots s) - 1)%nat /\
     List.length (Spline.segments (snd (Spline.set_closed isClosed s))) =
       (if isClosed then List.length (Spline.knots s)
        else List.length (Spline.knots s) - 1)%nat) /\
  (Spline.knots (_spline a) = [] -> rendersEachSegment a (__drawSpline a)) /\
  (forall id x y, rendersEachSegment a (__onMarkerMoved id x y a)).
Proof.
  intros L N H3 G C. split; [|split].
  - intros s isClosed Hs. split.
    + cbn. apply buildSegments_length. exact Hs.
    + cbn. apply buildSegments_length. exact Hs.
  - intros K. apply (drawSpline_fresh_renders a g); assumption.
  - intros id x y.
    change (__onMarkerMoved id x y a)
      with (__drawSpline (snd (onSpline Spline.clear a))).
    apply (drawSpline_fresh_renders (snd (onSpline Spline.clear a)) g);
      try assumption; reflexivity.
Qed.

(** *** [onDraw] *)

Lemma onDraw_too_few a :
  (_numKnots a < 3)%Z ->
  onDraw a =
    (Returned tt, with_statusTxt "You must define at least three knots" a).
Proof.
  intros H. apply Z.ltb_lt in H.
  unfold onDraw, bind, get. rewrite H. reflexivity.
Qed.

(** C2: with fewer than 3 knots [onDraw] computes and draws nothing: it
    returns, and the component is as before but for the status text, which
    tells the caller that at least three knots are needed. *)
Theorem onDraw_rejects_fewer_than_3 a :
  (_numKnots a < 3)%Z ->
  onDraw a =
    (Returned tt, with_statusTxt "You must define at least three knots" a) /\
  _spline (snd (onDraw a)) = _spline a /\
  _splineGraphics (snd (onDraw a)) = _splineGraphics a /\
  _markers (snd (onDraw a)) = _markers a /\
  _stage (snd (onDraw a)) = _stage a /\
  statusTxt (snd (onDraw a)) = "You must define at least three knots"%string.
Proof.
  intros H. rewrite (onDraw_too_few a H). repeat split.
Qed.

(** *** [ready] is an invariant *)

Lemma ready_with_spline a s : ready a -> ready (with_spline s a).
Proof. intros H; exact H. Qed.

Lemma ready_with_statusTxt a v : ready a -> ready (with_statusTxt v a).
Proof. intros H; exact H. Qed.

Lemma ready_with_splineGraphics a g :
  ready a -> ready (with_splineGraphics (Some g) a).
Proof.
  intros (St & K & G & N & B & L).
  split; [exact St|]. split; [exact K|]. split; [exists g; reflexivity|].
  split; [exact N|]. split; [exact B | exact L].
Qed.

Lemma ready_with_stage a st : ready a -> ready (with_stage (Some st) a).
Proof.
  intros (St & K & G & N & B & L).
  split; [exists st; reflexivity|]. split; [exact K|]. split; [exact G|].
  split; [exact N|]. split; [exact B | exact L].
Qed.

Lemma ready_with_markers a ms :
  ready a -> List.length ms = List.length (_markers a) -> Forall live ms ->
  ready (with_markers ms a).
Proof.
  intros (St & K & G & N & B & L) E F.
  split; [exact St|]. split; [exact K|]. split; [exact G|].
  split; [cbn; rewrite E; exact N|]. split; [exact B | exact F].
Qed.

Lemma keeps_bind_get {B} P (k : AppComponent -> M AppComponent B) :
  (forall a, P a -> P (snd (k a a))) -> keeps P (bind get k).
Proof. intros H a Pa. unfold bind, get. apply H. exact Pa. Qed.

Lemma getCubicSegment_state (i : Z) s :
  snd (Spline.getCubicSegment i s) = Spline.ensure s.
Proof.
  unfold Spline.getCubicSegment.
  match goal with |- context [if ?c then _ else _] => destruct c end;
    reflexivity.
Qed.

(** What a property must survive to be kept by [__drawSpline]: a knot
    added to the spline, a recomputation of the spline, and a change of
    what is drawn. *)
Lemma keeps_drawSegment P (i : Z) :
  (forall a, P a -> P (with_spline (Spline.ensure (_spline a)) a)) ->
  (forall a g, P a -> P (with_splineGraphics (Some g) a)) ->
  keeps P (drawSegment i).
Proof.
  intros Hs Hg. unfold drawSegment.
  apply keeps_bind.
  { apply keeps_onSpline. intros a Pa. rewrite getCubicSegment_state. auto. }
  intros bezier.
  apply keeps_bind; [apply keeps_deref|]. intros b.
  apply keeps_bind; [apply keeps_get|]. intros a0.
  apply keeps_bind; [apply keeps_deref|]. intros g.
  apply keeps_modify. auto.
Qed.

Lemma keeps_drawSegments P :
  (forall a, P a -> P (with_spline (Spline.ensure (_spline a)) a)) ->
  (forall a g, P a -> P (with_splineGraphics (Some g) a)) ->
  keeps P drawSegments.
Proof.
  intros Hs Hg. unfold drawSegments.
  apply keeps_bind; [apply keeps_get|]. intros a0.
  apply keeps_bind; [apply keeps_deref|]. intros g.
  apply keeps_bind; [apply keeps_modify; auto|]. intros _.
  apply keeps_forEach. intros i. apply keeps_drawSegment; assumption.
Qed.

Lemma keeps_provideCoordinates P :
  (forall a px py, P a ->
     P (with_spline (snd (Spline.addControlPoint px py (_spline a))) a)) ->
  keeps P provideCoordinates.
Proof.
  intros Hs. unfold provideCoordinates.
  apply keeps_bind; [apply keeps_get|]. intros a0.
  apply keeps_forEach. intros marker.
  apply keeps_bind; [apply keeps_readMarker|]. intros mx.
  apply keeps_bind; [apply keeps_readMarker|]. intros my.
  apply keeps_onSpline. auto.
Qed.

Lemma keeps_drawSpline P :
  (forall a s, P a -> P (with_spline s a)) ->
  (forall a g, P a -> P (with_splineGraphics (Some g) a)) ->
  keeps P __drawSpline.
Proof.
  intros Hs Hg. unfold __drawSpline.
  apply keeps_bind; [apply keeps_provideCoordinates; auto|]. intros _.
  apply keeps_drawSegments; auto.
Qed.

Lemma keeps_onMarkerMoved P id x y :
  (forall a s, P a -> P (with_spline s a)) ->
  (forall a g, P a -> P (with_splineGraphics (Some g) a)) ->
  keeps P (__onMarkerMoved id x y).
Proof.
  intros Hs Hg. unfold __onMarkerMoved.
  apply keeps_bind; [apply keeps_onSpline; auto|]. intros _.
  apply keeps_drawSpline; assumption.
Qed.

(** *** [__onStageClicked] *)

Lemma placed_live evt : live (placed evt).
Proof. unfold live, placed. cbn. discriminate. Qed.

Lemma click_below_ceiling a k evt :
  _markerContainer a = Some k ->
  (_numKnots a < MAX_KNOTS)%Z ->
  __onStageClicked evt a =
    (Returned tt,
     with_statusTxt ("Total knot count " ++ showZ (_numKnots a + 1))
       (with_numKnots (_numKnots a + 1)
          (with_markerContainer
             (Some (PIXI.addChild (MarkerShape (List.length (_markers a))) k))
             (with_markers (_markers a ++ [placed evt]) a)))).
Proof.
  intros K H. apply Z.ltb_lt in H.
  unfold __onStageClicked, bind at 1, get. rewrite H.
  unfold bind, modify, deref, ret. cbn. rewrite K. reflexivity.
Qed.

Lemma click_at_ceiling a evt :
  (MAX_KNOTS <= _numKnots a)%Z ->
  __onStageClicked evt a =
    (Returned tt,
     with_statusTxt "Knot limit exceeded.  Clear Canvas and try a new knot set."
       a).
Proof.
  intros H. apply Z.ltb_ge in H.
  unfold __onStageClicked, bind at 1, get. rewrite H. reflexivity.
Qed.

Lemma keeps_ready_click evt : keeps ready (__onStageClicked evt).
Proof.
  intros a R. pose proof R as (St & [k K] & G & N & B & L).
  destruct (Z.lt_ge_cases (_numKnots a) MAX_KNOTS) as [H|H].
  - rewrite (click_below_ceiling a k evt K H). cbn [snd].
    split; [exact St|]. split; [eexists; reflexivity|]. split; [exact G|].
    split; [cbn; rewrite length_app; cbn; lia|].
    split; [cbn; lia|].
    cbn. apply Forall_app. split; [exact L|].
    constructor; [apply placed_live | constructor].
  - rewrite (click_at_ceiling a evt H). exact R.
Qed.

(** *** The other handlers *)

Lemma setNth_length {A} (i : nat) (v : A) (l : list A) :
  List.length (setNth i v l) = List.length l.
Proof.
  revert i. induction l as [|h l IH]; intros [|i]; cbn; try reflexivity.
  rewrite IH. reflexivity.
Qed.

Lemma setNth_Forall {A} (P : A -> Prop) (i : nat) (v : A) (l : list A) :
  Forall P l -> P v -> Forall P (setNth i v l).
Proof.
  intros F Pv. revert i. induction F as [|h l Ph F IH]; intros [|i]; cbn;
    constructor; auto.
Qed.

Lemma live_addSubscriber (sub : option MarkerSubscriber)
    (m : Marker MarkerSubscriber) :
  live m -> live (snd (Marker.addSubscriber sub m)).
Proof. unfold live, Marker.addSubscriber. destruct sub; cbn; auto. Qed.

Lemma live_startDrag evt (m : Marker MarkerSubscriber) :
  live m -> live (snd (Marker.onOwnShape (Marker.__startDrag evt) m)).
Proof.
  unfold live. rewrite startDrag_own.
  destruct (_markerShape m) eqn:E; cbn; [discriminate | rewrite E; auto].
Qed.

Lemma live_endDrag evt (m : Marker MarkerSubscriber) :
  live m -> live (snd (Marker.onOwnShape (Marker.__endDrag evt) m)).
Proof.
  unfold live. rewrite endDrag_own.
  destruct (_markerShape m) eqn:E; cbn; [discriminate | rewrite E; auto].
Qed.

Lemma live_dragging evt (m : Marker MarkerSubscriber) :
  live m -> live (snd (Marker.onOwnShape (Marker.__dragging evt) m)).
Proof.
  unfold live. rewrite dragging_own.
  destruct (_markerShape m) as [g|] eqn:E; [|cbn; rewrite E; auto].
  destruct (PIXI.dragging g); cbn; [discriminate | rewrite E; discriminate].
Qed.

Lemma keeps_ready_drawSpline : keeps ready __drawSpline.
Proof.
  apply keeps_drawSpline;
    auto using ready_with_spline, ready_with_splineGraphics.
Qed.

Lemma keeps_ready_onMarkerMoved id x y : keeps ready (__onMarkerMoved id x y).
Proof.
  apply keeps_onMarkerMoved;
    auto using ready_with_spline, ready_with_splineGraphics.
Qed.

Lemma onDraw_enough a st :
  (3 <= _numKnots a)%Z ->
  _stage a = Some st ->
  onDraw a =
    __drawSpline
      (with_statusTxt "'Clear' to reset for another spline."
         (with_markers
            (map (fun marker =>
                    snd (Marker.addSubscriber (Some MarkerMoved) marker))
                 (_markers a))
            (with_stage (Some (PIXI.removeAllListeners st)) a))).
Proof.
  intros H St. apply Z.ltb_ge in H.
  unfold onDraw, bind at 1, get. rewrite H, St. reflexivity.
Qed.

Lemma keeps_ready_onDraw : keeps ready onDraw.
Proof.
  intros a R. pose proof R as ([st St] & K & G & N & B & L).
  destruct (Z.lt_ge_cases (_numKnots a) 3) as [H|H].
  - rewrite (onDraw_too_few a H). exact R.
  - rewrite (onDraw_enough a st H St). apply keeps_ready_drawSpline.
    apply ready_with_statusTxt. apply ready_with_markers.
    + apply ready_with_stage. exact R.
    + apply length_map.
    + apply Forall_map. revert L. apply Forall_impl.
      intros m. apply live_addSubscriber.
Qed.

Lemma keeps_ready_onClear : keeps ready onClear.
Proof.
  intros a ([st St] & [k K] & [g G] & N & B & L).
  unfold onClear, bind, get, modify, onSpline. cbn.
  rewrite St, K, G. cbn.
  split; [eexists; reflexivity|]. split; [eexists; reflexivity|].
  split; [eexists; reflexivity|]. split; [reflexivity|].
  split; [|constructor].
  change (0 <= 0 <= 8)%Z. lia.
Qed.

Lemma keeps_ready_stageEvent event evt : keeps ready (stageEvent event evt).
Proof.
  unfold stageEvent. apply keeps_bind_get. intros a R.
  destruct (_stage a) as [st|]; [|exact R].
  apply keeps_forEach; [|exact R].
  intros []. apply keeps_ready_click.
Qed.

Lemma press_own (down : bool) evt (m : Marker MarkerSubscriber) :
  Marker.onOwnShape
    (if down then Marker.__startDrag evt else Marker.__endDrag evt) m =
  match _markerShape m with
  | Some g => (Returned tt, with_shape (Some (PIXI.set_dragging down g)) m)
  | None => (Thrown TypeError, m)
  end.
Proof.
  destruct down; [apply startDrag_own | apply endDrag_own].
Qed.

Lemma setNth_same {A} (l : list A) i v :
  nth_error l i = Some v -> setNth i v l = l.
Proof.
  revert i. induction l as [|h l IH]; intros [|i] E; cbn in *;
    try discriminate.
  - injection E as ->. reflexivity.
  - rewrite (IH i E). reflexivity.
Qed.

Lemma with_markers_same a : with_markers (_markers a) a = a.
Proof. destruct a; reflexivity. Qed.

Lemma live_or_not (m : Marker MarkerSubscriber) :
  live m \/ _markerShape m = None.
Proof.
  unfold live. destruct (_markerShape m); [left; discriminate | right; reflexivity].
Qed.

Lemma ready_live a i m :
  ready a -> nth_error (_markers a) i = Some m -> live m.
Proof.
  intros (_ & _ & _ & _ & _ & L) E.
  rewrite Forall_forall in L. apply L. eapply nth_error_In. exact E.
Qed.

(** A pointer event on a marker without a shape: the handler throws on the
    target, and nothing has changed. *)
Lemma markerPress_dead (down : bool) i evt a m :
  nth_error (_markers a) i = Some m -> _markerShape m = None ->
  markerPressEvent down i evt a = (Thrown TypeError, a).
Proof.
  intros E Sh. unfold markerPressEvent, bind at 1, get. rewrite E.
  rewrite press_own, Sh.
  unfold bind, modify, throw. cbn [snd fst].
  rewrite (setNth_same _ _ _ E), with_markers_same. reflexivity.
Qed.

Lemma markerMove_dead i evt a m :
  nth_error (_markers a) i = Some m -> _markerShape m = None ->
  markerMoveEvent i evt a = (Thrown TypeError, a).
Proof.
  intros E Sh. unfold markerMoveEvent, bind at 1, get. rewrite E.
  rewrite dragging_own, Sh.
  unfold bind, modify, throw. cbn [snd fst].
  rewrite (setNth_same _ _ _ E), with_markers_same. reflexivity.
Qed.

(** What a press or a release leaves of the component, however the handler
    ends. *)
Lemma markerPress_state (down : bool) i evt a m :
  nth_error (_markers a) i = Some m ->
  snd (markerPressEvent down i evt a) =
    with_markers
      (setNth i
         (snd (Marker.onOwnShape
                 (if down then Marker.__startDrag evt else Marker.__endDrag evt)
                 m))
         (_markers a)) a.
Proof.
  intros E. unfold markerPressEvent, bind at 1, get. rewrite E.
  destruct (Marker.onOwnShape _ m) as [[u|e] m']; reflexivity.
Qed.

Lemma markerPress_none (down : bool) i evt a :
  nth_error (_markers a) i = None ->
  markerPressEvent down i evt a = (Returned tt, a).
Proof.
  intros E. unfold markerPressEvent, bind, get. rewrite E. reflexivity.
Qed.

(** The outcome of a press or a release is that of the handler. *)
Lemma markerPress_outcome (down : bool) i evt a m :
  nth_error (_markers a) i = Some m ->
  fst (markerPressEvent down i evt a) =
    match fst (Marker.onOwnShape
                 (if down then Marker.__startDrag evt else Marker.__endDrag evt)
                 m) with
    | Returned _ => Returned tt
    | Thrown e => Thrown e
    end.
Proof.
  intros E. unfold markerPressEvent, bind at 1, get. rewrite E.
  destruct (Marker.onOwnShape _ m) as [[u|e] m']; reflexivity.
Qed.

Lemma keeps_ready_markerPress down i evt :
  keeps ready (markerPressEvent down i evt).
Proof.
  intros a R.
  destruct (nth_error (_markers a) i) as [m|] eqn:E;
    [|rewrite (markerPress_none down i evt a E); exact R].
  rewrite (markerPress_state down i evt a m E).
  pose proof R as (_ & _ & _ & _ & _ & L).
  assert (Lm : live m).
  { rewrite Forall_forall in L. apply L. eapply nth_error_In. exact E. }
  apply ready_with_markers; [exact R | apply setNth_length |].
  apply setNth_Forall; [exact L|].
  destruct down; [apply live_startDrag | apply live_endDrag]; exact Lm.
Qed.

Lemma keeps_ready_callSubscriber n : keeps ready (callSubscriber n).
Proof.
  unfold callSubscriber. destruct (to n). apply keeps_ready_onMarkerMoved.
Qed.

Lemma dragging_returns evt (m : Marker MarkerSubscriber) :
  live m ->
  exists calls,
    fst (Marker.onOwnShape (Marker.__dragging evt) m) = Returned calls.
Proof.
  unfold live. rewrite dragging_own.
  destruct (_markerShape m) as [g|]; [intros _ | intros H; destruct H; reflexivity].
  destruct (PIXI.dragging g); eexists; reflexivity.
Qed.

Lemma markerMoveEvent_some a i evt m :
  nth_error (_markers a) i = Some m ->
  live m ->
  exists calls,
    fst (Marker.onOwnShape (Marker.__dragging evt) m) = Returned calls /\
    markerMoveEvent i evt a =
      forEach calls callSubscriber
        (with_markers (setNth i (snd (Marker.onOwnShape (Marker.__dragging evt) m)) (_markers a)) a).
Proof.
  intros E Lm. destruct (dragging_returns evt m Lm) as [calls C].
  exists calls. split; [exact C|].
  unfold markerMoveEvent, bind at 1, get. rewrite E.
  destruct (Marker.onOwnShape (Marker.__dragging evt) m) as [r m']. cbn in C. subst r.
  reflexivity.
Qed.

Lemma keeps_ready_markerMove i evt : keeps ready (markerMoveEvent i evt).
Proof.
  intros a R.
  destruct (nth_error (_markers a) i) as [m|] eqn:E.
  - pose proof (ready_live a i m R E) as Lm.
    destruct (markerMoveEvent_some a i evt m E Lm) as (calls & _ & ->).
    pose proof R as (_ & _ & _ & _ & _ & L).
    apply keeps_forEach; [intros n; apply keeps_ready_callSubscriber|].
    apply ready_with_markers; [exact R | apply setNth_length |].
    apply setNth_Forall; [exact L|]. apply live_dragging. exact Lm.
  - unfold markerMoveEvent, bind, get. rewrite E. exact R.
Qed.

Lemma keeps_ready_handle e : keeps ready (handle e).
Proof.
  destruct e; cbn [handle];
    auto using keeps_ready_stageEvent, keeps_ready_onDraw, keeps_ready_onClear,
               keeps_ready_markerPress, keeps_ready_markerMove.
Qed.

Lemma boot_ready canvas : ready (boot (Some canvas)).
Proof.
  unfold boot, constructor, ngOnInit, onClear, __setup, initialised,
    bind, get, modify, onSpline, deref, ret.
  cbn.
  split; [eexists; reflexivity|]. split; [eexists; reflexivity|].
  split; [eexists; reflexivity|]. split; [reflexivity|].
  split; [|constructor].
  change (0 <= 0 <= 8)%Z. lia.
Qed.

Lemma run_ready events a : ready a -> ready (run events a).
Proof.
  unfold run. revert a. induction events as [|e events IH]; intros a R; cbn.
  - exact R.
  - apply IH. apply keeps_ready_handle. exact R.
Qed.

(** C9: in a running component (constructed, initialised on its canvas, then
    driven by any sequence of stage events, button presses and pointer events
    on markers) [_numKnots] counts the markers and never exceeds [MAX_KNOTS],
    which is 8.  There a stage click below the ceiling appends exactly one
    marker, with its shape, and adds one to the count; a click at the ceiling
    leaves markers and count as they are. *)
Theorem knot_count_never_exceeds_ceiling canvas events evt :
  let a := run events (boot (Some canvas)) in
  MAX_KNOTS = 8%Z /\
  (0 <= _numKnots a <= MAX_KNOTS)%Z /\
  _numKnots a = Z.of_nat (List.length (_markers a)) /\
  ((_numKnots a < MAX_KNOTS)%Z ->
     fst (__onStageClicked evt a) = Returned tt /\
     _markers (snd (__onStageClicked evt a)) = _markers a ++ [placed evt] /\
     live (placed evt) /\
     _numKnots (snd (__onStageClicked evt a)) = (_numKnots a + 1)%Z) /\
  ((MAX_KNOTS <= _numKnots a)%Z ->
     fst (__onStageClicked evt a) = Returned tt /\
     _markers (snd (__onStageClicked evt a)) = _markers a /\
     _numKnots (snd (__onStageClicked evt a)) = _numKnots a).
Proof.
  intros a.
  assert (R : ready a) by (apply run_ready, boot_ready).
  pose proof R as (St & [k K] & G & N & B & L).
  split; [reflexivity|]. split; [exact B|]. split; [exact N|]. split.
  - intros H. rewrite (click_below_ceiling a k evt K H). cbn.
    repeat split. apply placed_live.
  - intros H. rewrite (click_at_ceiling a evt H). cbn. repeat split.
Qed.

(** *** [__onMarkerMoved] *)

(** The component with its spline cleared: where [__onMarkerMoved] starts
    [__drawSpline]. *)
Lemma onMarkerMoved_clears_first a id x y :
  __onMarkerMoved id x y a = __drawSpline (snd (onSpline Spline.clear a)) /\
  Spline.knots (_spline (snd (onSpline Spline.clear a))) = [] /\
  _markers (snd (onSpline Spline.clear a)) = _markers a.
Proof. repeat split. Qed.

Lemma onMarkerMoved_rebuilds a id x y :
  Forall live (_markers a) ->
  Spline.knots (_spline (snd (__onMarkerMoved id x y a))) =
    markerPoints (_markers a) /\
  _markers (snd (__onMarkerMoved id x y a)) = _markers a.
Proof.
  intros L.
  destruct (onMarkerMoved_clears_first a id x y) as (-> & K & Ms).
  set (a1 := snd (onSpline Spline.clear a)) in *.
  rewrite <- Ms in L |- *.
  unfold __drawSpline, bind. rewrite (provideCoordinates_live a1 L).
  apply (keeps_drawSegments
           (fun a' => Spline.knots (_spline a') = markerPoints (_markers a1) /\
                      _markers a' = _markers a1)).
  - intros a' [H1 H2]. split; [|exact H2].
    cbn [_spline with_spline]. rewrite ensure_knots. exact H1.
  - intros a' g H. exact H.
  - split; [|reflexivity].
    cbn [_spline with_spline]. rewrite addPoints_knots, K. reflexivity.
Qed.

Lemma callSubscriber_rebuilds n a :
  Forall live (_markers a) ->
  Spline.knots (_spline (snd (callSubscriber n a))) = markerPoints (_markers a) /\
  _markers (snd (callSubscriber n a)) = _markers a.
Proof.
  unfold callSubscriber. destruct (to n). apply onMarkerMoved_rebuilds.
Qed.

Lemma keeps_rebuilt_callSubscriber ms n :
  keeps (fun a' => Spline.knots (_spline a') = markerPoints ms /\
                   _markers a' = ms /\ Forall live ms)
        (callSubscriber n).
Proof.
  intros a (_ & Ms & L). subst ms.
  destruct (callSubscriber_rebuilds n a L) as [K M].
  rewrite M. auto.
Qed.

Lemma forEach_calls_rebuild calls a :
  calls <> [] ->
  Forall live (_markers a) ->
  Spline.knots (_spline (snd (forEach calls callSubscriber a))) =
    markerPoints (_markers a) /\
  _markers (snd (forEach calls callSubscriber a)) = _markers a.
Proof.
  destruct calls as [|n calls]; [intros H; destruct H; reflexivity|].
  intros _ L. cbn [forEach]. unfold bind.
  destruct (callSubscriber_rebuilds n a L) as [K M].
  destruct (callSubscriber n a) as [[v|e] a1]; cbn [snd] in *.
  - rewrite <- M.
    destruct (keeps_forEach
                (fun a' => Spline.knots (_spline a') = markerPoints (_markers a1) /\
                           _markers a' = _markers a1 /\
                           Forall live (_markers a1))
                calls callSubscriber
                (keeps_rebuilt_callSubscriber (_markers a1)) a1)
      as (K' & M' & _).
    + rewrite M. auto.
    + auto.
  - auto.
Qed.

Lemma dragging_moves evt (m : Marker MarkerSubscriber) g :
  _markerShape m = Some g ->
  PIXI.dragging g = true ->
  Marker.onOwnShape (Marker.__dragging evt) m =
    (Returned
       (map (fun sub => {| to := sub; marker_id := id m;
                           at_x := written (PIXI.x g) (PIXI.global_x evt);
                           at_y := written (PIXI.y g) (PIXI.global_y evt) |})
            (_subscribers m)),
     movedTo evt m).
Proof.
  intros E D. rewrite dragging_own. unfold movedTo. rewrite E, D. cbv zeta.
  rewrite x_set_y, written_x, written_y, y_set_x. reflexivity.
Qed.

Lemma movedTo_point evt (m : Marker MarkerSubscriber) g :
  _markerShape m = Some g ->
  markerPoint (movedTo evt m) =
    {| Spline.x := written (PIXI.x g) (PIXI.global_x evt);
       Spline.y := written (PIXI.y g) (PIXI.global_y evt) |}.
Proof.
  intros E. unfold markerPoint, movedTo. rewrite E.
  cbn [_markerShape with_shape].
  rewrite x_set_y, written_x, written_y, y_set_x. reflexivity.
Qed.

Lemma movedTo_live evt (m : Marker MarkerSubscriber) :
  live m -> live (movedTo evt m).
Proof.
  unfold live, movedTo.
  destruct (_markerShape m) eqn:E; cbn; [discriminate | rewrite E; auto].
Qed.

(** C8: a drag never edits a knot in place.  [__onMarkerMoved] clears the
    spline, then [__drawSpline] gives it every marker position again, one
    [addControlPoint] per marker in order; whatever the spline held before,
    its knots are then the current marker positions, and the markers are as
    they were.  So when a dragged marker that has a subscriber is moved, the
    marker takes the pointer position (a coordinate that is [===] to the
    pointer's already is kept) and the knots are the positions of the
    markers after the move. *)
Theorem marker_moved_replaces_all_knots a id x y :
  Forall live (_markers a) ->
  let cleared := snd (onSpline Spline.clear a) in
  (__onMarkerMoved id x y a = __drawSpline cleared /\
   Spline.knots (_spline cleared) = [] /\
   __drawSpline cleared =
     drawSegments
       (with_spline
          (addPoints (markerPoints (_markers a)) (_spline cleared)) cleared)) /\
  (Spline.knots (_spline (snd (__onMarkerMoved id x y a))) =
     markerPoints (_markers a) /\
   _markers (snd (__onMarkerMoved id x y a)) = _markers a) /\
  (forall i evt m g,
     nth_error (_markers a) i = Some m ->
     _markerShape m = Some g ->
     PIXI.dragging g = true ->
     _subscribers m <> [] ->
     let a' := snd (markerMoveEvent i evt a) in
     _markers a' = setNth i (movedTo evt m) (_markers a) /\
     markerPoint (movedTo evt m) =
       {| Spline.x := written (PIXI.x g) (PIXI.global_x evt);
          Spline.y := written (PIXI.y g) (PIXI.global_y evt) |} /\
     Spline.knots (_spline a') = markerPoints (_markers a')).
Proof.
  intros L cleared. split; [|split].
  - split; [reflexivity|]. split; [reflexivity|].
    unfold __drawSpline, bind.
    rewrite (provideCoordinates_live cleared L). reflexivity.
  - apply onMarkerMoved_rebuilds. exact L.
  - intros i evt m g E Sh D Subs a'.
    assert (Lm : live m) by (unfold live; rewrite Sh; discriminate).
    destruct (markerMoveEvent_some a i evt m E Lm) as (calls & C & Ev).
    rewrite (dragging_moves evt m g Sh D) in C, Ev. cbn [fst snd] in C, Ev.
    injection C as <-.
    assert (L' : Forall live (setNth i (movedTo evt m) (_markers a)))
      by (apply setNth_Forall; [exact L | apply movedTo_live; exact Lm]).
    destruct (forEach_calls_rebuild
                (map (fun sub =>
                        {| to := sub; marker_id := Marker.id m;
                           at_x := written (PIXI.x g) (PIXI.global_x evt);
                           at_y := written (PIXI.y g) (PIXI.global_y evt) |})
                     (_subscribers m))
                (with_markers (setNth i (movedTo evt m) (_markers a)) a))
      as [K M].
    + destruct (_subscribers m); [destruct Subs; reflexivity | discriminate].
    + exact L'.
    + unfold a'. rewrite Ev. cbn [_markers with_markers] in K, M.
      rewrite M, K. split; [reflexivity|].
      split; [apply movedTo_point; exact Sh | reflexivity].
Qed.

End AppFacts.

(** ** app.component.ts: the running component *)

Section Running.

Import Marker App Terms.

Implicit Type a : AppComponent.
Implicit Type s : Spline.Spline.
Implicit Type g : PIXI.Graphics.

(** *** Loops that return *)

Lemma forEach_returns {A} (P : AppComponent -> Prop) (xs : list A)
    (body : A -> M AppComponent unit) :
  (forall v, keeps P (body v)) ->
  (forall v a, P a -> fst (body v a) = Returned tt) ->
  forall a, P a -> fst (forEach xs body a) = Returned tt.
Proof.
  intros K R. induction xs as [|v xs IH]; intros a Pa; cbn [forEach].
  - reflexivity.
  - unfold bind. pose proof (K v a Pa) as Pa'. pose proof (R v a Pa) as Ra.
    destruct (body v a) as [[u|e] a1]; cbn [fst snd] in *.
    + apply IH. exact Pa'.
    + discriminate.
Qed.

Lemma drawSpline_result a g :
  Forall live (_markers a) ->
  _numKnots a = Z.of_nat (List.length (_markers a)) ->
  (3 <= _numKnots a)%Z ->
  _splineGraphics a = Some g ->
  let pts := markerPoints (_markers a) in
  let s' := Spline.ensure (addPoints pts (_spline a)) in
  __drawSpline a =
    (Returned tt,
     with_splineGraphics
       (Some (strokeAll (firstn (List.length pts - 1) (Spline.segments s'))
                (PIXI.setLineStyle 2 BEZIER_LINE_COLOR 1 (PIXI.clear g))))
       (with_spline s' a)) /\
  Spline.knots s' = Spline.knots (_spline a) ++ pts /\
  List.length (Spline.segments s') =
    (if Spline.closed (_spline a)
     then List.length (Spline.knots (_spline a)) + List.length pts
     else List.length (Spline.knots (_spline a)) + List.length pts - 1)%nat.
Proof.
  intros L N H3 G pts s'.
  assert (Lp : List.length pts = List.length (_markers a))
    by apply markerPoints_length.
  assert (Ne : pts <> []) by (intros E; rewrite E in Lp; cbn in Lp; lia).
  assert (Ls : List.length (Spline.segments s') =
               (if Spline.closed (_spline a)
                then List.length (Spline.knots (_spline a)) + List.length pts
                else List.length (Spline.knots (_spline a)) + List.length pts - 1)%nat).
  { unfold s'.
    rewrite ensure_rebuilds by (apply addPoints_invalidated; exact Ne).
    rewrite buildSegments_length
      by (rewrite addPoints_knots, length_app; lia).
    rewrite addPoints_knots, length_app, addPoints_closed. reflexivity. }
  split; [|split; [unfold s'; rewrite ensure_knots; apply addPoints_knots
                  | exact Ls]].
  unfold __drawSpline, bind. rewrite (provideCoordinates_live a L). fold pts.
  rewrite (drawSegments_valid _ g (List.length pts - 1)); [reflexivity | exact G | |].
  - cbn [_numKnots with_spline]. lia.
  - cbn [_spline with_spline]. fold s'. rewrite Ls.
    destruct (Spline.closed (_spline a)); lia.
Qed.

Lemma drawSpline_returns a g :
  Forall live (_markers a) ->
  _numKnots a = Z.of_nat (List.length (_markers a)) ->
  (3 <= _numKnots a)%Z ->
  _splineGraphics a = Some g ->
  fst (__drawSpline a) = Returned tt.
Proof.
  intros L N H3 G.
  destruct (drawSpline_result a g L N H3 G) as (-> & _). reflexivity.
Qed.

(** *** Handlers that return *)

Lemma click_returns evt a : ready a -> fst (__onStageClicked evt a) = Returned tt.
Proof.
  intros (_ & [k K] & _).
  destruct (Z.lt_ge_cases (_numKnots a) MAX_KNOTS) as [H|H].
  - rewrite (click_below_ceiling a k evt K H). reflexivity.
  - rewrite (click_at_ceiling a evt H). reflexivity.
Qed.

Lemma onClear_returns a : fst (onClear a) = Returned tt.
Proof. reflexivity. Qed.

Lemma stageEvent_returns event evt a :
  ready a -> fst (stageEvent event evt a) = Returned tt.
Proof.
  intros R. unfold stageEvent, bind, get.
  destruct (_stage a) as [st|]; [|reflexivity].
  apply (forEach_returns ready); [| |exact R].
  - intros []. apply keeps_ready_click.
  - intros [] a' R'. apply click_returns. exact R'.
Qed.

Lemma onDraw_returns a : ready a -> fst (onDraw a) = Returned tt.
Proof.
  intros R. pose proof R as ([st St] & K & [g G] & N & B & L).
  destruct (Z.lt_ge_cases (_numKnots a) 3) as [H|H].
  - rewrite (onDraw_too_few a H). reflexivity.
  - rewrite (onDraw_enough a st H St).
    apply (drawSpline_returns _ g).
    + cbn [_markers with_statusTxt with_markers].
      apply Forall_map. revert L. apply Forall_impl.
      intros m. apply live_addSubscriber.
    + cbn [_markers _numKnots with_statusTxt with_markers with_stage].
      rewrite length_map. exact N.
    + exact H.
    + exact G.
Qed.

Lemma markerPress_returns down i evt a :
  ready a -> fst (markerPressEvent down i evt a) = Returned tt.
Proof.
  intros R.
  destruct (nth_error (_markers a) i) as [m|] eqn:E;
    [|rewrite (markerPress_none down i evt a E); reflexivity].
  rewrite (markerPress_outcome down i evt a m E), press_own.
  pose proof (ready_live a i m R E) as Lm. unfold live in Lm.
  destruct (_markerShape m); [reflexivity | destruct Lm; reflexivity].
Qed.

Lemma onMarkerMoved_returns id x y a :
  ready a -> (3 <= _numKnots a)%Z ->
  fst (__onMarkerMoved id x y a) = Returned tt.
Proof.
  intros (_ & _ & [g G] & N & _ & L) H.
  change (__onMarkerMoved id x y a)
    with (__drawSpline (snd (onSpline Spline.clear a))).
  apply (drawSpline_returns _ g); assumption.
Qed.

Lemma keeps_enough_knots n : keeps (fun a => ready a /\ (3 <= _numKnots a)%Z)
                                   (callSubscriber n).
Proof.
  unfold callSubscriber. destruct (to n).
  apply keeps_onMarkerMoved.
  - intros a s [R H]. split; [apply ready_with_spline; exact R | exact H].
  - intros a g [R H]. split; [apply ready_with_splineGraphics; exact R | exact H].
Qed.

Lemma dragging_subscribers evt (m : Marker MarkerSubscriber) :
  _subscribers (snd (Marker.onOwnShape (Marker.__dragging evt) m)) = _subscribers m /\
  id (snd (Marker.onOwnShape (Marker.__dragging evt) m)) = id m /\
  (live m -> unsubscribed m ->
   fst (Marker.onOwnShape (Marker.__dragging evt) m) = Returned []).
Proof.
  rewrite dragging_own. unfold unsubscribed, live.
  destruct (_markerShape m) as [g|];
    [|repeat split; intros H; destruct H; reflexivity].
  destruct (PIXI.dragging g); cbn; [|repeat split].
  split; [reflexivity|]. split; [reflexivity|].
  intros _ ->. reflexivity.
Qed.

Lemma markerMove_returns i evt a :
  steady a -> fst (markerMoveEvent i evt a) = Returned tt.
Proof.
  intros [R Q].
  destruct (nth_error (_markers a) i) as [m|] eqn:E.
  - pose proof (ready_live a i m R E) as Lm.
    destruct (markerMoveEvent_some a i evt m E Lm) as (calls & C & ->).
    pose proof R as (_ & _ & _ & _ & _ & L).
    assert (R' : ready (with_markers
                          (setNth i
                             (snd (Marker.onOwnShape (Marker.__dragging evt) m))
                             (_markers a)) a)).
    { apply ready_with_markers; [exact R | apply setNth_length |].
      apply setNth_Forall; [exact L|]. apply live_dragging. exact Lm. }
    destruct Q as [H|U].
    + apply (forEach_returns (fun a => ready a /\ (3 <= _numKnots a)%Z)).
      * apply keeps_enough_knots.
      * intros n a' [Ra Ha]. unfold callSubscriber. destruct (to n).
        apply onMarkerMoved_returns; assumption.
      * split; [exact R' | exact H].
    + assert (Um : unsubscribed m).
      { rewrite Forall_forall in U. apply U. eapply nth_error_In. exact E. }
      destruct (dragging_subscribers evt m) as (_ & _ & Z0).
      rewrite (Z0 Lm Um) in C. injection C as <-. reflexivity.
  - unfold markerMoveEvent, bind, get. rewrite E. reflexivity.
Qed.

Lemma handle_returns e a : steady a -> fst (handle e a) = Returned tt.
Proof.
  intros St. pose proof St as [R _].
  destruct e; cbn [handle].
  - apply stageEvent_returns. exact R.
  - apply onDraw_returns. exact R.
  - apply onClear_returns.
  - apply markerPress_returns. exact R.
  - apply markerMove_returns. exact St.
  - apply markerPress_returns. exact R.
Qed.

(** *** [steady] is an invariant *)

Lemma placed_unsubscribed evt : unsubscribed (placed evt).
Proof. reflexivity. Qed.

Lemma steady_with_spline a s : steady a -> steady (with_spline s a).
Proof. intros H; exact H. Qed.

Lemma steady_with_splineGraphics a g :
  steady a -> steady (with_splineGraphics (Some g) a).
Proof.
  intros [R Q]. split; [apply ready_with_splineGraphics; exact R | exact Q].
Qed.

Lemma keeps_steady_click evt : keeps steady (__onStageClicked evt).
Proof.
  intros a [R Q]. split; [apply keeps_ready_click; exact R|].
  pose proof R as (_ & [k K] & _).
  destruct (Z.lt_ge_cases (_numKnots a) MAX_KNOTS) as [H|H].
  - rewrite (click_below_ceiling a k evt K H). cbn.
    destruct Q as [Q|Q]; [left; lia | right].
    apply Forall_app. split; [exact Q|].
    constructor; [apply placed_unsubscribed | constructor].
  - rewrite (click_at_ceiling a evt H). exact Q.
Qed.

Lemma keeps_steady_stageEvent event evt : keeps steady (stageEvent event evt).
Proof.
  unfold stageEvent. apply keeps_bind_get. intros a R.
  destruct (_stage a) as [st|]; [|exact R].
  apply keeps_forEach; [|exact R].
  intros []. apply keeps_steady_click.
Qed.

Lemma keeps_steady_drawSpline : keeps steady __drawSpline.
Proof.
  apply keeps_drawSpline;
    auto using steady_with_spline, steady_with_splineGraphics.
Qed.

Lemma keeps_steady_onDraw : keeps steady onDraw.
Proof.
  intros a [R Q]. split; [apply keeps_ready_onDraw; exact R|].
  pose proof R as ([st St] & _).
  destruct (Z.lt_ge_cases (_numKnots a) 3) as [H|H].
  - rewrite (onDraw_too_few a H). exact Q.
  - left. rewrite (onDraw_enough a st H St).
    apply (keeps_drawSpline (fun a' => (3 <= _numKnots a')%Z)); auto.
Qed.

Lemma keeps_steady_onClear : keeps steady onClear.
Proof.
  intros a [R _]. split; [apply keeps_ready_onClear; exact R|].
  right. constructor.
Qed.

Lemma keeps_steady_markerPress down i evt :
  keeps steady (markerPressEvent down i evt).
Proof.
  intros a [R Q]. split; [apply keeps_ready_markerPress; exact R|].
  destruct (nth_error (_markers a) i) as [m|] eqn:E;
    [|rewrite (markerPress_none down i evt a E); exact Q].
  rewrite (markerPress_state down i evt a m E).
  destruct Q as [Q|Q]; [left; exact Q | right].
  cbn [_markers with_markers]. apply setNth_Forall; [exact Q|].
  assert (Um : unsubscribed m).
  { rewrite Forall_forall in Q. apply Q. eapply nth_error_In. exact E. }
  unfold unsubscribed in *. rewrite press_own.
  destruct (_markerShape m); cbn; exact Um.
Qed.

Lemma keeps_steady_callSubscriber n : keeps steady (callSubscriber n).
Proof.
  unfold callSubscriber. destruct (to n).
  apply keeps_onMarkerMoved;
    auto using steady_with_spline, steady_with_splineGraphics.
Qed.

Lemma keeps_steady_markerMove i evt : keeps steady (markerMoveEvent i evt).
Proof.
  intros a [R Q].
  destruct (nth_error (_markers a) i) as [m|] eqn:E.
  - pose proof (ready_live a i m R E) as Lm.
    destruct (markerMoveEvent_some a i evt m E Lm) as (calls & _ & ->).
    pose proof R as (_ & _ & _ & _ & _ & L).
    apply keeps_forEach; [intros n; apply keeps_steady_callSubscriber|].
    split.
    + apply ready_with_markers; [exact R | apply setNth_length |].
      apply setNth_Forall; [exact L|]. apply live_dragging. exact Lm.
    + destruct Q as [Q|Q]; [left; exact Q | right].
      cbn. apply setNth_Forall; [exact Q|].
      unfold unsubscribed.
      destruct (dragging_subscribers evt m) as (-> & _).
      rewrite Forall_forall in Q. apply Q. eapply nth_error_In. exact E.
  - unfold markerMoveEvent, bind, get. rewrite E. split; assumption.
Qed.

Lemma keeps_steady_handle e : keeps steady (handle e).
Proof.
  destruct e; cbn [handle];
    auto using keeps_steady_stageEvent, keeps_steady_onDraw,
               keeps_steady_onClear, keeps_steady_markerPress,
               keeps_steady_markerMove.
Qed.

Lemma boot_steady canvas : steady (boot (Some canvas)).
Proof. split; [apply boot_ready | right; constructor]. Qed.

Lemma run_keeps (P : AppComponent -> Prop) events a :
  (forall e, keeps P (handle e)) -> P a -> P (run events a).
Proof.
  intros K. unfold run. revert a.
  induction events as [|e events IH]; intros a Pa; cbn.
  - exact Pa.
  - apply IH. apply K. exact Pa.
Qed.

Lemma run_app events1 events2 a :
  run (events1 ++ events2) a = run events2 (run events1 a).
Proof. unfold run. apply fold_left_app. Qed.

(** *** A component without a canvas *)

Lemma boot_inert : inert (boot None).
Proof. repeat split. Qed.

Lemma inert_handle e a :
  inert a -> fst (handle e a) = Returned tt /\ inert (snd (handle e a)).
Proof.
  intros (St & K & G & Ms & N & Ks & Sg).
  destruct e; cbn [handle].
  - unfold stageEvent, bind, get. rewrite St. repeat split; assumption.
  - rewrite (onDraw_too_few a) by lia. repeat split; assumption.
  - unfold onClear, bind, get, modify, onSpline. cbn.
    rewrite St, K, G. repeat split.
  - unfold markerPressEvent, bind, get. rewrite Ms.
    destruct i; repeat split; assumption.
  - unfold markerMoveEvent, bind, get. rewrite Ms.
    destruct i; repeat split; assumption.
  - unfold markerPressEvent, bind, get. rewrite Ms.
    destruct i; repeat split; assumption.
Qed.

Lemma keeps_inert_handle e : keeps inert (handle e).
Proof. intros a I. apply inert_handle. exact I. Qed.

(** X7: no handler throws.  Once the component is constructed and
    initialised, with or without a canvas, then after any sequence of stage
    events, presses of [Draw] and [Clear] and pointer events on markers,
    every handler returns: no [null] or [undefined] is dereferenced, in
    particular [getCubicSegment] never answers [null] inside the drawing
    loop, and every marker of the component has its shape when a pointer
    event reaches it.  The handlers can throw: on a component one of whose
    markers has no shape, a press, a move or a release on that marker
    throws a TypeError and changes nothing. *)
Theorem no_handler_throws (canvas : option CanvasContainerDirective)
    (events : list Event) (e : Event) :
  fst (handle e (run events (boot canvas))) = Returned tt /\
  (forall a i m evt,
     nth_error (_markers a) i = Some m -> _markerShape m = None ->
     handle (MarkerDown i evt) a = (Thrown TypeError, a) /\
     handle (MarkerMove i evt) a = (Thrown TypeError, a) /\
     handle (MarkerUp i evt) a = (Thrown TypeError, a)).
Proof.
  split.
  - destruct canvas as [canvas|].
    + apply handle_returns. apply run_keeps.
      * apply keeps_steady_handle.
      * apply boot_steady.
    + apply inert_handle. apply run_keeps.
      * apply keeps_inert_handle.
      * apply boot_inert.
  - intros a i m evt E Sh. cbn [handle].
    rewrite (markerPress_dead true i evt a m E Sh),
            (markerPress_dead false i evt a m E Sh),
            (markerMove_dead i evt a m E Sh).
    repeat split.
Qed.

(** *** [onClear] *)

Lemma onClear_leaves a :
  let a' := snd (onClear a) in
  _markers a' = [] /\ _numKnots a' = 0%Z /\
  Spline.knots (_spline a') = [] /\ Spline.segments (_spline a') = [] /\
  drawn a' = [] /\
  _stage a' =
    option_map (fun st => {| PIXI.children := PIXI.children st;
                             PIXI.listeners := listensTo "pointerup" |})
               (_stage a) /\
  _markerContainer a' =
    option_map (fun k => {| PIXI.children := [];
                            PIXI.listeners := PIXI.listeners k |})
               (_markerContainer a) /\
  _width a' = _width a /\ _height a' = _height a.
Proof.
  destruct a as [txt cv w h n ms [st|] [g|] [k|] sp]; repeat split.
Qed.

Lemma onClear_twice a :
  onClear (snd (onClear a)) = (Returned tt, snd (onClear a)).
Proof.
  destruct a as [txt cv w h n ms [st|] [g|] [k|] sp]; reflexivity.
Qed.

(** X6: [onClear()] never throws and resets whatever state it is called
    in: no marker, a knot count of 0, the instruction text, a spline without
    knots and segments, nothing drawn, no child on the marker container.  A
    stage that exists keeps its children and has the stored click closure
    on [pointerup] as its only listener.  Canvas, width and height are
    kept.  Clearing a second time changes nothing. *)
Theorem onClear_resets a :
  let a' := snd (onClear a) in
  fst (onClear a) = Returned tt /\
  _markers a' = [] /\ _numKnots a' = 0%Z /\
  statusTxt a' = "'Click' to add knots.  'Draw' to draw cubic spline"%string /\
  Spline.knots (_spline a') = [] /\ Spline.segments (_spline a') = [] /\
  drawn a' = [] /\
  _stage a' =
    option_map (fun st => {| PIXI.children := PIXI.children st;
                             PIXI.listeners := listensTo "pointerup" |})
               (_stage a) /\
  _markerContainer a' =
    option_map (fun k => {| PIXI.children := [];
                            PIXI.listeners := PIXI.listeners k |})
               (_markerContainer a) /\
  _canvas a' = _canvas a /\ _width a' = _width a /\ _height a' = _height a /\
  onClear a' = (Returned tt, a').
Proof.
  destruct (onClear_leaves a) as (Ms & N & K & Sg & D & St & Mc & W & H).
  intros a'. split; [reflexivity|]. split; [exact Ms|]. split; [exact N|].
  split; [reflexivity|]. split; [exact K|]. split; [exact Sg|].
  split; [exact D|]. split; [exact St|]. split; [exact Mc|].
  split; [reflexivity|]. split; [exact W|]. split; [exact H|].
  apply onClear_twice.
Qed.

(** *** What the handlers do to the stage, the display list and the markers *)

Lemma click_leaves a evt :
  let a' := snd (__onStageClicked evt a) in
  _stage a' = _stage a /\ _spline a' = _spline a /\
  _splineGraphics a' = _splineGraphics a /\
  _width a' = _width a /\ _height a' = _height a /\
  (_markers a' = _markers a \/ _markers a' = _markers a ++ [placed evt]).
Proof.
  unfold __onStageClicked, bind, get, modify, deref, ret.
  destruct (_numKnots a <? MAX_KNOTS)%Z; cbn; [|repeat split; left; reflexivity].
  destruct (_markerContainer a); cbn; repeat split; right; reflexivity.
Qed.

Lemma keeps_stageEvent (P : AppComponent -> Prop) event evt :
  keeps P (__onStageClicked evt) -> keeps P (stageEvent event evt).
Proof.
  intros K. unfold stageEvent. apply keeps_bind_get. intros a Pa.
  destruct (_stage a) as [st|]; [|exact Pa].
  apply keeps_forEach; [|exact Pa]. intros []. exact K.
Qed.

Lemma keeps_onDraw (P : AppComponent -> Prop) :
  (forall a v, P a -> P (with_statusTxt v a)) ->
  (forall a st, P a -> _stage a = Some st ->
     P (with_stage (Some (PIXI.removeAllListeners st)) a)) ->
  (forall a, P a ->
     P (with_markers
          (map (fun marker => snd (Marker.addSubscriber (Some MarkerMoved) marker))
               (_markers a)) a)) ->
  keeps P __drawSpline ->
  keeps P onDraw.
Proof.
  intros Ht Hs Hm Hd a Pa.
  unfold onDraw, bind at 1, get.
  destruct (_numKnots a <? 3)%Z; [apply Ht; exact Pa|].
  destruct (_stage a) as [st|] eqn:St; [|exact Pa].
  change (P (snd (__drawSpline
                    (with_statusTxt "'Clear' to reset for another spline."
                       (with_markers
                          (map (fun marker =>
                                  snd (Marker.addSubscriber (Some MarkerMoved) marker))
                               (_markers a))
                          (with_stage (Some (PIXI.removeAllListeners st)) a)))))).
  apply Hd. apply Ht.
  apply (Hm (with_stage (Some (PIXI.removeAllListeners st)) a)).
  apply Hs; assumption.
Qed.

Lemma keeps_markerPress (P : AppComponent -> Prop) (down : bool) i evt :
  (forall a m, P a -> nth_error (_markers a) i = Some m ->
     P (with_markers
          (setNth i
             (snd (Marker.onOwnShape
                     (if down then Marker.__startDrag evt
                      else Marker.__endDrag evt) m))
             (_markers a)) a)) ->
  keeps P (markerPressEvent down i evt).
Proof.
  intros H a Pa.
  destruct (nth_error (_markers a) i) as [m|] eqn:E;
    [|rewrite (markerPress_none down i evt a E); exact Pa].
  rewrite (markerPress_state down i evt a m E).
  apply H; assumption.
Qed.

Lemma keeps_markerMove (P : AppComponent -> Prop) i evt :
  (forall a m, P a -> nth_error (_markers a) i = Some m ->
     P (with_markers
          (setNth i (snd (Marker.onOwnShape (Marker.__dragging evt) m))
             (_markers a)) a)) ->
  (forall n, keeps P (callSubscriber n)) ->
  keeps P (markerMoveEvent i evt).
Proof.
  intros H K a Pa.
  destruct (nth_error (_markers a) i) as [m|] eqn:E.
  - destruct (live_or_not m) as [Lm|Sh].
    + destruct (markerMoveEvent_some a i evt m E Lm) as (calls & _ & ->).
      apply keeps_forEach; [exact K|]. apply H; assumption.
    + rewrite (markerMove_dead i evt a m E Sh). exact Pa.
  - unfold markerMoveEvent, bind, get. rewrite E. exact Pa.
Qed.

Lemma keeps_callSubscriber (P : AppComponent -> Prop) n :
  (forall a s, P a -> P (with_spline s a)) ->
  (forall a g, P a -> P (with_splineGraphics (Some g) a)) ->
  keeps P (callSubscriber n).
Proof.
  intros Hs Hg. unfold callSubscriber. destruct (to n).
  apply keeps_onMarkerMoved; assumption.
Qed.

(** *** The stage's listeners *)

Lemma handlersOf_listensTo {Child} (st : PIXI.Container Child StageHandler)
    (name event : string) :
  PIXI.listeners st = listensTo name ->
  PIXI.handlersOf event st =
    if String.eqb name event then [StageMouseClick] else [].
Proof.
  intros H. unfold PIXI.handlersOf. rewrite H. cbn.
  destruct (String.eqb name event); reflexivity.
Qed.

Lemma keeps_wired (C : list DisplayObject) e :
  keeps (fun a => exists st, _stage a = Some st /\
                    PIXI.children st = C /\
                    (PIXI.listeners st = listensTo "click" \/
                     PIXI.listeners st = listensTo "pointerup" \/
                     PIXI.listeners st = []))
        (handle e).
Proof.
  destruct e; cbn [handle].
  - apply keeps_stageEvent. intros a Pa.
    destruct (click_leaves a evt) as (-> & _). exact Pa.
  - apply keeps_onDraw.
    + intros a v Pa. exact Pa.
    + intros a st (st' & St' & Ch & _) St.
      rewrite St in St'. injection St' as <-.
      exists (PIXI.removeAllListeners st). auto.
    + intros a Pa. exact Pa.
    + apply keeps_drawSpline; intros a x Pa; exact Pa.
  - intros a (st & St & Ch & _).
    destruct (onClear_leaves a) as (_ & _ & _ & _ & _ & E & _).
    rewrite E, St. cbn. eexists. split; [reflexivity|]. auto.
  - apply keeps_markerPress. intros a m Pa _. exact Pa.
  - apply keeps_markerMove.
    + intros a m Pa _. exact Pa.
    + intros n. apply keeps_callSubscriber; intros a x Pa; exact Pa.
  - apply keeps_markerPress. intros a m Pa _. exact Pa.
Qed.

(** X8: on a canvas whose stage starts without listeners, the stage of the
    running component never holds more than the one stored closure: its
    listeners are that closure on [click] (as [__setup] leaves them, so
    right after initialisation), that closure on [pointerup] (as [onClear]
    leaves them, so whenever [Clear] was the last event), or none.
    So an event on the stage calls [__onStageClicked] at most once. *)
Theorem stage_has_one_listener_at_most canvas events :
  PIXI.listeners (stage canvas) = [] ->
  exists st,
    _stage (run events (boot (Some canvas))) = Some st /\
    (PIXI.listeners st = listensTo "click" \/
     PIXI.listeners st = listensTo "pointerup" \/
     PIXI.listeners st = []) /\
    (forall event, (List.length (PIXI.handlersOf event st) <= 1)%nat) /\
    (events = [] -> PIXI.listeners st = listensTo "click") /\
    (forall before, events = before ++ [ClearButton] ->
                    PIXI.listeners st = listensTo "pointerup").
Proof.
  intros H.
  destruct (run_keeps _ events (boot (Some canvas))
              (keeps_wired
                 (PIXI.children (stage canvas) ++ [SplineGraphics; MarkerContainer])))
    as (st & St & _ & L).
  { eexists. split; [reflexivity|]. split.
    - cbn. rewrite <- app_assoc. reflexivity.
    - left. cbn. rewrite H. reflexivity. }
  exists st. split; [exact St|]. split; [exact L|]. split; [|split].
  - intros event.
    destruct L as [L|[L|L]];
      try (rewrite (handlersOf_listensTo st _ event L);
           destruct (String.eqb _ event); cbn; lia).
    unfold PIXI.handlersOf. rewrite L. cbn. lia.
  - intros ->. cbn in St. injection St as <-. cbn. rewrite H. reflexivity.
  - intros before ->. rewrite run_app in St.
    change (run [ClearButton] (run before (boot (Some canvas))))
      with (snd (onClear (run before (boot (Some canvas))))) in St.
    destruct (onClear_leaves (run before (boot (Some canvas))))
      as (_ & _ & _ & _ & _ & E & _).
    rewrite E in St.
    destruct (_stage (run before (boot (Some canvas)))); [|discriminate].
    cbn in St. injection St as <-. reflexivity.
Qed.

(** *** [onDraw] with enough knots *)

(** X9: [onDraw()] on a set up component with at least 3 knots returns;
    it takes every listener off the stage, so that no stage event changes
    anything afterwards (no knot can be added until [Clear]); it subscribes
    [_onMarkerMoved] once more to every marker, leaving the markers where
    they are; the knot count is unchanged and the status text tells to
    clear. *)
Theorem draw_freezes_the_knots a :
  ready a -> (3 <= _numKnots a)%Z ->
  let a' := snd (onDraw a) in
  fst (onDraw a) = Returned tt /\
  (exists st, _stage a = Some st /\
              _stage a' = Some (PIXI.removeAllListeners st)) /\
  (forall event evt, stageEvent event evt a' = (Returned tt, a')) /\
  _markers a' =
    map (fun m => with_subscribers (_subscribers m ++ [MarkerMoved]) m)
        (_markers a) /\
  markerPoints (_markers a') = markerPoints (_markers a) /\
  _numKnots a' = _numKnots a /\
  statusTxt a' = "'Clear' to reset for another spline."%string.
Proof.
  intros R H a'.
  split; [apply onDraw_returns; exact R|].
  pose proof R as ([st St] & _).
  set (ms := map (fun m => with_subscribers (_subscribers m ++ [MarkerMoved]) m)
                 (_markers a)).
  assert (K : _stage a' = Some (PIXI.removeAllListeners st) /\
              _markers a' = ms /\ _numKnots a' = _numKnots a /\
              statusTxt a' = "'Clear' to reset for another spline."%string).
  { unfold a'. rewrite (onDraw_enough a st H St).
    apply (keeps_drawSpline
             (fun x => _stage x = Some (PIXI.removeAllListeners st) /\
                       _markers x = ms /\ _numKnots x = _numKnots a /\
                       statusTxt x = "'Clear' to reset for another spline."%string)).
    - intros x s Px. exact Px.
    - intros x g Px. exact Px.
    - repeat split. }
  destruct K as (St' & Ms & N & T).
  split; [exists st; auto|]. split.
  { intros event evt. unfold stageEvent, bind, get. rewrite St'. reflexivity. }
  split; [exact Ms|]. split; [|auto].
  rewrite Ms. unfold ms, markerPoints. rewrite map_map. reflexivity.
Qed.

(** X10: [onDraw()] with at least 3 knots does not start from an empty
    spline: it adds the marker positions to the knots the spline holds.
    The spline then has one segment less than knots when open (as many as
    knots when closed), counted over the old and the new knots together,
    while the loop draws the first [_numKnots - 1] of these segments, one
    [moveTo] and one [bezierCurveTo] each. *)
Theorem onDraw_adds_to_the_spline a :
  ready a -> (3 <= _numKnots a)%Z ->
  let a' := snd (onDraw a) in
  let held := Spline.knots (_spline a) in
  Spline.knots (_spline a') = held ++ markerPoints (_markers a) /\
  List.length (Spline.segments (_spline a')) =
    (if Spline.closed (_spline a)
     then List.length held + Z.to_nat (_numKnots a)
     else List.length held + Z.to_nat (_numKnots a) - 1)%nat /\
  drawn a' =
    flat_map strokes
      (firstn (Z.to_nat (_numKnots a - 1)) (Spline.segments (_spline a'))) /\
  List.length (drawn a') = (2 * Z.to_nat (_numKnots a - 1))%nat.
Proof.
  intros R H a' held.
  pose proof R as ([st St] & _ & [g G] & N & _ & L).
  unfold a'. rewrite (onDraw_enough a st H St).
  set (a1 := with_statusTxt _ _).
  assert (Mp : markerPoints (_markers a1) = markerPoints (_markers a)).
  { unfold a1, markerPoints. cbn [_markers with_statusTxt with_markers].
    rewrite map_map. reflexivity. }
  assert (Lp : List.length (markerPoints (_markers a)) = Z.to_nat (_numKnots a)).
  { rewrite markerPoints_length, N, Nat2Z.id. reflexivity. }
  destruct (drawSpline_result a1 g) as (E & K & Ls).
  - unfold a1. cbn [_markers with_statusTxt with_markers].
    apply Forall_map. revert L. apply Forall_impl.
    intros m. apply live_addSubscriber.
  - unfold a1. cbn [_markers _numKnots with_statusTxt with_markers with_stage].
    rewrite length_map. exact N.
  - exact H.
  - exact G.
  - rewrite Mp in E, K, Ls. rewrite Lp in E, Ls.
    change (Spline.knots (_spline a1)) with held in K, Ls.
    change (Spline.closed (_spline a1)) with (Spline.closed (_spline a)) in Ls.
    rewrite E. cbn [snd _spline with_spline with_splineGraphics].
    split; [exact K|]. split; [exact Ls|].
    replace (Z.to_nat (_numKnots a - 1)) with (Z.to_nat (_numKnots a) - 1)%nat
      by lia.
    assert (D : drawn
                  (with_splineGraphics
                     (Some
                        (strokeAll
                           (firstn (Z.to_nat (_numKnots a) - 1)
                              (Spline.segments
                                 (Spline.ensure
                                    (addPoints (markerPoints (_markers a))
                                       (_spline a1)))))
                           (PIXI.setLineStyle 2 BEZIER_LINE_COLOR 1 (PIXI.clear g))))
                     (with_spline
                        (Spline.ensure
                           (addPoints (markerPoints (_markers a)) (_spline a1)))
                        a1)) =
                flat_map strokes
                  (firstn (Z.to_nat (_numKnots a) - 1)
                     (Spline.segments
                        (Spline.ensure
                           (addPoints (markerPoints (_markers a)) (_spline a1)))))).
    { unfold drawn. cbn [_splineGraphics with_splineGraphics].
      rewrite strokeAll_path. reflexivity. }
    split; [exact D|]. rewrite D.
    assert (F : forall bs, List.length (flat_map strokes bs) =
                           (2 * List.length bs)%nat).
    { induction bs as [|b bs IH]; cbn [flat_map strokes List.length app];
        [reflexivity | rewrite IH; lia]. }
    rewrite F, length_firstn, Ls.
    destruct (Spline.closed (_spline a)); lia.
Qed.

(** *** Before [Draw] *)

Lemma press_subscribers (down : bool) evt (m : Marker MarkerSubscriber) :
  let m' :=
    snd (Marker.onOwnShape
           (if down then Marker.__startDrag evt else Marker.__endDrag evt) m) in
  _subscribers m' = _subscribers m /\ id m' = id m /\
  markerPoint m' = markerPoint m.
Proof.
  cbv zeta. rewrite press_own. unfold markerPoint.
  destruct (_markerShape m) as [g|] eqn:E; cbn; try rewrite E; repeat split.
Qed.

Lemma keeps_undrawn e :
  match e with DrawButton => False | _ => True end ->
  keeps (fun a => Forall unsubscribed (_markers a) /\
                  Spline.knots (_spline a) = [] /\
                  Spline.segments (_spline a) = [] /\
                  drawn a = [])
        (handle e).
Proof.
  destruct e; cbn [handle]; intros NotDraw; try (destruct NotDraw; fail).
  - apply keeps_stageEvent. intros a (U & K & Sg & D).
    destruct (click_leaves a evt) as (_ & Es & Eg & _ & _ & Em).
    unfold drawn. rewrite Es, Eg. repeat split; try assumption.
    destruct Em as [->| ->]; [exact U|].
    apply Forall_app. split; [exact U|].
    constructor; [apply placed_unsubscribed | constructor].
  - intros a _.
    destruct (onClear_leaves a) as (-> & _ & -> & -> & -> & _).
    repeat split. constructor.
  - apply keeps_markerPress. intros a m (U & K) E.
    split; [|exact K]. cbn [_markers with_markers]. apply setNth_Forall; [exact U|].
    unfold unsubscribed.
    destruct (press_subscribers true evt m) as (-> & _).
    rewrite Forall_forall in U. apply U. eapply nth_error_In. exact E.
  - intros a (U & K).
    destruct (nth_error (_markers a) i) as [m|] eqn:E.
    + assert (Um : unsubscribed m).
      { rewrite Forall_forall in U. apply U. eapply nth_error_In. exact E. }
      destruct (live_or_not m) as [Lm|Sh];
        [|rewrite (markerMove_dead i evt a m E Sh); split; assumption].
      destruct (markerMoveEvent_some a i evt m E Lm) as (calls & C & ->).
      destruct (dragging_subscribers evt m) as (Sb & _ & Z0).
      rewrite (Z0 Lm Um) in C. injection C as <-. cbn [forEach ret snd].
      split; [|exact K]. cbn [_markers with_markers].
      apply setNth_Forall; [exact U|].
      unfold unsubscribed. rewrite Sb. exact Um.
    + unfold markerMoveEvent, bind, get. rewrite E. split; assumption.
  - apply keeps_markerPress. intros a m (U & K) E.
    split; [|exact K]. cbn [_markers with_markers]. apply setNth_Forall; [exact U|].
    unfold unsubscribed.
    destruct (press_subscribers false evt m) as (-> & _).
    rewrite Forall_forall in U. apply U. eapply nth_error_In. exact E.
Qed.

(** X11: the spline is computed on [Draw] only.  As long as [Draw] was not
    pressed, whatever else happened (clicks, [Clear], presses and moves of
    markers), the spline holds no knot and no segment, nothing is drawn, and
    no marker has a subscriber, so moving a marker reaches no
    [__onMarkerMoved]. *)
Theorem nothing_is_drawn_before_Draw canvas events :
  pressesDraw events = false ->
  let a := run events (boot canvas) in
  Spline.knots (_spline a) = [] /\
  Spline.segments (_spline a) = [] /\
  drawn a = [] /\
  Forall unsubscribed (_markers a).
Proof.
  intros H a.
  assert (Q : Forall unsubscribed (_markers a) /\
              Spline.knots (_spline a) = [] /\
              Spline.segments (_spline a) = [] /\ drawn a = []).
  { unfold a, run. clear a.
    assert (Q0 : Forall unsubscribed (_markers (boot canvas)) /\
                 Spline.knots (_spline (boot canvas)) = [] /\
                 Spline.segments (_spline (boot canvas)) = [] /\
                 drawn (boot canvas) = [])
      by (destruct canvas; repeat split; constructor).
    revert Q0. generalize (boot canvas) as a0.
    induction events as [|e events IH]; intros a0 Q0; cbn [fold_left].
    - exact Q0.
    - cbn in H. apply orb_false_iff in H as [He H].
      apply (IH H). apply (keeps_undrawn e); [|exact Q0].
      destruct e; try exact I. discriminate. }
  destruct Q as (U & K & Sg & D). auto.
Qed.

(** *** The markers' ids *)

Lemma keeps_nameless e :
  keeps (fun a => Forall (fun m => id m = None) (_markers a)) (handle e).
Proof.
  destruct e; cbn [handle].
  - apply keeps_stageEvent. intros a F.
    destruct (click_leaves a evt) as (_ & _ & _ & _ & _ & [->| ->]);
      [exact F|].
    apply Forall_app. split; [exact F|]. constructor; [reflexivity | constructor].
  - apply keeps_onDraw.
    + intros a v F. exact F.
    + intros a st F _. exact F.
    + intros a F. cbn [_markers with_markers]. apply Forall_map. revert F. apply Forall_impl.
      intros m E. exact E.
    + apply keeps_drawSpline; intros a x F; exact F.
  - intros a _.
    destruct (onClear_leaves a) as (-> & _). constructor.
  - apply keeps_markerPress. intros a m F E.
    cbn [_markers with_markers]. apply setNth_Forall; [exact F|].
    destruct (press_subscribers true evt m) as (_ & -> & _).
    rewrite Forall_forall in F. apply F. eapply nth_error_In. exact E.
  - apply keeps_markerMove.
    + intros a m F E. cbn [_markers with_markers]. apply setNth_Forall; [exact F|].
      destruct (dragging_subscribers evt m) as (_ & -> & _).
      rewrite Forall_forall in F. apply F. eapply nth_error_In. exact E.
    + intros n. apply keeps_callSubscriber; intros a x F; exact F.
  - apply keeps_markerPress. intros a m F E.
    cbn [_markers with_markers]. apply setNth_Forall; [exact F|].
    destruct (press_subscribers false evt m) as (_ & -> & _).
    rewrite Forall_forall in F. apply F. eapply nth_error_In. exact E.
Qed.

Lemma dragging_calls evt (m : Marker MarkerSubscriber) calls :
  fst (Marker.onOwnShape (Marker.__dragging evt) m) = Returned calls ->
  Forall (fun n => marker_id n = id m) calls.
Proof.
  rewrite dragging_own.
  destruct (_markerShape m) as [g|]; [|discriminate].
  destruct (PIXI.dragging g); [|intros [= <-]; constructor].
  cbn. intros [= <-]. apply Forall_map, Forall_forall. reflexivity.
Qed.

(** X12: the component never assigns the [id] of a marker: every marker of
    the running component has [id] [undefined], and so has every call a
    marker asks for when it is moved; [__onMarkerMoved] is never told which
    marker moved. *)
Theorem marker_id_is_never_assigned canvas events :
  let a := run events (boot canvas) in
  Forall (fun m => id m = None) (_markers a) /\
  forall i evt m calls,
    nth_error (_markers a) i = Some m ->
    fst (Marker.onOwnShape (Marker.__dragging evt) m) = Returned calls ->
    Forall (fun n => marker_id n = None) calls.
Proof.
  intros a.
  assert (F : Forall (fun m => id m = None) (_markers a)).
  { apply (run_keeps (fun a => Forall (fun m => id m = None) (_markers a))).
    - apply keeps_nameless.
    - destruct canvas; constructor. }
  split; [exact F|].
  intros i evt m calls E C.
  assert (Im : id m = None).
  { rewrite Forall_forall in F. apply F. eapply nth_error_In. exact E. }
  rewrite <- Im. apply (dragging_calls evt). exact C.
Qed.

(** *** From clicks to the drawn spline *)

Lemma placed_point evt : markerPoint (placed evt) = clickPoint evt.
Proof.
  unfold placed, markerPoint, clickPoint, Marker.setCoords.
  cbn [snd Marker.create].
  rewrite create_result. cbn [snd _markerShape with_shape].
  rewrite x_set_y, written_y, written_x, y_set_x.
  cbn [PIXI.x PIXI.y PIXI.set_dragging PIXI.set_interactive PIXI.draw
       PIXI.clear PIXI.new_Graphics].
  unfold written.
  destruct (isNaN (PIXI.global_x evt)) eqn:Nx,
           (isNaN (PIXI.global_y evt)) eqn:Ny; cbn [negb orb];
    rewrite ?(number_same 0 eq_refl);
    repeat match goal with
           | |- context [same 0%float ?v] => destruct (same 0%float v)
           end; reflexivity.
Qed.

Lemma markerPoints_placed (ps : list PIXI.InteractionEvent) :
  markerPoints (map placed ps) = map clickPoint ps.
Proof.
  unfold markerPoints. rewrite map_map. apply map_ext. apply placed_point.
Qed.

Lemma stageEvent_one event evt a st :
  _stage a = Some st ->
  PIXI.handlersOf event st = [StageMouseClick] ->
  snd (stageEvent event evt a) = snd (__onStageClicked evt a).
Proof.
  intros St H. unfold stageEvent, bind at 1, get. rewrite St, H.
  cbn [forEach callStageHandler]. unfold bind.
  destruct (__onStageClicked evt a) as [[u|e] a1]; reflexivity.
Qed.

Lemma clicks_place_markers event (ps : list PIXI.InteractionEvent) :
  forall a st,
  ready a -> _stage a = Some st ->
  PIXI.handlersOf event st = [StageMouseClick] ->
  let a' := run (map (OnStage event) ps) a in
  _markers a' =
    _markers a ++ map placed (firstn (8 - List.length (_markers a)) ps) /\
  _spline a' = _spline a /\ _splineGraphics a' = _splineGraphics a /\
  ready a'.
Proof.
  induction ps as [|evt ps IH]; intros a st R St H.
  - cbn. rewrite firstn_nil, app_nil_r. auto.
  - cbn [map run fold_left handle].
    rewrite (stageEvent_one event evt a st St H).
    pose proof R as (_ & [k K] & _ & N & B & _).
    pose proof (keeps_ready_click evt a R) as R1.
    destruct (click_leaves a evt) as (St1 & Sp1 & Sg1 & _).
    rewrite St in St1.
    destruct (IH _ st R1 St1 H) as (Ms & Sp & Sg & R').
    unfold run in Ms, Sp, Sg, R'. 
    rewrite Sp, Sg, Sp1, Sg1. split; [|auto].
    rewrite Ms.
    destruct (Z.lt_ge_cases (_numKnots a) MAX_KNOTS) as [Lt|Ge].
    + rewrite (click_below_ceiling a k evt K Lt).
      cbn [snd _markers with_statusTxt with_numKnots with_markerContainer
           with_markers].
      rewrite length_app. cbn [List.length].
      unfold MAX_KNOTS in Lt.
      replace (8 - List.length (_markers a))%nat
        with (Datatypes.S (8 - (List.length (_markers a) + 1)))%nat by lia.
      cbn [firstn map]. rewrite <- app_assoc. reflexivity.
    + rewrite (click_at_ceiling a evt Ge).
      cbn [snd _markers with_statusTxt].
      unfold MAX_KNOTS in Ge, B.
      replace (8 - List.length (_markers a))%nat with 0%nat by lia.
      reflexivity.
Qed.

Lemma onDraw_fresh_renders a :
  ready a -> (3 <= _numKnots a)%Z ->
  Spline.knots (_spline a) = [] -> Spline.closed (_spline a) = false ->
  rendersEachSegment a (onDraw a).
Proof.
  intros R H K C. pose proof R as ([st St] & _ & [g G] & N & _ & L).
  rewrite (onDraw_enough a st H St).
  set (a1 := with_statusTxt _ _).
  assert (Mp : markerPoints (_markers a1) = markerPoints (_markers a)).
  { unfold a1, markerPoints. cbn [_markers with_statusTxt with_markers].
    rewrite map_map. reflexivity. }
  assert (F : rendersEachSegment a1 (__drawSpline a1)).
  { apply (drawSpline_fresh_renders a1 g); try assumption.
    - unfold a1. cbn [_markers with_statusTxt with_markers].
      apply Forall_map. revert L. apply Forall_impl.
      intros m. apply live_addSubscriber.
    - unfold a1. cbn [_markers _numKnots with_statusTxt with_markers with_stage].
      rewrite length_map. exact N. }
  unfold rendersEachSegment in *. rewrite Mp in F. exact F.
Qed.

Lemma keeps_open e :
  keeps (fun a => Spline.closed (_spline a) = false) (handle e).
Proof.
  assert (D : keeps (fun a => Spline.closed (_spline a) = false) __drawSpline).
  { unfold __drawSpline. apply keeps_bind.
    - apply keeps_provideCoordinates. intros a px py C. exact C.
    - intros _. apply keeps_drawSegments.
      + intros a C. cbn [_spline with_spline]. rewrite ensure_closed. exact C.
      + intros a g C. exact C. }
  destruct e; cbn [handle].
  - apply keeps_stageEvent. intros a C.
    destruct (click_leaves a evt) as (_ & -> & _). exact C.
  - apply keeps_onDraw; auto.
  - intros a C. exact C.
  - apply keeps_markerPress. intros a m C _. exact C.
  - apply keeps_markerMove.
    + intros a m C _. exact C.
    + intros n. unfold callSubscriber. destruct (to n).
      unfold __onMarkerMoved. apply keeps_bind.
      * apply keeps_onSpline. intros a C. exact C.
      * intros _. exact D.
  - apply keeps_markerPress. intros a m C _. exact C.
Qed.

Lemma clicks_then_Draw event (ps : list PIXI.InteractionEvent) a st :
  ready a -> _stage a = Some st ->
  PIXI.handlersOf event st = [StageMouseClick] ->
  _markers a = [] ->
  Spline.knots (_spline a) = [] -> Spline.closed (_spline a) = false ->
  (3 <= List.length ps)%nat ->
  let a' := run (map (OnStage event) ps) a in
  markerPoints (_markers a') = map clickPoint (firstn 8 ps) /\
  rendersEachSegment a' (onDraw a').
Proof.
  intros R St H Ms K C L a'.
  destruct (clicks_place_markers event ps a st R St H) as (Ms' & Sp & Sg & R').
  fold a' in Ms', Sp, Sg, R'. rewrite Ms in Ms'.
  cbn [app List.length Nat.sub] in Ms'.
  split; [rewrite Ms'; apply markerPoints_placed|].
  apply onDraw_fresh_renders.
  - exact R'.
  - destruct R' as (_ & _ & _ & -> & _). rewrite Ms', length_map, length_firstn.
    lia.
  - rewrite Sp. exact K.
  - rewrite Sp. exact C.
Qed.

(** X13: the first [Draw] after [Clear] goes through the clicked points.
    When [Clear], pressed at any time, is followed by at least 3
    [pointerup] events on the stage, the markers are where the first 8 of
    them were (a coordinate that is NaN, or a zero of either sign, being
    the [+0] a new shape has), and [onDraw] then
    returns with exactly these points as knots, one segment less than
    knots, segment [i] running from knot [i] to knot [i + 1], each drawn
    once and in order.  The same holds of [click] events right after
    initialisation, on a canvas whose stage starts without listeners. *)
Theorem first_Draw_interpolates_the_clicks canvas (before : list Event)
    (ps : list PIXI.InteractionEvent) :
  (3 <= List.length ps)%nat ->
  let cleared := run (before ++ [ClearButton]) (boot (Some canvas)) in
  let a := run (map (OnStage "pointerup") ps) cleared in
  let b := run (map (OnStage "click") ps) (boot (Some canvas)) in
  (markerPoints (_markers a) = map clickPoint (firstn 8 ps) /\
   rendersEachSegment a (onDraw a)) /\
  (PIXI.listeners (stage canvas) = [] ->
   markerPoints (_markers b) = map clickPoint (firstn 8 ps) /\
   rendersEachSegment b (onDraw b)).
Proof.
  intros L cleared a b. split.
  - unfold a, cleared. rewrite run_app.
    set (a0 := run before (boot (Some canvas))).
    assert (R0 : ready a0) by apply run_ready, boot_ready.
    assert (C0 : Spline.closed (_spline a0) = false).
    { apply (run_keeps (fun a => Spline.closed (_spline a) = false)).
      - apply keeps_open.
      - reflexivity. }
    change (run [ClearButton] a0) with (snd (onClear a0)).
    destruct (onClear_leaves a0) as (Ms & _ & K & _ & _ & St & _).
    destruct R0 as ([st St0] & R0').
    rewrite St0 in St. cbn [option_map] in St.
    eapply clicks_then_Draw; try eassumption.
    + apply keeps_ready_onClear. split; [exists st; exact St0 | exact R0'].
    + reflexivity.
  - intros E. unfold b.
    eapply (clicks_then_Draw "click" ps (boot (Some canvas))); try exact L.
    + apply boot_ready.
    + reflexivity.
    + unfold PIXI.handlersOf. cbn. rewrite E. reflexivity.
    + reflexivity.
    + reflexivity.
    + reflexivity.
Qed.

(** *** No NaN among the knots *)

Lemma clickPoint_isNumbers evt : isNumbers (clickPoint evt) = true.
Proof.
  unfold isNumbers, clickPoint. cbn [Spline.x Spline.y].
  destruct (isNaN (PIXI.global_x evt)) eqn:Ex;
    destruct (isNaN (PIXI.global_y evt)) eqn:Ey; cbn [orb];
    repeat match goal with
           | |- context [same 0%float ?v] => destruct (same 0%float v)
           end;
    rewrite ?Ex, ?Ey; reflexivity.
Qed.

Lemma dragging_point evt (m : Marker MarkerSubscriber) :
  markerPoint (snd (Marker.onOwnShape (Marker.__dragging evt) m)) =
    markerPoint m \/
  exists g,
    _markerShape m = Some g /\
    markerPoint (snd (Marker.onOwnShape (Marker.__dragging evt) m)) =
      {| Spline.x := written (PIXI.x g) (PIXI.global_x evt);
         Spline.y := written (PIXI.y g) (PIXI.global_y evt) |}.
Proof.
  rewrite dragging_own.
  destruct (_markerShape m) as [g|] eqn:E; [|left; reflexivity].
  destruct (PIXI.dragging g) eqn:D; [right | left; reflexivity].
  exists g. split; [reflexivity|].
  rewrite <- (movedTo_point evt m g E). unfold movedTo. rewrite E.
  reflexivity.
Qed.

Lemma keeps_numbers_drawSpline :
  keeps (fun a => ready a /\
                  Forall (fun m => isNumbers (markerPoint m) = true) (_markers a) /\
                  Forall (fun p => isNumbers p = true) (Spline.knots (_spline a)))
        __drawSpline.
Proof.
  intros a (R & Fm & Fk).
  split; [apply keeps_ready_drawSpline; exact R|].
  pose proof R as (_ & _ & _ & _ & _ & L).
  unfold __drawSpline, bind. rewrite (provideCoordinates_live a L).
  apply (keeps_drawSegments
           (fun a => Forall (fun m => isNumbers (markerPoint m) = true) (_markers a) /\
                     Forall (fun p => isNumbers p = true)
                            (Spline.knots (_spline a)))).
  - intros a' [F1 F2]. split; [exact F1|].
    cbn [_spline with_spline]. rewrite ensure_knots. exact F2.
  - intros a' g F. exact F.
  - split; [exact Fm|]. cbn [_spline with_spline].
    rewrite addPoints_knots. apply Forall_app. split; [exact Fk|].
    unfold markerPoints. apply Forall_map. exact Fm.
Qed.

Lemma keeps_numbers e :
  match e with
  | MarkerMove _ evt =>
      isNaN (PIXI.global_x evt) = false /\ isNaN (PIXI.global_y evt) = false
  | _ => True
  end ->
  keeps (fun a => ready a /\
                  Forall (fun m => isNumbers (markerPoint m) = true) (_markers a) /\
                  Forall (fun p => isNumbers p = true) (Spline.knots (_spline a)))
        (handle e).
Proof.
  intros Ok.
  assert (Sub : forall n,
            keeps (fun a => ready a /\
                     Forall (fun m => isNumbers (markerPoint m) = true) (_markers a) /\
                     Forall (fun p => isNumbers p = true) (Spline.knots (_spline a)))
                  (callSubscriber n)).
  { intros n. unfold callSubscriber. destruct (to n).
    intros a (R & Fm & Fk).
    change (__onMarkerMoved (marker_id n) (at_x n) (at_y n) a)
      with (__drawSpline (snd (onSpline Spline.clear a))).
    apply keeps_numbers_drawSpline.
    split; [exact R|]. split; [exact Fm | constructor]. }
  destruct e; cbn [handle].
  - apply keeps_stageEvent. intros a (R & Fm & Fk).
    split; [apply keeps_ready_click; exact R|].
    destruct (click_leaves a evt) as (_ & -> & _ & _ & _ & Em).
    split; [|exact Fk].
    destruct Em as [->| ->]; [exact Fm|].
    apply Forall_app. split; [exact Fm|].
    constructor; [|constructor].
    rewrite placed_point. apply clickPoint_isNumbers.
  - intros a (R & Fm & Fk).
    pose proof R as ([st St] & _).
    destruct (Z.lt_ge_cases (_numKnots a) 3) as [H|H].
    + rewrite (onDraw_too_few a H). auto.
    + rewrite (onDraw_enough a st H St).
      apply keeps_numbers_drawSpline.
      split; [|split; [|exact Fk]].
      * apply ready_with_statusTxt. apply ready_with_markers.
        -- apply ready_with_stage. exact R.
        -- apply length_map.
        -- apply Forall_map. destruct R as (_ & _ & _ & _ & _ & L).
           revert L. apply Forall_impl. intros m. apply live_addSubscriber.
      * cbn [_markers with_statusTxt with_markers]. apply Forall_map.
        revert Fm. apply Forall_impl. intros m E. exact E.
  - intros a (R & _).
    split; [apply keeps_ready_onClear; exact R|].
    destruct (onClear_leaves a) as (-> & _ & -> & _).
    split; constructor.
  - intros a (R & Fm & Fk).
    split; [apply keeps_ready_markerPress; exact R|].
    destruct (nth_error (_markers a) i) as [m|] eqn:E;
      [|rewrite (markerPress_none true i evt a E); auto].
    rewrite (markerPress_state true i evt a m E).
    split; [|exact Fk]. cbn [_markers with_markers].
    apply setNth_Forall; [exact Fm|].
    destruct (press_subscribers true evt m) as (_ & _ & ->).
    rewrite Forall_forall in Fm. apply Fm. eapply nth_error_In. exact E.
  - apply keeps_markerMove; [|exact Sub].
    intros a m (R & Fm & Fk) E.
    pose proof R as (_ & _ & _ & _ & _ & L).
    split; [|split; [|exact Fk]].
    + apply ready_with_markers; [exact R | apply setNth_length |].
      apply setNth_Forall; [exact L|]. apply live_dragging.
      rewrite Forall_forall in L. apply L. eapply nth_error_In. exact E.
    + cbn [_markers with_markers]. apply setNth_Forall; [exact Fm|].
      destruct (dragging_point evt m) as [->|(g & _ & ->)].
      * rewrite Forall_forall in Fm. apply Fm. eapply nth_error_In. exact E.
      * destruct Ok as [Ox Oy]. unfold isNumbers. cbn [Spline.x Spline.y].
        rewrite (written_number _ _ Ox), (written_number _ _ Oy). reflexivity.
  - intros a (R & Fm & Fk).
    split; [apply keeps_ready_markerPress; exact R|].
    destruct (nth_error (_markers a) i) as [m|] eqn:E;
      [|rewrite (markerPress_none false i evt a E); auto].
    rewrite (markerPress_state false i evt a m E).
    split; [|exact Fk]. cbn [_markers with_markers].
    apply setNth_Forall; [exact Fm|].
    destruct (press_subscribers false evt m) as (_ & _ & ->).
    rewrite Forall_forall in Fm. apply Fm. eapply nth_error_In. exact E.
Qed.

(** X14: no click puts a NaN into the spline.  If no pointer move on a
    marker carries a NaN coordinate, then whatever the stage events carry,
    no marker of the running component is at a NaN coordinate and no knot
    of the spline has one. *)
Theorem knots_are_numbers canvas events :
  movesCarryNumbers events = true ->
  let a := run events (boot canvas) in
  Forall (fun p => isNumbers p = true) (markerPoints (_markers a)) /\
  Forall (fun p => isNumbers p = true) (Spline.knots (_spline a)).
Proof.
  intros H a. destruct canvas as [canvas|].
  - assert (Q : ready a /\
                Forall (fun m => isNumbers (markerPoint m) = true) (_markers a) /\
                Forall (fun p => isNumbers p = true) (Spline.knots (_spline a))).
    { unfold a, run. clear a.
      assert (Q0 : ready (boot (Some canvas)) /\
                   Forall (fun m => isNumbers (markerPoint m) = true)
                          (_markers (boot (Some canvas))) /\
                   Forall (fun p => isNumbers p = true)
                          (Spline.knots (_spline (boot (Some canvas)))))
        by (split; [apply boot_ready | split; constructor]).
      revert Q0. generalize (boot (Some canvas)) as a0.
      induction events as [|e events IH]; intros a0 Q0; cbn [fold_left].
      - exact Q0.
      - cbn [movesCarryNumbers forallb] in H.
        apply andb_true_iff in H as [He H].
        apply (IH H). apply (keeps_numbers e); [|exact Q0].
        destruct e; try exact I.
        apply andb_true_iff in He as [Hx Hy].
        apply negb_true_iff in Hx. apply negb_true_iff in Hy. auto. }
    destruct Q as (_ & Fm & Fk). split; [|exact Fk].
    unfold markerPoints. apply Forall_map. exact Fm.
  - assert (I : inert a).
    { apply run_keeps; [apply keeps_inert_handle | apply boot_inert]. }
    destruct I as (_ & _ & _ & -> & _ & -> & _). split; constructor.
Qed.

(** *** The display list *)

Lemma keeps_displayed (C : list DisplayObject) (w h : number) e :
  keeps (fun a => exists st k,
                    _stage a = Some st /\ PIXI.children st = C /\
                    _markerContainer a = Some k /\
                    PIXI.children k =
                      map MarkerShape (seq 0 (List.length (_markers a))) /\
                    _width a = w /\ _height a = h)
        (handle e).
Proof.
  destruct e; cbn [handle].
  - apply keeps_stageEvent.
    intros a (st & k & St & Ch & K & Ck & W & H).
    exists st.
    destruct (Z.lt_ge_cases (_numKnots a) MAX_KNOTS) as [Lt|Ge].
    + rewrite (click_below_ceiling a k evt K Lt).
      eexists. split; [exact St|]. split; [exact Ch|].
      split; [reflexivity|]. split; [|split; assumption].
      cbn [snd _markers with_statusTxt with_numKnots with_markerContainer
           with_markers PIXI.addChild PIXI.children].
      rewrite Ck, length_app. cbn [List.length].
      rewrite Nat.add_1_r, seq_S, map_app. reflexivity.
    + rewrite (click_at_ceiling a evt Ge). exists k. repeat split; assumption.
  - apply keeps_onDraw.
    + intros a v P. exact P.
    + intros a st (st' & k & St' & Ch & K & Ck & W & H) St.
      rewrite St in St'. injection St' as <-.
      exists (PIXI.removeAllListeners st), k. repeat split; assumption.
    + intros a (st & k & St & Ch & K & Ck & W & H).
      exists st, k. cbn [_markers with_markers]. rewrite length_map.
      repeat split; assumption.
    + apply keeps_drawSpline; intros a x P; exact P.
  - intros a (st & k & St & Ch & K & Ck & W & H).
    destruct (onClear_leaves a) as (Ms & _ & _ & _ & _ & Es & Ek & Ew & Eh).
    rewrite St in Es. rewrite K in Ek.
    eexists. eexists. split; [exact Es|]. split; [exact Ch|].
    split; [exact Ek|]. rewrite Ms, Ew, Eh. repeat split; assumption.
  - apply keeps_markerPress.
    intros a m (st & k & St & Ch & K & Ck & W & H) _.
    exists st, k. cbn [_markers with_markers]. rewrite setNth_length.
    repeat split; assumption.
  - apply keeps_markerMove.
    + intros a m (st & k & St & Ch & K & Ck & W & H) _.
      exists st, k. cbn [_markers with_markers]. rewrite setNth_length.
    repeat split; assumption.
    + intros n. apply keeps_callSubscriber; intros a x P; exact P.
  - apply keeps_markerPress.
    intros a m (st & k & St & Ch & K & Ck & W & H) _.
    exists st, k. cbn [_markers with_markers]. rewrite setNth_length.
    repeat split; assumption.
Qed.

(** X15: the display list of the running component.  The stage keeps the
    children of the canvas's stage, then the spline graphics, then the
    marker container on top, for ever.  The marker container shows the
    shape of each marker once, in the order of [_markers], as many as
    [_numKnots] says.  Width and height are the canvas's. *)
Theorem every_marker_is_displayed_once canvas events :
  let a := run events (boot (Some canvas)) in
  exists st k,
    _stage a = Some st /\
    PIXI.children st =
      PIXI.children (stage canvas) ++ [SplineGraphics; MarkerContainer] /\
    _markerContainer a = Some k /\
    PIXI.children k = map MarkerShape (seq 0 (List.length (_markers a))) /\
    List.length (PIXI.children k) = Z.to_nat (_numKnots a) /\
    _width a = width canvas /\ _height a = height canvas.
Proof.
  intros a.
  destruct (run_keeps _ events (boot (Some canvas))
              (keeps_displayed
                 (PIXI.children (stage canvas) ++ [SplineGraphics; MarkerContainer])
                 (width canvas) (height canvas)))
    as (st & k & St & Ch & K & Ck & W & H).
  { eexists. eexists. split; [reflexivity|]. split.
    - cbn. rewrite <- app_assoc. reflexivity.
    - split; [reflexivity|]. repeat split. }
  fold a in St, K, Ck, W, H.
  exists st, k. split; [exact St|]. split; [exact Ch|]. split; [exact K|].
  split; [exact Ck|]. split; [|auto].
  assert (R : ready a) by apply run_ready, boot_ready.
  destruct R as (_ & _ & _ & -> & _).
  rewrite Ck, length_map, length_seq, Nat2Z.id. reflexivity.
Qed.

(** *** Without a canvas *)

(** X16: without a canvas [ngOnInit] changes nothing, and the component
    stays empty whatever happens: no stage, no marker container, no spline
    graphics, no marker, a knot count of 0, no knot, nothing drawn. *)
Theorem without_canvas_nothing_happens events :
  ngOnInit (snd (constructor None)) = (Returned tt, snd (constructor None)) /\
  inert (run events (boot None)) /\
  drawn (run events (boot None)) = [].
Proof.
  split.
  { assert (C : _canvas (snd (constructor None)) = None) by reflexivity.
    unfold ngOnInit, bind, get. rewrite C. reflexivity. }
  assert (I : inert (run events (boot None))).
  { apply run_keeps; [apply keeps_inert_handle | apply boot_inert]. }
  split; [exact I|].
  destruct I as (_ & _ & G & _). unfold drawn. rewrite G. reflexivity.
Qed.

(** *** A drag puts the drawing in step with the markers *)

Lemma onMarkerMoved_inStep id x y a :
  ready a -> (3 <= _numKnots a)%Z -> Spline.closed (_spline a) = false ->
  inStep (snd (__onMarkerMoved id x y a)) /\
  _markers (snd (__onMarkerMoved id x y a)) = _markers a.
Proof.
  intros R H C. pose proof R as (_ & _ & [g G] & N & _ & L).
  destruct (drawSpline_renders_each_segment a g L N H G C) as (_ & _ & F).
  destruct (F id x y) as (_ & K & Nk & Ls & D & _).
  destruct (onMarkerMoved_rebuilds a id x y L) as (_ & Ms).
  split; [|exact Ms].
  unfold inStep. rewrite Ms.
  assert (Nn : _numKnots (snd (__onMarkerMoved id x y a)) = _numKnots a).
  { apply (keeps_onMarkerMoved (fun a' => _numKnots a' = _numKnots a));
      [intros a' s E; exact E | intros a' g' E; exact E | reflexivity]. }
  rewrite Nn. auto.
Qed.

Lemma keeps_open_callSubscriber n :
  keeps (fun a => Spline.closed (_spline a) = false) (callSubscriber n).
Proof.
  unfold callSubscriber. destruct (to n).
  unfold __onMarkerMoved, __drawSpline. apply keeps_bind.
  - apply keeps_onSpline. intros a C. exact C.
  - intros _. apply keeps_bind.
    + apply keeps_provideCoordinates. intros a px py C. exact C.
    + intros _. apply keeps_drawSegments.
      * intros a C. cbn [_spline with_spline]. rewrite ensure_closed. exact C.
      * intros a g C. exact C.
Qed.

Lemma subscriber_puts_inStep n a :
  ready a -> (3 <= _numKnots a)%Z -> Spline.closed (_spline a) = false ->
  let a' := snd (callSubscriber n a) in
  fst (callSubscriber n a) = Returned tt /\
  inStep a' /\ _markers a' = _markers a /\
  ready a' /\ (3 <= _numKnots a')%Z /\ Spline.closed (_spline a') = false.
Proof.
  intros R H C a'.
  destruct (keeps_enough_knots n a (conj R H)) as [R' H'].
  pose proof (keeps_open_callSubscriber n a C) as C'.
  unfold a' in *. unfold callSubscriber in *. destruct (to n).
  destruct (onMarkerMoved_inStep (marker_id n) (at_x n) (at_y n) a R H C)
    as [I Ms].
  split; [apply onMarkerMoved_returns; assumption|].
  split; [exact I|]. split; [exact Ms|]. split; [exact R'|].
  split; [exact H' | exact C'].
Qed.

Lemma subscribers_put_inStep calls :
  calls <> [] ->
  forall a,
  ready a -> (3 <= _numKnots a)%Z -> Spline.closed (_spline a) = false ->
  fst (forEach calls callSubscriber a) = Returned tt /\
  inStep (snd (forEach calls callSubscriber a)) /\
  _markers (snd (forEach calls callSubscriber a)) = _markers a.
Proof.
  induction calls as [|n calls IH]; [intros E; destruct E; reflexivity|].
  intros _ a R H C. cbn [forEach]. unfold bind.
  destruct (subscriber_puts_inStep n a R H C) as (Rt & I & Ms & R' & H' & C').
  destruct (callSubscriber n a) as [[u|e] a1]; cbn [fst snd] in *;
    [|discriminate].
  destruct calls as [|n' calls'].
  - cbn. auto.
  - destruct (IH ltac:(discriminate) a1 R' H' C') as (Rt2 & I2 & Ms2).
    rewrite <- Ms. auto.
Qed.

(** X17: a drag puts the drawing in step with the markers.  In the running
    component, a pointer move on a marker that is pressed and has a
    subscriber returns; the marker is at the pointer, the others are where
    they were; the knots of the spline are the marker positions, as many as
    [_numKnots] says, the spline has one segment less than knots, and
    exactly its segments are drawn, each once and in order, whatever the
    spline held and showed before, also after [Draw] was pressed more than
    once. *)
Theorem drag_puts_the_drawing_in_step canvas events i evt m g :
  let a := run events (boot (Some canvas)) in
  nth_error (_markers a) i = Some m ->
  _markerShape m = Some g -> PIXI.dragging g = true ->
  _subscribers m <> [] ->
  let a' := snd (markerMoveEvent i evt a) in
  fst (markerMoveEvent i evt a) = Returned tt /\
  _markers a' = setNth i (movedTo evt m) (_markers a) /\
  inStep a'.
Proof.
  intros a E Sh D Subs a'.
  assert (St : steady a) by (apply run_keeps; [apply keeps_steady_handle | apply boot_steady]).
  assert (C : Spline.closed (_spline a) = false).
  { apply (run_keeps (fun a => Spline.closed (_spline a) = false));
      [apply keeps_open | reflexivity]. }
  destruct St as [R Q].
  assert (H : (3 <= _numKnots a)%Z).
  { destruct Q as [Q|Q]; [exact Q|].
    rewrite Forall_forall in Q. destruct Subs. apply Q.
    eapply nth_error_In. exact E. }
  pose proof R as (_ & _ & _ & _ & _ & L).
  assert (Lm : live m) by (unfold live; rewrite Sh; discriminate).
  destruct (markerMoveEvent_some a i evt m E Lm) as (calls & Cs & Ev).
  rewrite (dragging_moves evt m g Sh D) in Cs, Ev. cbn [fst snd] in Cs, Ev.
  injection Cs as <-.
  destruct (subscribers_put_inStep
              (map (fun sub =>
                      {| to := sub; marker_id := Marker.id m;
                         at_x := written (PIXI.x g) (PIXI.global_x evt);
                         at_y := written (PIXI.y g) (PIXI.global_y evt) |})
                   (_subscribers m))
              ltac:(destruct (_subscribers m);
                    [destruct Subs; reflexivity | discriminate])
              (with_markers (setNth i (movedTo evt m) (_markers a)) a))
    as (Rt & I & Ms).
  - apply ready_with_markers; [exact R | apply setNth_length |].
    apply setNth_Forall; [exact L | apply movedTo_live; exact Lm].
  - exact H.
  - exact C.
  - unfold a'. rewrite Ev. split; [exact Rt|]. split; [exact Ms | exact I].
Qed.

(** *** [Clear] forgets everything *)

Lemma onClear_state a :
  snd (onClear a) =
  {| statusTxt := "'Click' to add knots.  'Draw' to draw cubic spline";
     _canvas := _canvas a; _width := _width a; _height := _height a;
     _numKnots := 0; _markers := [];
     _stage :=
       option_map (fun st => {| PIXI.children := PIXI.children st;
                                PIXI.listeners := listensTo "pointerup" |})
                  (_stage a);
     _splineGraphics := option_map PIXI.clear (_splineGraphics a);
     _markerContainer :=
       option_map (fun k => {| PIXI.children := [];
                               PIXI.listeners := PIXI.listeners k |})
                  (_markerContainer a);
     _spline :=
       {| Spline.config := Spline.config (_spline a); Spline.knots := [];
          Spline.segments := []; Spline.closed := Spline.closed (_spline a);
          Spline.arcLengthTable := []; Spline.invalidated := false |} |}.
Proof.
  destruct a as [txt cv w h n ms [st|] [g|] [k|] sp]; reflexivity.
Qed.

Lemma onClear_same a b :
  _canvas a = _canvas b -> _width a = _width b -> _height a = _height b ->
  option_map (fun st => PIXI.children st) (_stage a) =
    option_map (fun st => PIXI.children st) (_stage b) ->
  option_map (fun k => PIXI.listeners k) (_markerContainer a) =
    option_map (fun k => PIXI.listeners k) (_markerContainer b) ->
  option_map PIXI.clear (_splineGraphics a) =
    option_map PIXI.clear (_splineGraphics b) ->
  Spline.config (_spline a) = Spline.config (_spline b) ->
  Spline.closed (_spline a) = Spline.closed (_spline b) ->
  snd (onClear a) = snd (onClear b).
Proof.
  intros Ecv Ew Eh Es Ek Eg Ec Ed. rewrite !onClear_state.
  rewrite Ecv, Ew, Eh, Eg, Ec, Ed.
  assert (Es' : option_map
                  (fun st => {| PIXI.children := PIXI.children st;
                                PIXI.listeners := listensTo "pointerup" |})
                  (_stage a) =
                option_map
                  (fun st => {| PIXI.children := PIXI.children st;
                                PIXI.listeners := listensTo "pointerup" |})
                  (_stage b)).
  { destruct (_stage a), (_stage b); try discriminate; [|reflexivity].
    cbn in Es |- *. injection Es as ->. reflexivity. }
  assert (Ek' : option_map
                  (fun k => {| PIXI.children := @nil DisplayObject;
                               PIXI.listeners := PIXI.listeners k |})
                  (_markerContainer a) =
                option_map
                  (fun k => {| PIXI.children := @nil DisplayObject;
                               PIXI.listeners := PIXI.listeners k |})
                  (_markerContainer b)).
  { destruct (_markerContainer a), (_markerContainer b); try discriminate;
      [|reflexivity].
    cbn in Ek |- *. injection Ek as ->. reflexivity. }
  rewrite Es', Ek'. reflexivity.
Qed.

Lemma ensure_config s : Spline.config (Spline.ensure s) = Spline.config s.
Proof. unfold Spline.ensure. destruct (Spline.invalidated s); reflexivity. Qed.

Lemma keeps_drawSegment_fine (P : AppComponent -> Prop) (i : Z) :
  (forall a, P a -> P (with_spline (Spline.ensure (_spline a)) a)) ->
  (forall a g g', P a -> _splineGraphics a = Some g ->
     PIXI.clear g' = PIXI.clear g -> P (with_splineGraphics (Some g') a)) ->
  keeps P (drawSegment i).
Proof.
  intros Hs Hg a Pa. unfold drawSegment, bind at 1, onSpline.
  pose proof (getCubicSegment_state i (_spline a)) as E.
  destruct (Spline.getCubicSegment i (_spline a)) as [[bezier|e] s'];
    cbn [snd] in E; subst s'; [|apply Hs; exact Pa].
  specialize (Hs a Pa).
  destruct bezier as [b|]; unfold bind at 1, deref, ret, throw; [|exact Hs].
  unfold bind at 1, get.
  destruct (_splineGraphics a) as [g|] eqn:G.
  - cbn [_splineGraphics with_spline]. rewrite G.
    unfold bind, deref, ret, modify. cbn [snd].
    apply (Hg _ g); [exact Hs | exact G | reflexivity].
  - cbn [_splineGraphics with_spline]. rewrite G. exact Hs.
Qed.

Lemma keeps_drawSpline_fine (P : AppComponent -> Prop) :
  (forall a px py, P a ->
     P (with_spline (snd (Spline.addControlPoint px py (_spline a))) a)) ->
  (forall a, P a -> P (with_spline (Spline.ensure (_spline a)) a)) ->
  (forall a g g', P a -> _splineGraphics a = Some g ->
     PIXI.clear g' = PIXI.clear g -> P (with_splineGraphics (Some g') a)) ->
  keeps P __drawSpline.
Proof.
  intros Hp Hs Hg. unfold __drawSpline. apply keeps_bind.
  { apply keeps_provideCoordinates. exact Hp. }
  intros _ a Pa. unfold drawSegments, bind at 1, get.
  destruct (_splineGraphics a) as [g|] eqn:G;
    unfold bind at 1, deref, ret, throw; [|exact Pa].
  unfold bind at 1, modify.
  apply keeps_forEach.
  - intros i. apply keeps_drawSegment_fine; assumption.
  - apply (Hg a g); [exact Pa | exact G | reflexivity].
Qed.

Lemma click_keeps a evt :
  let a' := snd (__onStageClicked evt a) in
  _canvas a' = _canvas a /\
  option_map (fun k => PIXI.listeners k) (_markerContainer a') =
    option_map (fun k => PIXI.listeners k) (_markerContainer a).
Proof.
  unfold __onStageClicked, bind, get, modify, deref, ret.
  destruct (_numKnots a <? MAX_KNOTS)%Z; cbn; [|split; reflexivity].
  destruct (_markerContainer a) eqn:K; cbn; rewrite ?K; split; reflexivity.
Qed.

Lemma keeps_cleared_alike b e :
  keeps (fun a => snd (onClear a) = snd (onClear b)) (handle e).
Proof.
  assert (D : keeps (fun a => snd (onClear a) = snd (onClear b)) __drawSpline).
  { apply keeps_drawSpline_fine.
    - intros a px py <-. apply onClear_same; reflexivity.
    - intros a <-. apply onClear_same; try reflexivity.
      + cbn [_spline with_spline]. apply ensure_config.
      + cbn [_spline with_spline]. apply ensure_closed.
    - intros a g g' <- G E. apply onClear_same; try reflexivity.
      cbn [_splineGraphics with_splineGraphics]. rewrite G. cbn. rewrite E.
      reflexivity. }
  assert (S : forall n, keeps (fun a => snd (onClear a) = snd (onClear b))
                              (callSubscriber n)).
  { intros n. unfold callSubscriber. destruct (to n).
    unfold __onMarkerMoved. apply keeps_bind; [|intros _; exact D].
    apply keeps_onSpline. intros a <-. apply onClear_same; reflexivity. }
  destruct e; cbn [handle].
  - apply keeps_stageEvent. intros a <-.
    destruct (click_leaves a evt) as (St & Sp & Sg & W & H & _).
    destruct (click_keeps a evt) as (Cv & K).
    apply onClear_same; try assumption.
    + rewrite St. reflexivity.
    + rewrite Sg. reflexivity.
    + rewrite Sp. reflexivity.
    + rewrite Sp. reflexivity.
  - apply keeps_onDraw.
    + intros a v <-. apply onClear_same; reflexivity.
    + intros a st <- St. apply onClear_same; try reflexivity.
      cbn [_stage with_stage]. rewrite St. reflexivity.
    + intros a <-. apply onClear_same; reflexivity.
    + exact D.
  - intros a <-.
    rewrite onClear_twice. reflexivity.
  - apply keeps_markerPress. intros a m <- _. apply onClear_same; reflexivity.
  - apply keeps_markerMove; [|exact S].
    intros a m <- _. apply onClear_same; reflexivity.
  - apply keeps_markerPress. intros a m <- _. apply onClear_same; reflexivity.
Qed.

(** X18: [Clear] forgets everything.  Whatever happened to the running
    component, with or without a canvas, [onClear] leaves it in the one
    state in which [onClear] leaves the component right after
    initialisation: no marker position, subscriber, knot, segment, drawing
    or status text of the past survives. *)
Theorem Clear_forgets_everything canvas events :
  snd (onClear (run events (boot canvas))) = snd (onClear (boot canvas)).
Proof.
  apply (run_keeps (fun a => snd (onClear a) = snd (onClear (boot canvas)))).
  - apply keeps_cleared_alike.
  - reflexivity.
Qed.

(** *** The status text *)

Lemma keeps_status_ready e :
  keeps (fun a => ready a /\ statusTells a) (handle e).
Proof.
  assert (W : forall a ms, statusTells a -> statusTells (with_markers ms a))
    by (intros a ms T; exact T).
  destruct e; cbn [handle].
  - apply keeps_stageEvent. intros a [R T].
    split; [apply keeps_ready_click; exact R|].
    pose proof R as (_ & [k K] & _ & _ & B & _).
    destruct (Z.lt_ge_cases (_numKnots a) MAX_KNOTS) as [H|H].
    + rewrite (click_below_ceiling a k evt K H).
      right. left. split; [reflexivity|]. cbn. lia.
    + rewrite (click_at_ceiling a evt H).
      right. right. left. split; [reflexivity|]. cbn. lia.
  - intros a [R T]. split; [apply keeps_ready_onDraw; exact R|].
    pose proof R as ([st St] & _).
    destruct (Z.lt_ge_cases (_numKnots a) 3) as [H|H].
    + rewrite (onDraw_too_few a H).
      right. right. right. left. split; [reflexivity | exact H].
    + rewrite (onDraw_enough a st H St).
      right. right. right. right.
      apply (keeps_drawSpline
               (fun x => statusTxt x = "'Clear' to reset for another spline."%string
                         /\ (3 <= _numKnots x)%Z)).
      * intros x s P. exact P.
      * intros x g P. exact P.
      * split; [reflexivity | exact H].
  - intros a [R T]. split; [apply keeps_ready_onClear; exact R|].
    left. rewrite onClear_state. split; reflexivity.
  - intros a [R T]. split; [apply keeps_ready_markerPress; exact R|].
    revert T. apply (keeps_markerPress statusTells). intros x m T _. exact T.
  - intros a [R T]. split; [apply keeps_ready_markerMove; exact R|].
    revert T. apply (keeps_markerMove statusTells).
    + intros x m T _. exact T.
    + intros n. apply keeps_callSubscriber; intros x y T; exact T.
  - intros a [R T]. split; [apply keeps_ready_markerPress; exact R|].
    revert T. apply (keeps_markerPress statusTells). intros x m T _. exact T.
Qed.

Lemma keeps_status_inert e :
  keeps (fun a => inert a /\ statusTells a) (handle e).
Proof.
  intros a [I T]. split; [apply keeps_inert_handle; exact I|].
  pose proof I as (St & K & G & Ms & N & _).
  destruct e; cbn [handle].
  - unfold stageEvent, bind, get. rewrite St. exact T.
  - rewrite (onDraw_too_few a) by lia.
    right. right. right. left. split; [reflexivity | cbn; lia].
  - left. rewrite onClear_state. split; reflexivity.
  - unfold markerPressEvent, bind, get. rewrite Ms. destruct i; exact T.
  - unfold markerMoveEvent, bind, get. rewrite Ms. destruct i; exact T.
  - unfold markerPressEvent, bind, get. rewrite Ms. destruct i; exact T.
Qed.

(** X20: the status text never lies.  In the running component, with or
    without a canvas, the text shown is the instructions and there is no
    knot, or it is [Total knot count n] with [n] the present count of
    knots, or it says that the limit is exceeded and there are 8 knots, or
    it asks for at least three knots and there are fewer, or it tells to
    clear and there are at least 3. *)
Theorem status_text_tells_the_state canvas events :
  statusTells (run events (boot canvas)).
Proof.
  destruct canvas as [canvas|].
  - apply (run_keeps (fun a => ready a /\ statusTells a)).
    + apply keeps_status_ready.
    + split; [apply boot_ready|]. left. split; reflexivity.
  - apply (run_keeps (fun a => inert a /\ statusTells a)).
    + apply keeps_status_inert.
    + split; [apply boot_inert|]. left. split; reflexivity.
Qed.

End Running.

(** ** Arc-length inversion *)

Section InversionFacts.

Import Spline.

Local Open Scope float_scope.












End InversionFacts.

(** ** The statements at the sample inputs *)

Section Instances.

Import Marker App Terms.

Local Open Scope float_scope.

Lemma fourMarkers_live : Forall live (_markers Sample.fourMarkers).
Proof. repeat constructor; discriminate. Qed.

Lemma drawnAndPressed_live : Forall live (_markers Sample.drawnAndPressed).
Proof. repeat constructor; discriminate. Qed.

(** Four markers on the corners of a square: [__drawSpline] returns and
    leaves four knots and three segments. *)
Example fourMarkers_drawn_once :
  (3 <= _numKnots Sample.fourMarkers)%Z /\
  fst (__drawSpline Sample.fourMarkers) = Returned tt /\
  List.length
    (Spline.segments (_spline (snd (__drawSpline Sample.fourMarkers)))) = 3%nat.
Proof.
  split; [vm_compute; discriminate|].
  pose proof (drawSpline_renders_each_segment Sample.fourMarkers
                PIXI.new_Graphics fourMarkers_live eq_refl
                ltac:(vm_compute; discriminate) eq_refl eq_refl)
    as (_ & T & _).
  destruct (T eq_refl) as (R & K & N & S & _).
  split; [exact R|]. rewrite S, K. reflexivity.
Qed.

(** Before any click [onDraw] only sets the status text. *)
Lemma onDraw_rejects_fewer_than_3_witness :
  (_numKnots (boot (Some Sample.canvas)) < 3)%Z /\
  statusTxt (snd (onDraw (boot (Some Sample.canvas)))) =
    "You must define at least three knots"%string.
Proof.
  assert (H : (_numKnots (boot (Some Sample.canvas)) < 3)%Z)
    by (vm_compute; reflexivity).
  split; [exact H|].
  apply (onDraw_rejects_fewer_than_3 (boot (Some Sample.canvas)) H).
Defined.




(** After [Draw], with the second marker pressed, a pointer move takes the
    marker along and the spline's knots with it. *)
Lemma marker_moved_replaces_all_knots_witness :
  Forall live (_markers Sample.drawnAndPressed) /\
  Spline.knots
    (_spline (snd (markerMoveEvent 1 (Sample.pointer 20 5)
                     Sample.drawnAndPressed))) =
  [ {| Spline.x := 0; Spline.y := 0 |}; {| Spline.x := 20; Spline.y := 5 |};
    {| Spline.x := 10; Spline.y := 10 |}; {| Spline.x := 0; Spline.y := 10 |} ].
Proof.
  split; [exact drawnAndPressed_live|].
  pose proof (marker_moved_replaces_all_knots Sample.drawnAndPressed None 0 0
                drawnAndPressed_live) as (_ & _ & D).
  destruct (nth_error (_markers Sample.drawnAndPressed) 1) as [m|] eqn:E;
    [|discriminate].
  destruct (_markerShape m) as [g|] eqn:Sh;
    [|vm_compute in E; injection E as <-; discriminate].
  specialize (D 1%nat (Sample.pointer 20 5) m g E Sh).
  vm_compute in E. injection E as <-.
  vm_compute in Sh. injection Sh as <-.
  specialize (D eq_refl ltac:(discriminate)).
  destruct D as (M & _ & K). rewrite K, M. reflexivity.
Defined.

(** The scenario of the specification: knots (0,0), (10,0), (10,10), (0,10),
    open.  Exactly 3 segments, the first starting at (0,0); a length of at
    least the polyline's 30; [null] at index 3 and at index -1. *)
Example square_scenario :
  let s := snd (Spline.setData [0; 10; 10; 0] [0; 0; 10; 10]
                  (Spline.new_Spline Spline.defaults)) in
  let s' := snd (Spline.length s) in
  List.length (Spline.segments s') = 3%nat /\
  option_map (fun b => (Spline.x0 b, Spline.y0 b))
    (nth_error (Spline.segments s') 0) = Some (0, 0) /\
  (exists len, fst (Spline.length s) = Returned len /\ (30 <=? len) = true) /\
  fst (Spline.getCubicSegment 3 s) = Returned None /\
  fst (Spline.getCubicSegment (-1) s) = Returned None.
Proof.
  vm_compute. repeat split. eexists. split; reflexivity.
Qed.

(** [clear()] resets the length to 0 and leaves no segment. *)
Example clear_resets :
  let s := snd (Spline.setData [0; 10; 10; 0] [0; 0; 10; 10]
                  (Spline.new_Spline Spline.defaults)) in
  let s' := snd (Spline.clear (snd (Spline.length s))) in
  fst (Spline.length s') = Returned 0 /\
  fst (Spline.getCubicSegment 0 s') = Returned None.
Proof. vm_compute. split; reflexivity. Qed.

(** A mismatch of lengths in [setData] is a ValidationError. *)
Example setData_mismatch :
  fst (Spline.setData [0; 10] [0] (Spline.new_Spline Spline.defaults))
  = Thrown ValidationError.
Proof. reflexivity. Qed.

(** Nine clicks leave eight markers. *)
Example ninth_click_is_ignored :
  let a := run (Sample.fourClicks ++ Sample.fourClicks
                  ++ [OnStage "click" (Sample.pointer 5 5)])
               (boot (Some Sample.canvas)) in
  _numKnots a = 8%Z /\ List.length (_markers a) = 8%nat.
Proof. vm_compute. split; reflexivity. Qed.

(** After [Clear] the stage listens to [pointerup] and not to [click]. *)
Example clear_listens_to_pointerup :
  let a := run [ClearButton; OnStage "click" (Sample.pointer 5 5);
                OnStage "pointerup" (Sample.pointer 6 6)]
               Sample.fourMarkers in
  markerPoints (_markers a) = [ {| Spline.x := 6; Spline.y := 6 |} ].
Proof. vm_compute. reflexivity. Qed.

(** After [Draw] the stage no longer listens: a click adds no marker. *)
Example draw_stops_clicks :
  _markers (run [DrawButton; OnStage "click" (Sample.pointer 5 5)]
              Sample.fourMarkers)
  = _markers (run [DrawButton] Sample.fourMarkers).
Proof. vm_compute. reflexivity. Qed.

(** A click whose pointer abscissa is NaN leaves the new marker's abscissa
    at 0, where a new shape is. *)
Example click_at_NaN :
  markerPoint (placed (Sample.pointer nan 5))
  = {| Spline.x := 0; Spline.y := 5 |}.
Proof. vm_compute. reflexivity. Qed.

(** C1 where it fails: [Draw] pressed a second time, without [Clear].
    [onDraw] does not clear the spline as [__onMarkerMoved] does, so the four
    marker positions are added to the four knots the spline still holds.
    After the first [Draw] the open spline has 4 knots and 3 segments and
    each is drawn.  After the second it is open still, has 8 knots and 7
    segments, and the loop, which counts by [_numKnots], has drawn segments 0
    to 2 only and not 0 to 6; the third of them no longer ends the spline,
    and its second control point has moved. *)
Theorem second_draw_renders_part_of_spline :
  let once := run [DrawButton] Sample.fourMarkers in
  let twice := run [DrawButton; DrawButton] Sample.fourMarkers in
  (List.length (Spline.knots (_spline once)) = 4%nat /\
   List.length (Spline.segments (_spline once)) = 3%nat /\
   drawn once = flat_map strokes (Spline.segments (_spline once))) /\
  (_numKnots twice = 4%Z /\
   Spline.closed (_spline twice) = false /\
   Spline.knots (_spline twice) =
     markerPoints (_markers twice) ++ markerPoints (_markers twice) /\
   List.length (Spline.knots (_spline twice)) = 8%nat /\
   List.length (Spline.segments (_spline twice)) = 7%nat /\
   drawn twice = flat_map strokes (firstn 3 (Spline.segments (_spline twice))) /\
   List.length (drawn twice) = 6%nat /\
   List.length (flat_map strokes (Spline.segments (_spline twice))) = 14%nat) /\
  (option_map Spline.cy1 (nth_error (Spline.segments (_spline once)) 2)
     = Some 10%float /\
   option_map Spline.cy1 (nth_error (Spline.segments (_spline twice)) 2)
     = Some 0x1.7555555555555p+3%float).
Proof. vm_compute. repeat split. Qed.

(** A marker as the application makes it, at (3, 4): reading works, a NaN
    written to [x] changes nothing, and after [clear()] reading throws while
    writing is let through. *)
Example marker_life :
  let m := placed (Sample.pointer 3 4) in
  let cleared := snd (Marker.clear m) in
  fst (Marker.x m) = Returned 3 /\
  fst (Marker.y m) = Returned 4 /\
  snd (Marker.set_x nan m) = m /\
  markerPoint (snd (Marker.setCoords nan 7 m))
    = {| Spline.x := 3; Spline.y := 7 |} /\
  fst (Marker.x cleared) = Thrown TypeError /\
  Marker.set_x 5 cleared = (Returned tt, cleared) /\
  Marker.setCoords 5 6 cleared = (Returned tt, cleared).
Proof. vm_compute. repeat split. Qed.

End Instances.

(** ** The running component at the sample inputs *)

Section RunningInstances.

Import Marker App Terms.

Local Open Scope float_scope.

Lemma fourMarkers_ready : ready Sample.fourMarkers.
Proof. unfold Sample.fourMarkers. apply run_ready, boot_ready. Qed.

Lemma fourMarkers_enough : (3 <= _numKnots Sample.fourMarkers)%Z.
Proof. vm_compute. discriminate. Qed.

(** A marker placed at (0, 4) and then set to abscissa [-0] reads [+0];
    set to ordinate 6, it reads 6. *)
Lemma coordinates_read_back_witness :
  isNaN (- 0) = false /\ isNaN 6 = false /\
  fst (Marker.x (snd (Marker.set_x (- 0) (placed (Sample.pointer 0 4)))))
    = Returned 0 /\
  fst (Marker.y (snd (Marker.set_y 6 (placed (Sample.pointer 0 4)))))
    = Returned 6.
Proof.
  split; [reflexivity|]. split; [reflexivity|].
  destruct (coordinates_read_back MarkerSubscriber
              (placed (Sample.pointer 0 4)) _ (- 0) 6
              eq_refl eq_refl eq_refl)
    as (_ & _ & _ & _ & X & _ & Y & _).
  split; [exact X | exact Y].
Defined.

(** The subscribed marker, pressed and moved to (7, 8), asks for one call,
    with an undefined id and the new position. *)
Lemma marker_follows_pointer_while_pressed_witness :
  fst (Marker.onOwnShape (Marker.__dragging (Sample.pointer 7 8))
         (snd (Marker.onOwnShape (Marker.__startDrag (Sample.pointer 3 4))
                 Sample.subscribedMarker)))
  = Returned [ {| to := MarkerMoved; marker_id := None; at_x := 7; at_y := 8 |} ].
Proof.
  exact (proj1 (proj2 (proj2
           (marker_follows_pointer_while_pressed MarkerSubscriber
              Sample.subscribedMarker _
              (Sample.pointer 3 4) (Sample.pointer 7 8) (Sample.pointer 7 8)
              eq_refl)))).
Defined.

(** After four clicks on the sample canvas an event reaches one handler at
    most. *)
Lemma stage_has_one_listener_at_most_witness :
  PIXI.listeners (stage Sample.canvas) = [] /\
  exists st,
    _stage Sample.fourMarkers = Some st /\
    forall event, (List.length (PIXI.handlersOf event st) <= 1)%nat.
Proof.
  split; [reflexivity|].
  destruct (stage_has_one_listener_at_most Sample.canvas Sample.fourClicks
              eq_refl) as (st & St & _ & H & _).
  exists st. split; [exact St | exact H].
Defined.

(** [Draw] on the four markers tells to clear and keeps the four knots. *)
Lemma draw_freezes_the_knots_witness :
  ready Sample.fourMarkers /\
  statusTxt (snd (onDraw Sample.fourMarkers)) =
    "'Clear' to reset for another spline."%string /\
  _numKnots (snd (onDraw Sample.fourMarkers)) = 4%Z.
Proof.
  split; [exact fourMarkers_ready|].
  destruct (draw_freezes_the_knots Sample.fourMarkers fourMarkers_ready
              fourMarkers_enough) as (_ & _ & _ & _ & _ & N & T).
  split; [exact T | rewrite N; reflexivity].
Defined.

(** [Draw] on the four markers draws three segments: six commands. *)
Lemma onDraw_adds_to_the_spline_witness :
  (3 <= _numKnots Sample.fourMarkers)%Z /\
  List.length (drawn (snd (onDraw Sample.fourMarkers))) = 6%nat.
Proof.
  split; [exact fourMarkers_enough|].
  destruct (onDraw_adds_to_the_spline Sample.fourMarkers fourMarkers_ready
              fourMarkers_enough) as (_ & _ & _ & L).
  rewrite L. reflexivity.
Defined.

(** Four clicks and no [Draw]: nothing is drawn. *)
Lemma nothing_is_drawn_before_Draw_witness :
  pressesDraw Sample.fourClicks = false /\
  drawn Sample.fourMarkers = [] /\
  Spline.knots (_spline Sample.fourMarkers) = [].
Proof.
  split; [reflexivity|].
  destruct (nothing_is_drawn_before_Draw (Some Sample.canvas) Sample.fourClicks
              eq_refl) as (K & _ & D & _).
  split; [exact D | exact K].
Defined.

(** [Clear], four [pointerup] events at the corners of the square, [Draw]:
    the knots are the four corners. *)
Lemma first_Draw_interpolates_the_clicks_witness :
  (3 <= List.length Sample.fourPointers)%nat /\
  Spline.knots
    (_spline
       (snd (onDraw
               (run (map (OnStage "pointerup") Sample.fourPointers)
                  (run [ClearButton] (boot (Some Sample.canvas)))))))
  = Sample.square 1.
Proof.
  assert (L : (3 <= List.length Sample.fourPointers)%nat) by (cbn; lia).
  split; [exact L|].
  destruct (first_Draw_interpolates_the_clicks Sample.canvas [] Sample.fourPointers L)
    as ((P & R) & _).
  destruct R as (_ & K & _).
  cbn [app] in K, P. rewrite K, P. reflexivity.
Defined.

(** Four clicks, [Draw], and the second marker dragged to (20, 5): no knot
    has a NaN. *)
Lemma knots_are_numbers_witness :
  movesCarryNumbers Sample.clicksDrawAndDrag = true /\
  Forall (fun p => isNumbers p = true)
         (Spline.knots
            (_spline (run Sample.clicksDrawAndDrag (boot (Some Sample.canvas))))).
Proof.
  split; [reflexivity|].
  exact (proj2 (knots_are_numbers (Some Sample.canvas) Sample.clicksDrawAndDrag
                  eq_refl)).
Defined.

(** Four clicks, [Draw] twice, the second marker pressed and moved: the
    drawing shows the three segments of the four markers again. *)
Lemma drag_puts_the_drawing_in_step_witness :
  let a := run (Sample.fourClicks
                  ++ [DrawButton; DrawButton; MarkerDown 1 (Sample.pointer 10 0)])
               (boot (Some Sample.canvas)) in
  let a' := snd (markerMoveEvent 1 (Sample.pointer 20 5) a) in
  inStep a' /\ List.length (Spline.knots (_spline a)) = 8%nat /\
  List.length (Spline.knots (_spline a')) = 4%nat.
Proof.
  intros a a'.
  assert (E : exists m g,
            nth_error (_markers a) 1 = Some m /\ _markerShape m = Some g /\
            PIXI.dragging g = true /\ _subscribers m <> []).
  { vm_compute. eexists. eexists.
    split; [reflexivity|]. split; [reflexivity|]. split; [reflexivity|].
    discriminate. }
  destruct E as (m & g & E & Sh & D & Su).
  destruct (drag_puts_the_drawing_in_step Sample.canvas
              (Sample.fourClicks
                 ++ [DrawButton; DrawButton; MarkerDown 1 (Sample.pointer 10 0)])
              1 (Sample.pointer 20 5) m g E Sh D Su) as (_ & _ & I).
  split; [exact I|]. split; vm_compute; reflexivity.
Defined.

End RunningInstances.
